(** * Kalshi-BTC: calibration, pricing and result cache

    A shallow embedding of the TypeScript pricing utilities
    ([wilsonCI], [calculateEV], the volatility estimators and
    [detectJumps]), of the calibration route ([estimateJumpParams],
    [detectRegime], [calibrateHestonParams], [GET]), of
    [SimulationCache] and of [prepareSimInputs], together with the
    properties the specification states about them; and, with further
    properties of the code, of the edge tables of the cards, the
    performance monitor, the simulation worker, [formatTimeRemaining],
    the price history of the live feed and the geometry of the charts.

    JavaScript numbers are modelled by [num]: a finite value is an exact
    real, and the three non-finite values of IEEE-754 ([Infinity],
    [-Infinity], [NaN]) are kept, with the behaviour every operator has
    on them.  Rounding error and overflow of finite arithmetic are
    abstracted away, and so is the sign of zero (a zero divisor is read
    as [+0]).  Where a result depends on rounding, the function is
    embedded once more over the binary64 numbers of the kernel (module
    [Binary64]); the last part of the file records where the two
    arithmetics part. *)

From Stdlib Require Import Floats.
From Stdlib Require Uint63.
From Stdlib Require Import Reals Lra Lia ZArith List String Bool DecimalString.
Import ListNotations.
Set Warnings "-inexact-float".

Open Scope R_scope.

(** ** JavaScript numbers *)

Inductive num : Type :=
| Fin (r : R)
| PInf
| NInf
| NaN.

Declare Scope num_scope.
Delimit Scope num_scope with num.
Bind Scope num_scope with num.

Definition Rltb (x y : R) : bool := if Rlt_dec x y then true else false.
Definition Reqb (x y : R) : bool := if Req_dec_T x y then true else false.

Definition nneg (a : num) : num :=
  match a with
  | Fin x => Fin (- x)
  | PInf => NInf
  | NInf => PInf
  | NaN => NaN
  end.

Definition nadd (a b : num) : num :=
  match a, b with
  | Fin x, Fin y => Fin (x + y)
  | NaN, _ | _, NaN => NaN
  | PInf, NInf | NInf, PInf => NaN
  | PInf, _ | _, PInf => PInf
  | NInf, _ | _, NInf => NInf
  end.

Definition nsub (a b : num) : num := nadd a (nneg b).

(** The sign of an infinite product or quotient. *)
Definition signed_inf (positive : bool) : num := if positive then PInf else NInf.

Definition nmul (a b : num) : num :=
  match a, b with
  | Fin x, Fin y => Fin (x * y)
  | NaN, _ | _, NaN => NaN
  | Fin x, PInf | PInf, Fin x =>
      if Reqb x 0 then NaN else signed_inf (Rltb 0 x)
  | Fin x, NInf | NInf, Fin x =>
      if Reqb x 0 then NaN else signed_inf (Rltb x 0)
  | PInf, PInf | NInf, NInf => PInf
  | PInf, NInf | NInf, PInf => NInf
  end.

Definition ndiv (a b : num) : num :=
  match a, b with
  | Fin x, Fin y =>
      if Reqb y 0 then
        if Reqb x 0 then NaN else signed_inf (Rltb 0 x)
      else Fin (x / y)
  | NaN, _ | _, NaN => NaN
  | Fin _, PInf | Fin _, NInf => Fin 0
  | PInf, Fin y => signed_inf (negb (Rltb y 0))
  | NInf, Fin y => signed_inf (Rltb y 0)
  | PInf, PInf | PInf, NInf | NInf, PInf | NInf, NInf => NaN
  end.

(** [Math.sqrt], [Math.log], [Math.abs], [Math.pow(x, 2)]. *)
Definition nsqrt (a : num) : num :=
  match a with
  | Fin x => if Rltb x 0 then NaN else Fin (sqrt x)
  | PInf => PInf
  | NInf | NaN => NaN
  end.

Definition nlog (a : num) : num :=
  match a with
  | Fin x => if Rltb x 0 then NaN else if Reqb x 0 then NInf else Fin (ln x)
  | PInf => PInf
  | NInf | NaN => NaN
  end.

Definition nabs (a : num) : num :=
  match a with
  | Fin x => Fin (Rabs x)
  | PInf | NInf => PInf
  | NaN => NaN
  end.

Definition npow2 (a : num) : num :=
  match a with
  | Fin x => Fin (x * x)
  | PInf | NInf => PInf
  | NaN => NaN
  end.

(** The comparisons [a < b], [a > b] and [a === b]: all false on [NaN]. *)
Definition nlt (a b : num) : bool :=
  match a, b with
  | Fin x, Fin y => Rltb x y
  | NaN, _ | _, NaN => false
  | _, NInf | PInf, _ => false
  | NInf, _ | _, PInf => true
  end.

Definition ngt (a b : num) : bool := nlt b a.

Definition nseq (a b : num) : bool :=
  match a, b with
  | Fin x, Fin y => Reqb x y
  | PInf, PInf | NInf, NInf => true
  | _, _ => false
  end.

(** [Math.max] and [Math.min] of two arguments: [NaN] if either is. *)
Definition nmax (a b : num) : num :=
  match a, b with
  | NaN, _ | _, NaN => NaN
  | _, _ => if nlt a b then b else a
  end.

Definition nmin (a b : num) : num :=
  match a, b with
  | NaN, _ | _, NaN => NaN
  | _, _ => if nlt b a then b else a
  end.

(** [Math.round]: the nearest integer, halves upwards. *)
Definition Math_round (a : num) : num :=
  match a with
  | Fin x => Fin (IZR (Zfloor (x + / 2)))
  | _ => a
  end.

(** Truthiness of a number: [0] and [NaN] are falsy. *)
Definition truthy (a : num) : bool :=
  match a with
  | Fin x => negb (Reqb x 0)
  | PInf | NInf => true
  | NaN => false
  end.

Notation "a + b" := (nadd a b) : num_scope.
Notation "a - b" := (nsub a b) : num_scope.
Notation "a * b" := (nmul a b) : num_scope.
Notation "a / b" := (ndiv a b) : num_scope.
Notation "- a" := (nneg a) : num_scope.
Notation "a >? b" := (ngt a b) (at level 70, no associativity) : num_scope.
Notation "a <? b" := (nlt a b) (at level 70, no associativity) : num_scope.
Notation "a === b" := (nseq a b) (at level 70, no associativity) : num_scope.
Notation "# r" := (Fin r%R) (at level 5, r at level 1, format "# r") : num_scope.

(** [array.length] as a number. *)
Definition length_num {A} (l : list A) : num := Fin (INR (List.length l)).

(** [array.reduce((sum, x) => sum + f(x), 0)]. *)
Definition sum_by {A} (f : A -> num) (l : list A) : num :=
  fold_left (fun sum x => (sum + f x)%num) l (Fin 0).

(** ** Math utilities *)

(** [wilsonCI(successes, n, confidence = 0.95)]. *)
Definition wilsonCI (successes n confidence : num) : num * num :=
  if (n === #0)%num then (Fin 0, Fin 1) else
  let p := (successes / n)%num in
  let z := if (confidence === #0.95)%num then Fin 1.96 else Fin 2.576 in
  let zsq := (z * z)%num in
  let denominator := (#1 + zsq / n)%num in
  let center := ((p + zsq / (#2 * n)) / denominator)%num in
  let margin :=
    ((z * nsqrt (p * (#1 - p) / n + zsq / (#4 * n * n))) / denominator)%num in
  (nmax (Fin 0) (center - margin)%num, nmin (Fin 1) (center + margin)%num).

Inductive Action : Type := BUY_YES | SELL_YES | BUY_NO | SELL_NO.

(** [calculateEV(probability, action, price)]. *)
Definition calculateEV (probability : num) (action : Action) (price : num) : num :=
  match action with
  | BUY_YES => (#100 * probability - price)%num
  | SELL_YES => (price - #100 * (#1 - probability))%num
  | BUY_NO => (#100 * (#1 - probability) - price)%num
  | SELL_NO => (price - #100 * probability)%num
  end.

(** [realizedVolatility(returns)]: sample standard deviation, [0] below
    two returns. *)
Definition realizedVolatility (returns : list num) : num :=
  if (List.length returns <? 2)%nat then Fin 0 else
  let mean := (sum_by (fun r => r) returns / length_num returns)%num in
  let variance :=
    (sum_by (fun r => npow2 (r - mean)) returns
       / (length_num returns - #1))%num in
  nsqrt variance.

(** [ewmaVolatility(returns, lambda = 0.94)]; the [forEach] loop is the
    fold over the indexed returns. *)
Fixpoint ewma_loop (lambda : num) (returns : list num) (i : nat) (variance : num)
  : num :=
  match returns with
  | [] => variance
  | r :: rest =>
      ewma_loop lambda rest (S i)
        (match i with
         | O => (r * r)%num
         | S _ => (lambda * variance + (#1 - lambda) * r * r)%num
         end)
  end.

Definition ewmaVolatility (returns : list num) (lambda : num) : num :=
  match returns with
  | [] => Fin 0
  | _ => nsqrt (ewma_loop lambda returns 0 (Fin 0))
  end.

(** [detectJumps(returns, threshold = 3)]. *)
Definition detectJumps (returns : list num) (threshold : num) : list num :=
  let vol := realizedVolatility returns in
  let mean := (sum_by (fun r => r) returns / length_num returns)%num in
  filter (fun r => (nabs (r - mean) >? threshold * vol)%num) returns.

(** ** Shared types and constants *)

Inductive Regime : Type := BULL | BEAR.

Record HestonParams : Type := {
  kappa : num;
  theta : num;
  xi : num;
  rho : num
}.

Inductive JumpKind : Type := merton | kou.

Record JumpParams : Type := {
  lambda : num;
  mu_j : num;
  sigma_j : num;
  kind : JumpKind
}.

Record RegimeParams : Type := {
  mu : num;
  heston : HestonParams
}.

Record HMM : Type := {
  p : (num * num) * (num * num);
  pi0 : num * num
}.

Record Regimes : Type := {
  regime_BULL : RegimeParams;
  regime_BEAR : RegimeParams
}.

Record SimInputs : Type := {
  s0 : num;
  t : num;
  dt : num;
  regimes : Regimes;
  hmm : HMM;
  jumps : JumpParams
}.

Record SensitivityParams : Type := {
  volatilityMultiplier : num;
  jumpIntensityMultiplier : num;
  jumpSizeMultiplier : num
}.

Record BTCCandle : Type := {
  time : num;
  open : num;
  high : num;
  low : num;
  close : num;
  volume : num
}.

(** The interface [CalibrationData]; its fields are read with their
    qualified names. *)
Module CalibrationData.

Record jumps_t : Type := {
  lambda : num;
  mu_j : num;
  sigma_j : num
}.

Record regime_t : Type := {
  current : Regime;
  probabilities : num * num
}.

Record t : Type := {
  dailyRV : num;
  weeklyRV : num;
  intradayRV : num;
  jumps : jumps_t;
  regime : regime_t;
  timestamp : num
}.

End CalibrationData.

(** A JavaScript value as [JSON.stringify] and [NextResponse.json] see
    it.  An object literal is the list of its keys with their values, in
    the order of the source. *)
#[local] Unset Elimination Schemes.
Inductive jsval : Type :=
| JNull
| JNum (x : num)
| JStr (s : string)
| JArr (items : list jsval)
| JObj (fields : list (string * jsval)).
#[local] Set Elimination Schemes.

(** Property access [o.key]; [None] is [undefined]. *)
Fixpoint lookup_field (key : string) (fields : list (string * jsval))
  : option jsval :=
  match fields with
  | [] => None
  | (k, v) :: rest => if String.eqb key k then Some v else lookup_field key rest
  end.

Definition field (key : string) (o : jsval) : option jsval :=
  match o with
  | JObj fields => lookup_field key fields
  | _ => None
  end.

Definition DEFAULT_HESTON_PARAMS : HestonParams :=
  {| kappa := Fin 2; theta := Fin 0.04; xi := Fin 0.3; rho := Fin (- 0.5) |}.

(** The constant is written with the keys [muJ] and [sigmaJ], where the
    interface [JumpParams] has [mu_j] and [sigma_j]. *)
Definition DEFAULT_JUMP_PARAMS : jsval :=
  JObj [ ("lambda", JNum (Fin 0.1));
         ("muJ", JNum (Fin 0));
         ("sigmaJ", JNum (Fin 0.02));
         ("kind", JStr "merton") ]%string.

(** ** The calibration route *)

Module Calibrate.

Definition CACHE_TTL : Z := 120000.

(** [calculateReturns(candles)]: one log return per consecutive pair. *)
Fixpoint calculateReturns (candles : list BTCCandle) : list num :=
  match candles with
  | [] => []
  | prev :: rest =>
      match rest with
      | [] => []
      | cur :: _ => nlog (close cur / close prev)%num :: calculateReturns rest
      end
  end.

(** [estimateJumpParams(returns, threshold = 3)]. *)
Definition estimateJumpParams (returns : list num) (threshold : num) : jsval :=
  let jumps := detectJumps returns threshold in
  if (List.length jumps =? 0)%nat then DEFAULT_JUMP_PARAMS else
  let lambda := (length_num jumps / length_num returns)%num in
  let logJumps := map (fun j => nlog (nabs j)) jumps in
  let mu_j := (sum_by (fun j => j) logJumps / length_num logJumps)%num in
  let sigma_j :=
    nsqrt (sum_by (fun j => npow2 (j - mu_j)) logJumps
             / (length_num logJumps - #1))%num in
  JObj [ ("lambda", JNum (nmax (Fin 0.01) (nmin (Fin 1) lambda)));
         ("mu_j", JNum (Fin 0));
         ("sigma_j", JNum (nmax (Fin 0.01) (nmin (Fin 0.1) sigma_j)));
         ("kind", JStr "merton") ]%string.

(** [returns.slice(-20)]: the last twenty elements, or all of them. *)
Definition slice_last (k : nat) {A} (l : list A) : list A :=
  skipn (List.length l - k) l.

Definition regime_name (r : Regime) : string :=
  match r with BULL => "BULL" | BEAR => "BEAR" end.

(** [detectRegime(returns)]. *)
Definition detectRegime (returns : list num) : jsval :=
  if (List.length returns <? 10)%nat then
    JObj [ ("current", JStr (regime_name BULL));
           ("probabilities", JArr [JNum (Fin 0.5); JNum (Fin 0.5)]) ]%string
  else
  let recentReturns := slice_last 20 returns in
  let avgReturn :=
    (sum_by (fun r => r) recentReturns / length_num recentReturns)%num in
  let vol := realizedVolatility recentReturns in
  let bullScore :=
    ((if (avgReturn >? #0)%num then Fin 0.6 else Fin 0.4)
     + (if (vol <? #0.02)%num then Fin 0.2 else Fin 0))%num in
  let bearScore := (#1 - bullScore)%num in
  JObj [ ("current",
          JStr (regime_name (if (bullScore >? bearScore)%num then BULL else BEAR)));
         ("probabilities", JArr [JNum bullScore; JNum bearScore]) ]%string.

(** [calibrateHestonParams(dailyRV, weeklyRV, intradayRV)]. *)
Definition calibrateHestonParams (dailyRV weeklyRV intradayRV : num)
  : HestonParams :=
  let theta := (#0.7 * dailyRV * dailyRV + #0.3 * weeklyRV * weeklyRV)%num in
  let kappa :=
    if (nabs (intradayRV - dailyRV) >? #0.01)%num then Fin 3 else Fin 2 in
  let xi := nmin (Fin 0.5) (nabs (intradayRV - dailyRV) / dailyRV)%num in
  let rho := Fin (- 0.5) in
  {| kappa := nmax (Fin 0.5) (nmin (Fin 5) kappa);
     theta := nmax (Fin 0.0001) (nmin (Fin 0.25) theta);
     xi := nmax (Fin 0.1) (nmin (Fin 1) xi);
     rho := nmax (Fin (- 0.9)) (nmin (Fin (- 0.1)) rho) |}.

(** The module-level [calibrationCache]. *)
Record CalibrationCache : Type := {
  data : option jsval;
  timestamp : Z
}.

Definition initial_cache : CalibrationCache := {| data := None; timestamp := 0 |}.

(** What the three [fetchHistoricalCandles] calls under [Promise.all]
    deliver: the minute, hourly and daily candles, or [None] when any of
    them throws. *)
Definition Fetched : Type :=
  option (list BTCCandle * list BTCCandle * list BTCCandle).

(** [parkinsonVolatility(candles)]. *)
Definition parkinsonVolatility (candles : list BTCCandle) : num :=
  match candles with
  | [] => Fin 0
  | _ =>
      let factor := (#1 / (#4 * nlog #2))%num in
      let sum :=
        sum_by (fun candle => npow2 (nlog (high candle / low candle)%num)) candles in
      nsqrt (factor * sum / length_num candles)%num
  end.

Definition date_num (ms : Z) : num := Fin (IZR ms).

(** [calibrationCache.data && Date.now() - calibrationCache.timestamp <
    CACHE_TTL]: the cached data when it is still fresh. *)
Definition fresh (cache : CalibrationCache) (now : Z) : option jsval :=
  match data cache with
  | Some cached =>
      if (now - timestamp cache <? CACHE_TTL)%Z then Some cached else None
  | None => None
  end.

(** [GET(request)].  [now0], [now1] and [now2] are the successive
    readings of [Date.now()]: at the cache check, in the result, and in
    the cache update.  The result is the JSON body with the cache
    afterwards. *)
Definition GET (cache : CalibrationCache) (fetched : Fetched) (now0 now1 now2 : Z)
  : jsval * CalibrationCache :=
  match fresh cache now0 with
  | Some cached => (cached, cache)
  | None =>
      match fetched with
      | Some (minuteCandles, hourlyCandles, dailyCandles) =>
          let minuteReturns := calculateReturns minuteCandles in
          let hourlyReturns := calculateReturns hourlyCandles in
          let dailyReturns := calculateReturns dailyCandles in
          let intradayRV := ewmaVolatility minuteReturns (Fin 0.94) in
          let dailyRV := realizedVolatility hourlyReturns in
          let weeklyRV := realizedVolatility dailyReturns in
          let parkinsonDailyRV := parkinsonVolatility hourlyCandles in
          let blendedDailyRV := (#0.7 * dailyRV + #0.3 * parkinsonDailyRV)%num in
          let hestonParams :=
            calibrateHestonParams blendedDailyRV weeklyRV intradayRV in
          let jumpParams := estimateJumpParams minuteReturns (Fin 3) in
          let regime := detectRegime minuteReturns in
          let calibrationData :=
            JObj [ ("dailyRV", JNum blendedDailyRV);
                   ("weeklyRV", JNum weeklyRV);
                   ("intradayRV", JNum intradayRV);
                   ("jumps", jumpParams);
                   ("regime", regime);
                   ("timestamp", JNum (date_num now1)) ]%string in
          (calibrationData, {| data := Some calibrationData; timestamp := now2 |})
      | None =>
          let defaultData :=
            JObj [ ("dailyRV", JNum (nsqrt (theta DEFAULT_HESTON_PARAMS)));
                   ("weeklyRV", JNum (nsqrt (theta DEFAULT_HESTON_PARAMS)));
                   ("intradayRV", JNum (nsqrt (theta DEFAULT_HESTON_PARAMS)));
                   ("jumps", DEFAULT_JUMP_PARAMS);
                   ("regime",
                    JObj [ ("current", JStr (regime_name BULL));
                           ("probabilities",
                            JArr [JNum (Fin 0.5); JNum (Fin 0.5)]) ]);
                   ("timestamp", JNum (date_num now1)) ]%string in
          (defaultData, cache)
      end
  end.

End Calibrate.

(** ** The simulation result cache *)

Module SimCache.

Record CacheKey : Type := {
  marketTicker : string;
  s0 : num;
  timeToClose : num;
  sensitivity : SensitivityParams
}.

(** A number inside [JSON.stringify]: a non-finite one is written
    [null]. *)
Definition json_number (x : num) : jsval :=
  match x with
  | Fin _ => JNum x
  | _ => JNull
  end.

(** [generateKey(key)].  The string is represented by the JSON document
    it spells, which determines it. *)
Definition generateKey (key : CacheKey) : jsval :=
  JObj [ ("ticker", JStr (marketTicker key));
         ("s0", json_number (Math_round (s0 key)));
         ("t", json_number (Math_round (timeToClose key * #10) / #10)%num);
         ("vol", json_number (volatilityMultiplier (sensitivity key)));
         ("jump", json_number (jumpIntensityMultiplier (sensitivity key)));
         ("size", json_number (jumpSizeMultiplier (sensitivity key))) ]%string.

(** Equality of fingerprints, as the [Map] compares its string keys:
    two strings are equal when they spell the same document. *)
Definition num_same (a b : num) : bool :=
  match a, b with
  | Fin x, Fin y => Reqb x y
  | PInf, PInf | NInf, NInf | NaN, NaN => true
  | _, _ => false
  end.

Fixpoint key_eqb (a b : jsval) {struct a} : bool :=
  match a, b with
  | JNull, JNull => true
  | JNum x, JNum y => num_same x y
  | JStr s, JStr s' => String.eqb s s'
  | JArr l, JArr l' =>
      (fix items (l l' : list jsval) {struct l} : bool :=
         match l, l' with
         | [], [] => true
         | x :: r, y :: r' => key_eqb x y && items r r'
         | _, _ => false
         end) l l'
  | JObj f, JObj f' =>
      (fix fields (f f' : list (string * jsval)) {struct f} : bool :=
         match f, f' with
         | [], [] => true
         | (k, x) :: r, (k', y) :: r' =>
             String.eqb k k' && key_eqb x y && fields r r'
         | _, _ => false
         end) f f'
  | _, _ => false
  end.

Section Cache.

(** The cached [SimResult] is never inspected by the cache. *)
Variable SimResult : Type.

Record CacheEntry : Type := {
  result : SimResult;
  timestamp : Z
}.

(** A JavaScript [Map]: the entries in insertion order, no key twice. *)
Definition JSMap : Type := list (jsval * CacheEntry).

Fixpoint Map_get (k : jsval) (m : JSMap) : option CacheEntry :=
  match m with
  | [] => None
  | (k', e) :: rest => if key_eqb k k' then Some e else Map_get k rest
  end.

Fixpoint Map_delete (k : jsval) (m : JSMap) : JSMap :=
  match m with
  | [] => []
  | (k', e) :: rest =>
      if key_eqb k k' then Map_delete k rest else (k', e) :: Map_delete k rest
  end.

(** [Map.set]: a present key keeps its place, a new one goes last. *)
Fixpoint Map_set (k : jsval) (e : CacheEntry) (m : JSMap) : JSMap :=
  match m with
  | [] => [(k, e)]
  | (k', e') :: rest =>
      if key_eqb k k' then (k', e) :: rest else (k', e') :: Map_set k e rest
  end.

Definition Map_size (m : JSMap) : nat := List.length m.

(** [cache.keys().next().value]. *)
Definition Map_first_key (m : JSMap) : option jsval :=
  match m with
  | [] => None
  | (k, _) :: _ => Some k
  end.

Definition maxAge : Z := 60000.
Definition maxSize : nat := 50.

(** [get(key)] at time [now]: the result and the cache afterwards. *)
Definition get (cache : JSMap) (key : CacheKey) (now : Z)
  : option SimResult * JSMap :=
  let cacheKey := generateKey key in
  match Map_get cacheKey cache with
  | None => (None, cache)
  | Some entry =>
      if (now - timestamp entry >? maxAge)%Z
      then (None, Map_delete cacheKey cache)
      else (Some (result entry), cache)
  end.

(** [set(key, result)] at time [now]. *)
Definition set (cache : JSMap) (key : CacheKey) (r : SimResult) (now : Z) : JSMap :=
  let cacheKey := generateKey key in
  let cache1 :=
    if (maxSize <=? Map_size cache)%nat then
      match Map_first_key cache with
      | Some firstKey => Map_delete firstKey cache
      | None => cache
      end
    else cache in
  Map_set cacheKey {| result := r; timestamp := now |} cache1.

Definition clear (cache : JSMap) : JSMap := [].

Definition stats (cache : JSMap) : nat * num := (Map_size cache, Fin 0).

(** The calls a client can make, each with the clock reading it sees. *)
Inductive Op : Type :=
| OpGet (key : CacheKey) (now : Z)
| OpSet (key : CacheKey) (r : SimResult) (now : Z)
| OpClear
| OpStats.

Definition step (cache : JSMap) (op : Op) : JSMap :=
  match op with
  | OpGet key now => snd (get cache key now)
  | OpSet key r now => set cache key r now
  | OpClear => clear cache
  | OpStats => cache
  end.

Definition run (ops : list Op) (cache : JSMap) : JSMap :=
  fold_left step ops cache.

End Cache.

Arguments result {SimResult} _.
Arguments timestamp {SimResult} _.
Arguments Map_get {SimResult} k m.
Arguments Map_delete {SimResult} k m.
Arguments Map_set {SimResult} k e m.
Arguments Map_size {SimResult} m.
Arguments Map_first_key {SimResult} m.
Arguments get {SimResult} cache key now.
Arguments set {SimResult} cache key r now.
Arguments clear {SimResult} cache.
Arguments stats {SimResult} cache.
Arguments OpGet {SimResult} key now.
Arguments OpSet {SimResult} key r now.
Arguments OpClear {SimResult}.
Arguments OpStats {SimResult}.
Arguments step {SimResult} cache op.
Arguments run {SimResult} ops cache.

End SimCache.

(** ** Preparing the simulation inputs *)

Module UseSimulation.

(** [x || d] on an optional number. *)
Definition or_default (x : option num) (d : num) : num :=
  match x with
  | Some v => if truthy v then v else d
  | None => d
  end.

(** [prepareSimInputs(market, calibration, currentPrice, sensitivity?)].
    Of the market only the closing time is read: [close_time] is
    [new Date(market.close_time).getTime()], and [now] is [Date.now()]. *)
Definition prepareSimInputs (close_time now : num)
    (calibration : CalibrationData.t) (currentPrice : num)
    (sensitivity : option SensitivityParams) : SimInputs :=
  let timeToClose := ((close_time - now) / #1000 / #3600)%num in
  let volMultiplier :=
    or_default (option_map volatilityMultiplier sensitivity) (Fin 1) in
  let jumpIntensityMultiplier :=
    or_default (option_map jumpIntensityMultiplier sensitivity) (Fin 1) in
  let jumpSizeMultiplier :=
    or_default (option_map jumpSizeMultiplier sensitivity) (Fin 1) in
  let theta := npow2 (CalibrationData.dailyRV calibration * volMultiplier)%num in
  let xi := Fin 0.3 in
  {| s0 := currentPrice;
     t := nmax (Fin 0.01) timeToClose;
     dt := (#1 / #60)%num;
     regimes :=
       {| regime_BULL :=
            {| mu := (#0.05 / #365 / #24)%num;
               heston := {| kappa := Fin 2; theta := theta; xi := xi;
                            rho := Fin (- 0.5) |} |};
          regime_BEAR :=
            {| mu := (- #0.05 / #365 / #24)%num;
               heston := {| kappa := Fin 3; theta := (theta * #1.2)%num;
                            xi := (xi * #1.1)%num; rho := Fin (- 0.7) |} |} |};
     hmm := {| p := ((Fin 0.95, Fin 0.05), (Fin 0.10, Fin 0.90));
               pi0 := CalibrationData.probabilities
                        (CalibrationData.regime calibration) |};
     jumps :=
       {| lambda := (CalibrationData.lambda (CalibrationData.jumps calibration)
                     * jumpIntensityMultiplier)%num;
          mu_j := CalibrationData.mu_j (CalibrationData.jumps calibration);
          sigma_j := (CalibrationData.sigma_j (CalibrationData.jumps calibration)
                      * jumpSizeMultiplier)%num;
          kind := merton |} |}.

End UseSimulation.

(** ** Simulation results *)

(** The interface [SimResult]; its fields are read with their qualified
    names.  The target is kept as the JSON value it travels as. *)
Module SimResult.

Record diagnostics_t : Type := {
  stderr : num;
  n : num;
  convergence : option (list num)
}.

Record t : Type := {
  target : jsval;
  p : num;
  ci : num * num;
  fair : num;
  diagnostics : diagnostics_t;
  distribution : option jsval
}.

End SimResult.

(** ** The edge tables of the cards *)

Module Edges.

(** [!x] on an optional number: [undefined], [0] and [NaN] are falsy. *)
Definition missing (x : option num) : bool :=
  match x with
  | Some v => negb (truthy v)
  | None => true
  end.

Record EdgeRow : Type := {
  action : string;
  actionType : Action;
  price : num;
  probability : num;
  expectedValue : num;
  isPositive : bool
}.

(** The rows that [EdgeCalculator] builds from the quotes of the market
    and the result, as they are before [edges.sort]; [None] is the
    placeholder card. *)
Definition EdgeCalculator_edges (yes_bid yes_ask : option num)
    (result : option SimResult.t) : option (list EdgeRow) :=
  match result, yes_bid, yes_ask with
  | Some r, Some bid, Some ask =>
      if missing (Some bid) || missing (Some ask) then None else
      let p := SimResult.p r in
      Some
        [ {| action := "Buy YES"%string; actionType := BUY_YES;
             price := ask; probability := p;
             expectedValue := calculateEV p BUY_YES ask;
             isPositive := (calculateEV p BUY_YES ask >? #0)%num |};
          {| action := "Sell YES"%string; actionType := SELL_YES;
             price := bid; probability := p;
             expectedValue := calculateEV p SELL_YES bid;
             isPositive := (calculateEV p SELL_YES bid >? #0)%num |};
          {| action := "Buy NO"%string; actionType := BUY_NO;
             price := (#100 - bid)%num; probability := (#1 - p)%num;
             expectedValue := calculateEV p BUY_NO (#100 - bid)%num;
             isPositive := (calculateEV p BUY_NO (#100 - bid) >? #0)%num |};
          {| action := "Sell NO"%string; actionType := SELL_NO;
             price := (#100 - ask)%num; probability := (#1 - p)%num;
             expectedValue := calculateEV p SELL_NO (#100 - ask)%num;
             isPositive := (calculateEV p SELL_NO (#100 - ask) >? #0)%num |} ]
  | _, _, _ => None
  end.

(** [array.reduce(f)] without an initial value, on a non-empty array. *)
Definition reduce1 {A} (f : A -> A -> A) (first : A) (rest : list A) : A :=
  fold_left f rest first.

(** [getEdgeRecommendation()] of [ProbabilityCard]: the action with its
    edge, or [None] for [null]. *)
Definition getEdgeRecommendation (yes_bid yes_ask : option num)
    (result : option SimResult.t) : option (Action * num) :=
  match result, yes_bid, yes_ask with
  | Some r, Some bid, Some ask =>
      if missing (Some bid) || missing (Some ask) then None else
      let fair := SimResult.fair r in
      let buyYesEdge := (fair - ask)%num in
      let sellYesEdge := (bid - fair)%num in
      let buyNoEdge := ((#100 - fair) - (#100 - bid))%num in
      let sellNoEdge := ((#100 - ask) - (#100 - fair))%num in
      let bestEdge :=
        reduce1
          (fun best current => if (snd current >? snd best)%num then current else best)
          (BUY_YES, buyYesEdge)
          [ (SELL_YES, sellYesEdge); (BUY_NO, buyNoEdge); (SELL_NO, sellNoEdge) ] in
      if (snd bestEdge <? #2)%num then None else Some bestEdge
  | _, _, _ => None
  end.

End Edges.

(** ** The performance monitor *)

Module Performance.

Record PerformanceMetrics : Type := {
  simulationTime : num;
  pathsPerSecond : num;
  memoryUsed : num;
  cacheHitRate : num
}.

Record PerformanceMonitor : Type := {
  metrics : list PerformanceMetrics;
  startTime : num
}.

Definition initial : PerformanceMonitor := {| metrics := []; startTime := Fin 0 |}.

(** [startTimer()], with [now] the reading of [performance.now()]. *)
Definition startTimer (m : PerformanceMonitor) (now : num) : PerformanceMonitor :=
  {| metrics := metrics m; startTime := now |}.

(** [endTimer(paths)].  [heap] is [performance.memory.usedJSHeapSize],
    [None] where the browser has no [performance.memory]. *)
Definition endTimer (m : PerformanceMonitor) (paths now : num) (heap : option num)
  : PerformanceMetrics * PerformanceMonitor :=
  let duration := (now - startTime m)%num in
  let pathsPerSecond := (paths / duration * #1000)%num in
  let memoryUsed :=
    match heap with
    | Some used => if truthy used then used else Fin 0
    | None => Fin 0
    end in
  let metric :=
    {| simulationTime := duration;
       pathsPerSecond := pathsPerSecond;
       memoryUsed := memoryUsed;
       cacheHitRate := Fin 0 |} in
  let pushed := metrics m ++ [metric] in
  let kept := if (100 <? List.length pushed)%nat then tl pushed else pushed in
  (metric, {| metrics := kept; startTime := startTime m |}).

(** [getAverageMetrics()]. *)
Definition getAverageMetrics (m : PerformanceMonitor) : PerformanceMetrics :=
  match metrics m with
  | [] =>
      {| simulationTime := Fin 0; pathsPerSecond := Fin 0;
         memoryUsed := Fin 0; cacheHitRate := Fin 0 |}
  | first :: rest =>
      let sum :=
        fold_left
          (fun acc x =>
             {| simulationTime := (simulationTime acc + simulationTime x)%num;
                pathsPerSecond := (pathsPerSecond acc + pathsPerSecond x)%num;
                memoryUsed := (memoryUsed acc + memoryUsed x)%num;
                cacheHitRate := (cacheHitRate acc + cacheHitRate x)%num |})
          rest first in
      let count := length_num (metrics m) in
      {| simulationTime := (simulationTime sum / count)%num;
         pathsPerSecond := (pathsPerSecond sum / count)%num;
         memoryUsed := (memoryUsed sum / count)%num;
         cacheHitRate := (cacheHitRate sum / count)%num |}
  end.

Definition clear (m : PerformanceMonitor) : PerformanceMonitor :=
  {| metrics := []; startTime := startTime m |}.

(** The calls a client can make. *)
Inductive Op : Type :=
| OpStart (now : num)
| OpEnd (paths now : num) (heap : option num)
| OpAverage
| OpClear.

Definition step (m : PerformanceMonitor) (op : Op) : PerformanceMonitor :=
  match op with
  | OpStart now => startTimer m now
  | OpEnd paths now heap => snd (endTimer m paths now heap)
  | OpAverage => m
  | OpClear => clear m
  end.

Definition run (ops : list Op) (m : PerformanceMonitor) : PerformanceMonitor :=
  fold_left step ops m.

End Performance.

(** ** The simulation worker *)

Module Worker.

(** What [JSON.parse] reads from one string of [run_batch]. *)
Record BatchResult : Type := {
  p : num;
  ci : jsval;
  fair : num
}.

(** The text after the fixed prefix of an error message is left out. *)
Inductive ErrorKind : Type :=
| NotInitialized
| SimulationFailed.

Record Completed : Type := {
  c_target : jsval;
  c_p : num;
  c_ci : jsval;
  c_fair : num;
  c_stderr : num;
  c_n : num
}.

Inductive Message : Type :=
| Progress (result : BatchResult) (progress : num)
| Complete (result : Completed) (cacheKey : option jsval)
| Error (kind : ErrorKind).

(** What the engine does in one run: [None] when the constructor or
    [run_batch] throws, otherwise the strings it returns, each with what
    [JSON.parse] makes of it ([None] when it throws).  A string that
    parses is taken to hold an object with numbers under [p] and [fair]. *)
Definition EngineRun : Type := option (list (option BatchResult)).

(** The [for] loop over the results: the messages posted, and whether
    the loop ran to its end. *)
Fixpoint post_progress (results : list (option BatchResult)) (i total : nat)
  : list Message * bool :=
  match results with
  | [] => ([], true)
  | None :: _ => ([], false)
  | Some result :: rest =>
      let '(posted, finished) := post_progress rest (S i) total in
      (Progress result (Fin (INR (i + 1)) / Fin (INR total) * #100)%num :: posted,
       finished)
  end.

(** [runSimulation(inputs, target, paths, batchSize, cacheKey)]: the
    messages posted, in order.  The engine is freed and set to [null] on
    every way out. *)
Definition runSimulation (isInitialized : bool) (engine : EngineRun)
    (target : jsval) (paths : num) (cacheKey : option jsval) : list Message :=
  if negb isInitialized then [Error NotInitialized] else
  match engine with
  | None => [Error SimulationFailed]
  | Some results =>
      let '(posted, finished) := post_progress results 0 (List.length results) in
      if negb finished then posted ++ [Error SimulationFailed] else
      match last results None with
      | None => posted ++ [Error SimulationFailed]
      | Some finalResult =>
          posted ++
          [ Complete
              {| c_target := target;
                 c_p := p finalResult;
                 c_ci := ci finalResult;
                 c_fair := fair finalResult;
                 c_stderr := nsqrt (p finalResult * (#1 - p finalResult) / paths)%num;
                 c_n := paths |}
              cacheKey ]
      end
  end.

End Worker.

(** ** Formatting the time to the close *)

Module Format.

(** The decimal text of a whole number, as [String(n)] writes it. *)
Definition decimal (z : Z) : string := NilZero.string_of_int (Z.to_int z).

(** [s.padStart(2, '0')]. *)
Definition padStart2 (s : string) : string :=
  match String.length s with
  | O => "00"%string
  | S O => ("0" ++ s)%string
  | _ => s
  end.

(** [formatTimeRemaining(seconds)] on a whole number of seconds, which
    is what its callers pass ([Math.floor] of a difference of times).
    [Math.floor(seconds / 60)] rounds down and [seconds % 60] takes the
    sign of [seconds]. *)
Definition formatTimeRemaining (seconds : Z) : string :=
  let minutes := (seconds / 60)%Z in
  let secs := Z.rem seconds 60 in
  (decimal minutes ++ ":" ++ padStart2 (decimal secs))%string.

End Format.

(** ** The price history of the live feed *)

Module PriceHistory.

Inductive Source : Type :=
| coinbase
| binance.

(** The interface [BTCPrice]. *)
Record BTCPrice : Type := {
  price : num;
  timestamp : num;
  source : Source
}.

(** The candles that [getCandles] builds; they carry no volume. *)
Record Candle : Type := {
  time : num;
  open : num;
  high : num;
  low : num;
  close : num
}.

(** [Math.floor]. *)
Definition Math_floor (a : num) : num :=
  match a with
  | Fin x => Fin (IZR (Zfloor x))
  | _ => a
  end.

(** [array.slice(-n)] for a count [n]: [-0] is [0], so the whole array
    when [n] is 0. *)
Definition slice_neg {A} (n : nat) (l : list A) : list A :=
  match n with
  | O => l
  | _ => skipn (List.length l - n) l
  end.

(** The state update of [addPrice(price)], for a count [maxLength]. *)
Definition addPrice (maxLength : nat) (prev : list BTCPrice) (p : BTCPrice)
  : list BTCPrice :=
  let newHistory := prev ++ [p] in
  if (maxLength <? List.length newHistory)%nat
  then slice_neg maxLength newHistory
  else newHistory.

(** One turn of the loop of [getCandles]: the candles pushed so far and
    [currentCandle]. *)
Definition candle_step (intervalMs : num) (state : list Candle * option Candle)
    (p : BTCPrice) : list Candle * option Candle :=
  let '(candles, currentCandle) := state in
  let candleTime := (Math_floor (timestamp p / intervalMs) * intervalMs)%num in
  let opened :=
    {| time := candleTime; open := price p; high := price p;
       low := price p; close := price p |} in
  match currentCandle with
  | None => (candles, Some opened)
  | Some c =>
      if negb (time c === candleTime)%num
      then (candles ++ [c], Some opened)
      else (candles,
            Some {| time := time c; open := open c;
                    high := nmax (high c) (price p);
                    low := nmin (low c) (price p);
                    close := price p |})
  end.

(** [getCandles(intervalMinutes)] on the history. *)
Definition getCandles (history : list BTCPrice) (intervalMinutes : num)
  : list Candle :=
  match history with
  | [] => []
  | _ =>
      let intervalMs := (intervalMinutes * #60 * #1000)%num in
      let '(candles, currentCandle) :=
        fold_left (candle_step intervalMs) history ([], None) in
      match currentCandle with
      | Some c => candles ++ [c]
      | None => candles
      end
  end.

End PriceHistory.

(** ** The geometry of the charts *)

Module Charts.

Record PathPoint : Type := {
  t : num;
  price : num
}.

Record PathSample : Type := {
  id : num;
  points : list PathPoint
}.

(** The interface [HistogramBin]; its price is [bin_price] here. *)
Record HistogramBin : Type := {
  bin_price : num;
  probability : num
}.

Record SimulationDistribution : Type := {
  min : num;
  max : num;
  mean : num;
  stddev : num;
  histogram : list HistogramBin;
  samples : list PathSample
}.

Definition HISTOGRAM_HEIGHT : num := Fin 100.
Definition BAR_WIDTH : num := Fin 6.
Definition BAR_GAP : num := Fin 2.
Definition PATH_CHART_HEIGHT : num := Fin 140.
Definition PATH_CHART_WIDTH : num := Fin 260.

(** [Math.max(...values)]: [-Infinity] of no value. *)
Definition Math_max (values : list num) : num := fold_left nmax values NInf.

Definition histogramWidth (distribution : SimulationDistribution) : num :=
  (length_num (histogram distribution) * (BAR_WIDTH + BAR_GAP) + BAR_GAP)%num.

Definition maxProbability (distribution : SimulationDistribution) : num :=
  Math_max (map probability (histogram distribution) ++ [Fin 0.0001]).

Definition samplePaths (distribution : SimulationDistribution) : list PathSample :=
  firstn 15 (samples distribution).

Definition maxTime (distribution : SimulationDistribution) : num :=
  Math_max
    (flat_map (fun path => map t (points path)) (samplePaths distribution)
     ++ [Fin 1]).

(** [distribution.max - distribution.min || 1]. *)
Definition priceRange (distribution : SimulationDistribution) : num :=
  let range := (max distribution - min distribution)%num in
  if truthy range then range else Fin 1.

Definition toY (distribution : SimulationDistribution) (price : num) : num :=
  (PATH_CHART_HEIGHT
   - ((price - min distribution) / priceRange distribution) * PATH_CHART_HEIGHT)%num.

Definition toX (distribution : SimulationDistribution) (t : num) : num :=
  ((t / maxTime distribution) * PATH_CHART_WIDTH)%num.

(** The attributes of one [rect] of the histogram. *)
Record Rect : Type := {
  x : num;
  y : num;
  width : num;
  height : num
}.

Definition bar (distribution : SimulationDistribution) (index : nat)
    (bin : HistogramBin) : Rect :=
  let barHeight :=
    ((probability bin / maxProbability distribution) * HISTOGRAM_HEIGHT)%num in
  let x := (Fin (INR index) * (BAR_WIDTH + BAR_GAP) + BAR_GAP)%num in
  {| x := x; y := (HISTOGRAM_HEIGHT - barHeight)%num;
     width := BAR_WIDTH; height := barHeight |}.

(** [distribution.histogram.map((bin, index) => ...)]. *)
Definition bars (distribution : SimulationDistribution) : list Rect :=
  map (fun '(index, bin) => bar distribution index bin)
    (combine (seq 0 (List.length (histogram distribution)))
       (histogram distribution)).

(** The points of the drawn paths, path by path: the coordinates that
    the [d] attribute joins. *)
Definition paths (distribution : SimulationDistribution) : list (list (num * num)) :=
  map (fun path =>
         map (fun point => (toX distribution (t point), toY distribution (price point)))
           (points path))
    (samplePaths distribution).

End Charts.

(** ** The arithmetic of the program: binary64 *)

(** The functions whose results depend on rounding, once more, over the
    binary64 numbers of the kernel: every operation rounds to nearest,
    ties to even, as a JavaScript engine does.  [Math.pow(x, 2)] is
    taken to be the rounded product [x * x]. *)
Module Binary64.

Local Open Scope float_scope.

(** A count ([array.length], or a number of paths) as a number. *)
Definition of_nat (k : nat) : float :=
  PrimFloat.of_uint63 (Uint63.of_Z (Z.of_nat k)).

(** [Math.max] and [Math.min] of two arguments: [NaN] if either is, and
    [+0] above [-0]. *)
Definition Math_max (a b : float) : float :=
  if PrimFloat.is_nan a || PrimFloat.is_nan b then nan
  else if a <? b then b
  else if b <? a then a
  else if a =? 0 then a + b
  else a.

Definition Math_min (a b : float) : float :=
  if PrimFloat.is_nan a || PrimFloat.is_nan b then nan
  else if a <? b then a
  else if b <? a then b
  else if a =? 0 then - (- a + - b)
  else a.

(** [wilsonCI(successes, n, confidence = 0.95)]. *)
Definition wilsonCI (successes n confidence : float) : float * float :=
  if n =? 0 then (0, 1) else
  let p := successes / n in
  let z := if confidence =? 0.95 then 1.96 else 2.576 in
  let zsq := z * z in
  let denominator := 1 + zsq / n in
  let center := (p + zsq / (2 * n)) / denominator in
  let margin :=
    (z * PrimFloat.sqrt (p * (1 - p) / n + zsq / (4 * n * n))) / denominator in
  (Math_max 0 (center - margin), Math_min 1 (center + margin)).

(** [realizedVolatility(returns)]. *)
Definition realizedVolatility (returns : list float) : float :=
  if (List.length returns <? 2)%nat then 0 else
  let mean :=
    fold_left (fun sum r => sum + r) returns 0 / of_nat (List.length returns) in
  let variance :=
    fold_left (fun sum r => sum + (r - mean) * (r - mean)) returns 0
    / (of_nat (List.length returns) - 1) in
  PrimFloat.sqrt variance.

(** [ewmaVolatility(returns, lambda = 0.94)]. *)
Fixpoint ewma_loop (lambda : float) (returns : list float) (i : nat)
    (variance : float) : float :=
  match returns with
  | [] => variance
  | r :: rest =>
      ewma_loop lambda rest (S i)
        (match i with
         | O => r * r
         | S _ => lambda * variance + (1 - lambda) * r * r
         end)
  end.

Definition ewmaVolatility (returns : list float) (lambda : float) : float :=
  match returns with
  | [] => 0
  | _ => PrimFloat.sqrt (ewma_loop lambda returns 0 0)
  end.

(** [detectJumps(returns, threshold = 3)]. *)
Definition detectJumps (returns : list float) (threshold : float) : list float :=
  let vol := realizedVolatility returns in
  let mean :=
    fold_left (fun sum r => sum + r) returns 0 / of_nat (List.length returns) in
  filter (fun r => threshold * vol <? PrimFloat.abs (r - mean)) returns.

(** What [detectRegime] returns. *)
Record RegimeResult : Type := {
  current : Regime;
  probabilities : float * float
}.

(** [detectRegime(returns)] of the calibration route. *)
Definition detectRegime (returns : list float) : RegimeResult :=
  if (List.length returns <? 10)%nat then
    {| current := BULL; probabilities := (0.5, 0.5) |}
  else
  let recentReturns := Calibrate.slice_last 20 returns in
  let avgReturn :=
    fold_left (fun sum r => sum + r) recentReturns 0
    / of_nat (List.length recentReturns) in
  let vol := realizedVolatility recentReturns in
  let bullScore :=
    (if 0 <? avgReturn then 0.6 else 0.4) + (if vol <? 0.02 then 0.2 else 0) in
  let bearScore := 1 - bullScore in
  {| current := if bearScore <? bullScore then BULL else BEAR;
     probabilities := (bullScore, bearScore) |}.

End Binary64.

(** Induction on a JSON document and, with it, on the documents inside. *)
Section jsval_induction.

Variable P : jsval -> Prop.
Hypothesis HNull : P JNull.
Hypothesis HNum : forall x, P (JNum x).
Hypothesis HStr : forall s, P (JStr s).
Hypothesis HArr : forall items, Forall P items -> P (JArr items).
Hypothesis HObj :
  forall fields, Forall (fun kv => P (snd kv)) fields -> P (JObj fields).

Fixpoint jsval_nested_ind (v : jsval) : P v :=
  match v with
  | JNull => HNull
  | JNum x => HNum x
  | JStr s => HStr s
  | JArr items =>
      HArr items
        ((fix all (l : list jsval) : Forall P l :=
            match l with
            | [] => Forall_nil P
            | x :: r => Forall_cons x (jsval_nested_ind x) (all r)
            end) items)
  | JObj fields =>
      HObj fields
        ((fix all (l : list (string * jsval)) : Forall (fun kv => P (snd kv)) l :=
            match l with
            | [] => Forall_nil _
            | (k, x) :: r =>
                Forall_cons (P := fun kv => P (snd kv)) (k, x)
                  (jsval_nested_ind x) (all r)
            end) fields)
  end.

End jsval_induction.

(** * The specification's side

    The quantities the specification names, over the reals, and the
    sample inputs used below. *)

(** The interval of the specification, over the reals. *)
Definition wilson_center (z phat n : R) : R :=
  (phat + z ^ 2 / (2 * n)) / (1 + z ^ 2 / n).

Definition wilson_margin (z phat n : R) : R :=
  (z * sqrt (phat * (1 - phat) / n + z ^ 2 / (4 * n ^ 2))) / (1 + z ^ 2 / n).

Definition wilson_interval (z h n : R) : R * R :=
  let phat := h / n in
  (Rmax 0 (wilson_center z phat n - wilson_margin z phat n),
   Rmin 1 (wilson_center z phat n + wilson_margin z phat n)).

Definition interval_num (i : R * R) : num * num := (Fin (fst i), Fin (snd i)).

Definition clampR (lo hi x : R) : R := Rmax lo (Rmin hi x).

Definition sum_R (f : R -> R) (l : list R) : R :=
  fold_left (fun sum x => sum + f x) l 0.

Definition mean_R (l : list R) : R := sum_R (fun r => r) l / INR (List.length l).

(** The sample standard deviation, [0] below two elements. *)
Definition stddev_R (l : list R) : R :=
  if (List.length l <? 2)%nat then 0
  else sqrt (sum_R (fun r => (r - mean_R l) * (r - mean_R l)) l
             / (INR (List.length l) - 1)).

(** The scores of the specification, from the mean and the realized
    volatility of the recent returns. *)
Definition bull_score (m sigma : R) : R :=
  (if Rltb 0 m then 0.6 else 0.4) + (if Rltb sigma 0.02 then 0.2 else 0).

Definition bear_score (m sigma : R) : R := 1 - bull_score m sigma.

Definition regime_object (current : Regime) (bull bear : R) : jsval :=
  JObj [ ("current", JStr (Calibrate.regime_name current));
         ("probabilities", JArr [JNum (Fin bull); JNum (Fin bear)]) ]%string.

(** The regime with the larger of two scores; [None] on a tie. *)
Definition argmax_regime (bull bear : R) : option Regime :=
  if Rltb bear bull then Some BULL
  else if Rltb bull bear then Some BEAR
  else None.

(** Sixteen minute returns: fifteen of 0 and one of 1.6%. *)
Definition one_outlier : list R := repeat 0 15 ++ [0.016].

(** The bundle returned when a fetch throws. *)
Definition default_bundle (now : Z) : jsval :=
  JObj [ ("dailyRV", JNum (Fin 0.2));
         ("weeklyRV", JNum (Fin 0.2));
         ("intradayRV", JNum (Fin 0.2));
         ("jumps", DEFAULT_JUMP_PARAMS);
         ("regime", regime_object BULL 0.5 0.5);
         ("timestamp", JNum (Calibrate.date_num now)) ]%string.

(** Rounding to the nearest integer, halves upwards. *)
Definition round_R (x : R) : Z := Zfloor (x + / 2).

Definition with_spot (k : SimCache.CacheKey) (x : R) : SimCache.CacheKey :=
  {| SimCache.marketTicker := SimCache.marketTicker k;
     SimCache.s0 := Fin x;
     SimCache.timeToClose := SimCache.timeToClose k;
     SimCache.sensitivity := SimCache.sensitivity k |}.


(** A calibration bundle and an override of the three multipliers. *)
Definition sample_calibration : CalibrationData.t :=
  {| CalibrationData.dailyRV := Fin 0.2;
     CalibrationData.weeklyRV := Fin 0.2;
     CalibrationData.intradayRV := Fin 0.2;
     CalibrationData.jumps :=
       {| CalibrationData.lambda := Fin 0.1;
          CalibrationData.mu_j := Fin 0;
          CalibrationData.sigma_j := Fin 0.02 |};
     CalibrationData.regime :=
       {| CalibrationData.current := BULL;
          CalibrationData.probabilities := (Fin 0.5, Fin 0.5) |};
     CalibrationData.timestamp := Fin 0 |}.

Definition sample_sensitivity : SensitivityParams :=
  {| volatilityMultiplier := Fin 1.1;
     jumpIntensityMultiplier := Fin 0.9;
     jumpSizeMultiplier := Fin 1 |}.

(** A key at a whole-dollar spot, one hour from the close. *)
Definition whole_dollar_key : SimCache.CacheKey :=
  {| SimCache.marketTicker := "KXBTCD";
     SimCache.s0 := Fin 60000;
     SimCache.timeToClose := Fin 1;
     SimCache.sensitivity :=
       {| volatilityMultiplier := Fin 1;
          jumpIntensityMultiplier := Fin 1;
          jumpSizeMultiplier := Fin 1 |} |}.

(** A store, a read after the entry has expired, a [stats] and a
    [clear]. *)
Definition sample_ops : list (SimCache.Op nat) :=
  [ SimCache.OpSet whole_dollar_key 7%nat 0%Z;
    SimCache.OpGet whole_dollar_key 60001%Z;
    SimCache.OpStats;
    SimCache.OpClear ].

(** A key thirty cents above a whole dollar. *)
Definition off_centre_key : SimCache.CacheKey :=
  {| SimCache.marketTicker := "KXBTCD";
     SimCache.s0 := Fin 100.3;
     SimCache.timeToClose := Fin 1;
     SimCache.sensitivity :=
       {| volatilityMultiplier := Fin 1;
          jumpIntensityMultiplier := Fin 1;
          jumpSizeMultiplier := Fin 1 |} |}.

(** The keys of a [Map], oldest first; a [Map] holds no key twice. *)
Definition keys {SimResult : Type} (m : SimCache.JSMap SimResult) : list jsval :=
  map fst m.

Definition well_formed {SimResult : Type} (m : SimCache.JSMap SimResult) : Prop :=
  NoDup (keys m).

(** The room that [set] makes before it inserts. *)
Definition evicted {SimResult : Type} (m : SimCache.JSMap SimResult)
  : SimCache.JSMap SimResult :=
  if (SimCache.maxSize <=? SimCache.Map_size m)%nat then
    match SimCache.Map_first_key m with
    | Some firstKey => SimCache.Map_delete firstKey m
    | None => m
    end
  else m.

(** A result with probability 0.6 and fair value 60 cents. *)
Definition sample_result : SimResult.t :=
  {| SimResult.target := JObj [("kind", JStr "above"); ("K", JNum (Fin 60000))]%string;
     SimResult.p := Fin 0.6;
     SimResult.ci := (Fin 0.59, Fin 0.61);
     SimResult.fair := Fin 60;
     SimResult.diagnostics :=
       {| SimResult.stderr := Fin 0.005;
          SimResult.n := Fin 10000;
          SimResult.convergence := None |};
     SimResult.distribution := None |}.

(** The returns more than [t] standard deviations from the mean. *)
Definition flagged_returns (t : R) (l : list R) : list R :=
  filter (fun r => Rltb (t * stddev_R l) (Rabs (r - mean_R l))) l.

(** Thirty-three minute returns: thirty-one of 0, one of 2% and one of
    -2%. *)
Definition two_outliers : list R := repeat 0 31 ++ [0.02; - 0.02].

(** The log returns of a series of closes. *)
Fixpoint log_returns (closes : list R) : list R :=
  match closes with
  | [] => []
  | prev :: rest =>
      match rest with
      | [] => []
      | cur :: _ => ln (cur / prev) :: log_returns rest
      end
  end.

(** A candle with every price multiplied by [k]. *)
Definition scale_candle (k : R) (c : BTCCandle) : BTCCandle :=
  {| time := time c;
     open := (Fin k * open c)%num;
     high := (Fin k * high c)%num;
     low := (Fin k * low c)%num;
     close := (Fin k * close c)%num;
     volume := volume c |}.

Definition flat_candle (t price : R) : BTCCandle :=
  {| time := Fin t; open := Fin price; high := Fin price; low := Fin price;
     close := Fin price; volume := Fin 1 |}.

(** Three minute candles. *)
Definition sample_candles : list BTCCandle :=
  [ flat_candle 0 60000; flat_candle 60000 60300; flat_candle 120000 60150 ].

(** The bundle of a calibration without returns. *)
Definition zero_bundle (now : Z) : jsval :=
  JObj [ ("dailyRV", JNum (Fin 0));
         ("weeklyRV", JNum (Fin 0));
         ("intradayRV", JNum (Fin 0));
         ("jumps", DEFAULT_JUMP_PARAMS);
         ("regime", regime_object BULL 0.5 0.5);
         ("timestamp", JNum (Calibrate.date_num now)) ]%string.

(** Keys that differ in the ticker, one per character code, and a cache
    filled with them. *)
Definition ticker_key (i : nat) : SimCache.CacheKey :=
  {| SimCache.marketTicker := String (Ascii.ascii_of_nat i) EmptyString;
     SimCache.s0 := Fin 60000;
     SimCache.timeToClose := Fin 1;
     SimCache.sensitivity :=
       {| volatilityMultiplier := Fin 1;
          jumpIntensityMultiplier := Fin 1;
          jumpSizeMultiplier := Fin 1 |} |}.

Definition ticker_entry (i : nat) : jsval * SimCache.CacheEntry nat :=
  (SimCache.generateKey (ticker_key i),
   {| SimCache.result := 0%nat; SimCache.timestamp := 0%Z |}).

Definition ticker_entries (start len : nat) : SimCache.JSMap nat :=
  map ticker_entry (seq start len).

(** What every call keeps of the monitor: a bounded history, without a
    hit rate. *)
Definition monitor_invariant (m : Performance.PerformanceMonitor) : Prop :=
  (List.length (Performance.metrics m) <= 100)%nat
  /\ Forall (fun x => Performance.cacheHitRate x = Fin 0) (Performance.metrics m).

(** The progress messages among the messages of the worker. *)
Definition is_progress (m : Worker.Message) : Prop :=
  match m with
  | Worker.Progress _ _ => True
  | _ => False
  end.

(** One progress message per result, counted from [i] + 1 out of
    [total]. *)
Fixpoint progress_messages (results : list Worker.BatchResult) (i total : nat)
  : list Worker.Message :=
  match results with
  | [] => []
  | r :: rest =>
      Worker.Progress r (Fin (INR (i + 1)) / Fin (INR total) * #100)%num
      :: progress_messages rest (S i) total
  end.

(** A candle stands for a run of consecutive prices: it opens at the
    first, closes at the last, and its high and low are the largest and
    the smallest of them. *)
Definition summarises (c : PriceHistory.Candle) (run : list R) : Prop :=
  match run with
  | [] => False
  | first :: rest =>
      PriceHistory.open c = Fin first
      /\ PriceHistory.close c = Fin (last rest first)
      /\ PriceHistory.high c = Fin (fold_left Rmax rest first)
      /\ PriceHistory.low c = Fin (fold_left Rmin rest first)
  end.

(** The state of the loop of [getCandles] after the prices [done]. *)
Definition covers (state : list PriceHistory.Candle * option PriceHistory.Candle)
    (done : list R) : Prop :=
  exists runs,
    Forall2 summarises (fst state) runs
    /\ match snd state with
       | None => runs = [] /\ done = []
       | Some c => exists run, summarises c run /\ List.concat runs ++ run = done
       end.

Definition tick (p t : R) : PriceHistory.BTCPrice :=
  {| PriceHistory.price := Fin p; PriceHistory.timestamp := Fin t;
     PriceHistory.source := PriceHistory.coinbase |}.

Definition sample_history : list PriceHistory.BTCPrice :=
  [tick 100 1000; tick 102 2000; tick 99 61000].

(** A point or a rectangle inside a view box of width [W] and height
    [H]. *)
Definition point_inside (W H : R) (pt : num * num) : Prop :=
  exists x y : R, pt = (Fin x, Fin y) /\ 0 <= x <= W /\ 0 <= y <= H.

Definition rect_inside (W H : R) (r : Charts.Rect) : Prop :=
  exists x y w h : R,
    Charts.x r = Fin x /\ Charts.y r = Fin y
    /\ Charts.width r = Fin w /\ Charts.height r = Fin h
    /\ 0 <= x /\ 0 <= w /\ x + w <= W
    /\ 0 <= y /\ 0 <= h /\ y + h <= H.

Definition point_in_range (lo hi : R) (point : Charts.PathPoint) : Prop :=
  exists t price : R,
    Charts.t point = Fin t /\ Charts.price point = Fin price
    /\ 0 <= t /\ lo <= price <= hi.

Definition sample_distribution : Charts.SimulationDistribution :=
  {| Charts.min := Fin 90; Charts.max := Fin 110;
     Charts.mean := Fin 100; Charts.stddev := Fin 5;
     Charts.histogram :=
       [ {| Charts.bin_price := Fin 95; Charts.probability := Fin 0.25 |};
         {| Charts.bin_price := Fin 105; Charts.probability := Fin 0.75 |} ];
     Charts.samples :=
       [ {| Charts.id := Fin 0;
            Charts.points :=
              [ {| Charts.t := Fin 0; Charts.price := Fin 100 |};
                {| Charts.t := Fin 0.5; Charts.price := Fin 104 |} ] |} ] |}.

(** A number that is neither infinite nor [NaN]. *)
Definition finite (v : num) : Prop := exists r : R, v = Fin r.







(** Ten returns of which two are 1/16 and -1/16 and eight are 2^-58:
    as real numbers, and as binary64 numbers. *)
Definition absorbed_returns : list R :=
  [- (1 / 16)] ++ repeat (1 / 2 ^ 58) 8 ++ [1 / 16].

Definition absorbed_returns_b64 : list float :=
  ([- 0x1p-4] ++ repeat 0x1p-58 8 ++ [0x1p-4])%float.

(** * Properties *)

(** ** Arithmetic of finite numbers *)

Lemma Rltb_true x y : x < y -> Rltb x y = true.
Proof. intros H; unfold Rltb; destruct (Rlt_dec x y); [reflexivity | contradiction]. Qed.

Lemma Rltb_false x y : y <= x -> Rltb x y = false.
Proof. intros H; unfold Rltb; destruct (Rlt_dec x y); [lra | reflexivity]. Qed.

Lemma Reqb_true x y : x = y -> Reqb x y = true.
Proof.
  intros H; unfold Reqb; destruct (Req_dec_T x y); [reflexivity | contradiction].
Qed.

Lemma Reqb_false x y : x <> y -> Reqb x y = false.
Proof.
  intros H; unfold Reqb; destruct (Req_dec_T x y); [contradiction | reflexivity].
Qed.

Lemma Reqb_eq x y : Reqb x y = true <-> x = y.
Proof.
  unfold Reqb; destruct (Req_dec_T x y); split; intros; try easy.
Qed.

Lemma nadd_Fin x y : (Fin x + Fin y)%num = Fin (x + y).
Proof. reflexivity. Qed.

Lemma nsub_Fin x y : (Fin x - Fin y)%num = Fin (x - y).
Proof. reflexivity. Qed.

Lemma nmul_Fin x y : (Fin x * Fin y)%num = Fin (x * y).
Proof. reflexivity. Qed.

Lemma nneg_Fin x : (- Fin x)%num = Fin (- x).
Proof. reflexivity. Qed.

Lemma nabs_Fin x : nabs (Fin x) = Fin (Rabs x).
Proof. reflexivity. Qed.

Lemma npow2_Fin x : npow2 (Fin x) = Fin (x * x).
Proof. reflexivity. Qed.

Lemma ndiv_Fin x y : y <> 0 -> (Fin x / Fin y)%num = Fin (x / y).
Proof. intros H; simpl; now rewrite (Reqb_false y 0 H). Qed.

Lemma nsqrt_Fin x : 0 <= x -> nsqrt (Fin x) = Fin (sqrt x).
Proof. intros H; simpl; now rewrite (Rltb_false x 0 H). Qed.

Lemma nmax_Fin x y : nmax (Fin x) (Fin y) = Fin (Rmax x y).
Proof.
  simpl; unfold Rltb, Rmax.
  destruct (Rlt_dec x y), (Rle_dec x y); try reflexivity; try lra; f_equal; lra.
Qed.

Lemma nmin_Fin x y : nmin (Fin x) (Fin y) = Fin (Rmin x y).
Proof.
  simpl; unfold Rltb, Rmin.
  destruct (Rlt_dec y x), (Rle_dec x y); try reflexivity; try lra; f_equal; lra.
Qed.

Lemma nlt_Fin_true x y : x < y -> (Fin x <? Fin y)%num = true.
Proof. apply Rltb_true. Qed.

Lemma nlt_Fin_false x y : y <= x -> (Fin x <? Fin y)%num = false.
Proof. apply Rltb_false. Qed.

(** Evaluation of an arithmetic expression on finite numbers; the side
    conditions (a divisor is not zero) are left to [tac]. *)
Ltac fin_arith tac :=
  repeat first
    [ rewrite nadd_Fin | rewrite nsub_Fin | rewrite nmul_Fin | rewrite nneg_Fin
    | rewrite nabs_Fin | rewrite npow2_Fin | rewrite nmax_Fin | rewrite nmin_Fin
    | rewrite ndiv_Fin by tac ].

(** Case analysis on every [Rmax] and [Rmin] of the goal, innermost
    first, then linear arithmetic. *)
Ltac minmax :=
  unfold Rmax, Rmin;
  repeat match goal with
    | |- context [Rle_dec ?a ?b] =>
        lazymatch a with
        | context [Rle_dec] => fail
        | _ => lazymatch b with
               | context [Rle_dec] => fail
               | _ => destruct (Rle_dec a b)
               end
        end
    end;
  try lra.

(** ** The Wilson interval *)

Lemma wilson_radicand_nonneg z h n :
  0 <= h <= n -> 0 < n ->
  0 <= h / n * (1 - h / n) / n + z * z / (4 * n * n).
Proof.
  intros Hh Hn.
  assert (Hp : 0 <= h / n <= 1).
  { split.
    - apply Rmult_le_pos; [lra | left; now apply Rinv_0_lt_compat].
    - apply (Rmult_le_reg_r n); [lra |]. field_simplify; lra. }
  apply Rplus_le_le_0_compat.
  - apply Rmult_le_pos; [| left; now apply Rinv_0_lt_compat]. nra.
  - apply Rmult_le_pos; [nra | left; apply Rinv_0_lt_compat; nra].
Qed.

(** The code computes the interval of the specification, for either [z]. *)
Lemma wilsonCI_real (h n c : R) :
  0 <= h <= n -> 0 < n ->
  wilsonCI (Fin h) (Fin n) (Fin c) =
  interval_num (wilson_interval (if Reqb c 0.95 then 1.96 else 2.576) h n).
Proof.
  intros Hh Hn.
  unfold wilsonCI.
  simpl nseq. rewrite (Reqb_false n 0) by lra.
  set (z := if Reqb c 0.95 then 1.96 else 2.576).
  replace (if Reqb c 0.95 then Fin 1.96 else Fin 2.576) with (Fin z)
    by (unfold z; now destruct (Reqb c 0.95)).
  assert (Hz : 0 < z) by (unfold z; destruct (Reqb c 0.95); lra).
  assert (Hd : 1 + z * z / n <> 0).
  { assert (0 < z * z / n) by (apply Rdiv_lt_0_compat; nra). lra. }
  cbv zeta.
  fin_arith ltac:(try assumption; nra).
  rewrite nsqrt_Fin by (apply wilson_radicand_nonneg; assumption).
  fin_arith ltac:(try assumption; nra).
  unfold interval_num, wilson_interval, wilson_center, wilson_margin; cbn [fst snd].
  replace (z ^ 2) with (z * z) by ring.
  replace (4 * n ^ 2) with (4 * n * n) by ring.
  reflexivity.
Qed.

Lemma count_bounds (h n : nat) :
  (h <= n)%nat -> (1 <= n)%nat -> 0 <= INR h <= INR n /\ 0 < INR n.
Proof.
  intros Hh Hn. repeat split.
  - apply pos_INR.
  - now apply le_INR.
  - apply lt_0_INR; lia.
Qed.

(** C1: for counts 0 <= h <= n with n >= 1, [wilsonCI(h, n, 0.95)] is the
    Wilson score interval with z = 1.96 clipped to [0, 1], with
    confidence 0.99 it is the same interval with z = 2.576, and with
    n = 0 the result is [0, 1]. *)
Theorem wilsonCI_formula (h n : nat) :
  (h <= n)%nat -> (1 <= n)%nat ->
  wilsonCI (Fin (INR h)) (Fin (INR n)) (Fin 0.95)
    = interval_num (wilson_interval 1.96 (INR h) (INR n))
  /\ wilsonCI (Fin (INR h)) (Fin (INR n)) (Fin 0.99)
    = interval_num (wilson_interval 2.576 (INR h) (INR n))
  /\ (forall successes confidence,
        wilsonCI successes (Fin 0) confidence = (Fin 0, Fin 1)).
Proof.
  intros Hh Hn.
  destruct (count_bounds h n Hh Hn) as [Hb Hpos].
  split; [| split].
  - rewrite wilsonCI_real by assumption.
    now rewrite Reqb_true by reflexivity.
  - rewrite wilsonCI_real by assumption.
    now rewrite Reqb_false by lra.
  - intros successes confidence. unfold wilsonCI.
    simpl nseq. now rewrite Reqb_true by reflexivity.
Qed.

Lemma wilsonCI_formula_witness :
  wilsonCI (Fin (INR 3)) (Fin (INR 10)) (Fin 0.95)
    = interval_num (wilson_interval 1.96 (INR 3) (INR 10))
  /\ wilsonCI (Fin (INR 3)) (Fin (INR 10)) (Fin 0.99)
    = interval_num (wilson_interval 2.576 (INR 3) (INR 10))
  /\ (forall successes confidence,
        wilsonCI successes (Fin 0) confidence = (Fin 0, Fin 1)).
Proof. apply (wilsonCI_formula 3 10); lia. Defined.








(** ** Expected value *)

Lemma nneg_nsub (a b : num) : (- (a - b))%num = (b - a)%num.
Proof.
  destruct a, b; unfold nsub; cbn [nneg nadd]; try reflexivity.
  f_equal; ring.
Qed.

(** C10: buying NO is the opposite side of selling YES, and selling NO
    the opposite side of buying YES: the expected values are opposite,
    for every probability and price. *)
Theorem calculateEV_duality (probability price : num) :
  calculateEV probability BUY_NO price
    = (- calculateEV probability SELL_YES price)%num
  /\ calculateEV probability SELL_NO price
    = (- calculateEV probability BUY_YES price)%num.
Proof.
  unfold calculateEV; split; now rewrite nneg_nsub.
Qed.

(** ** Heston calibration *)





(** ** Sensitivity overrides *)

Lemma or_default_multiplier (m : R) :
  0.9 <= m <= 1.1 -> UseSimulation.or_default (Some (Fin m)) (Fin 1) = Fin m.
Proof.
  intros Hm. unfold UseSimulation.or_default, truthy.
  now rewrite Reqb_false by lra.
Qed.

(** C9: for every calibration bundle and every override of three
    multipliers in [0.9, 1.1], the inputs are built with theta =
    (dailyRV * vol_mult)^2 (the BEAR regime takes 1.2 times that),
    jumps.lambda = lambda * jump_intensity_mult and jumps.sigma_j =
    sigma_j * jump_size_mult. *)
Theorem prepareSimInputs_sensitivity
    (close_time now currentPrice : num) (calibration : CalibrationData.t)
    (vol_mult jump_intensity_mult jump_size_mult : R) :
  0.9 <= vol_mult <= 1.1 ->
  0.9 <= jump_intensity_mult <= 1.1 ->
  0.9 <= jump_size_mult <= 1.1 ->
  let inputs :=
    UseSimulation.prepareSimInputs close_time now calibration currentPrice
      (Some {| volatilityMultiplier := Fin vol_mult;
               jumpIntensityMultiplier := Fin jump_intensity_mult;
               jumpSizeMultiplier := Fin jump_size_mult |}) in
  let theta0 := npow2 (CalibrationData.dailyRV calibration * Fin vol_mult)%num in
  theta (heston (regime_BULL (regimes inputs))) = theta0
  /\ theta (heston (regime_BEAR (regimes inputs))) = (theta0 * #1.2)%num
  /\ lambda (jumps inputs)
     = (CalibrationData.lambda (CalibrationData.jumps calibration)
        * Fin jump_intensity_mult)%num
  /\ sigma_j (jumps inputs)
     = (CalibrationData.sigma_j (CalibrationData.jumps calibration)
        * Fin jump_size_mult)%num.
Proof.
  intros Hv Hi Hs inputs theta0.
  unfold inputs, theta0, UseSimulation.prepareSimInputs.
  cbn [regimes regime_BULL regime_BEAR heston theta jumps lambda sigma_j
       option_map volatilityMultiplier jumpIntensityMultiplier jumpSizeMultiplier].
  rewrite !or_default_multiplier by assumption.
  repeat split.
Qed.

Lemma prepareSimInputs_sensitivity_witness :
  theta (heston (regime_BULL (regimes
      (UseSimulation.prepareSimInputs (Fin 3600000) (Fin 0) sample_calibration
         (Fin 60000) (Some sample_sensitivity)))))
  = npow2 (Fin 0.2 * Fin 1.1)%num
  /\ theta (heston (regime_BEAR (regimes
      (UseSimulation.prepareSimInputs (Fin 3600000) (Fin 0) sample_calibration
         (Fin 60000) (Some sample_sensitivity)))))
  = (npow2 (Fin 0.2 * Fin 1.1) * #1.2)%num
  /\ lambda (jumps
      (UseSimulation.prepareSimInputs (Fin 3600000) (Fin 0) sample_calibration
         (Fin 60000) (Some sample_sensitivity)))
  = (Fin 0.1 * Fin 0.9)%num
  /\ sigma_j (jumps
      (UseSimulation.prepareSimInputs (Fin 3600000) (Fin 0) sample_calibration
         (Fin 60000) (Some sample_sensitivity)))
  = (Fin 0.02 * Fin 1)%num.
Proof.
  apply (prepareSimInputs_sensitivity (Fin 3600000) (Fin 0) (Fin 60000)
           sample_calibration 1.1 0.9 1); lra.
Defined.

(** ** Sums, means and deviations of finite series *)

Lemma fold_sum_Fin (f : num -> num) (g : R -> R) (l : list R) (acc : R) :
  (forall x, f (Fin x) = Fin (g x)) ->
  fold_left (fun sum x => (sum + f x)%num) (map Fin l) (Fin acc)
  = Fin (fold_left (fun sum x => sum + g x) l acc).
Proof.
  intros Hf. revert acc.
  induction l as [| x l IH]; intros acc; cbn [map fold_left].
  - reflexivity.
  - rewrite Hf, nadd_Fin. apply IH.
Qed.

Lemma sum_by_Fin (f : num -> num) (g : R -> R) (l : list R) :
  (forall x, f (Fin x) = Fin (g x)) ->
  sum_by f (map Fin l) = Fin (sum_R g l).
Proof. intros Hf. unfold sum_by, sum_R. now apply fold_sum_Fin. Qed.

Lemma fold_sum_nonneg (g : R -> R) (l : list R) (acc : R) :
  (forall x, 0 <= g x) -> 0 <= acc ->
  0 <= fold_left (fun sum x => sum + g x) l acc.
Proof.
  intros Hg. revert acc.
  induction l as [| x l IH]; intros acc Hacc; cbn [fold_left].
  - assumption.
  - apply IH. specialize (Hg x). lra.
Qed.

Lemma sum_R_nonneg (g : R -> R) (l : list R) :
  (forall x, 0 <= g x) -> 0 <= sum_R g l.
Proof. intros Hg. apply fold_sum_nonneg; [assumption | lra]. Qed.

Lemma length_num_Fin (l : list R) :
  length_num (map Fin l) = Fin (INR (List.length l)).
Proof. unfold length_num. now rewrite length_map. Qed.

Lemma mean_Fin (l : list R) :
  l <> [] ->
  (sum_by (fun r => r) (map Fin l) / length_num (map Fin l))%num = Fin (mean_R l).
Proof.
  intros Hl.
  rewrite (sum_by_Fin (fun r => r) (fun r => r)) by reflexivity.
  rewrite length_num_Fin, ndiv_Fin; [reflexivity |].
  apply not_0_INR. destruct l; [contradiction | discriminate].
Qed.

(** On finite returns [realizedVolatility] is the sample standard
    deviation. *)
Lemma realizedVolatility_Fin (l : list R) :
  realizedVolatility (map Fin l) = Fin (stddev_R l).
Proof.
  unfold realizedVolatility, stddev_R. rewrite length_map.
  destruct (List.length l <? 2)%nat eqn:Hlen; [reflexivity |].
  apply Nat.ltb_ge in Hlen.
  assert (Hn : 2 <= INR (List.length l)) by (apply (le_INR 2); assumption).
  cbv zeta.
  rewrite mean_Fin by (destruct l; [simpl in Hlen; lia | discriminate]).
  rewrite (sum_by_Fin _ (fun r => (r - mean_R l) * (r - mean_R l)))
    by (intros x; now rewrite nsub_Fin, npow2_Fin).
  rewrite length_num_Fin, nsub_Fin, ndiv_Fin by lra.
  apply nsqrt_Fin.
  apply Rmult_le_pos.
  - apply sum_R_nonneg. intros x.
    replace ((x - mean_R l) * (x - mean_R l)) with (Rsqr (x - mean_R l))
      by reflexivity.
    apply Rle_0_sqr.
  - left. apply Rinv_0_lt_compat. lra.
Qed.

Lemma stddev_R_nonneg (l : list R) : 0 <= stddev_R l.
Proof.
  unfold stddev_R. destruct (List.length l <? 2)%nat; [lra | apply sqrt_pos].
Qed.

(** ** The regime classifier *)

Lemma slice_last_map {A B} (f : A -> B) (k : nat) (l : list A) :
  Calibrate.slice_last k (map f l) = map f (Calibrate.slice_last k l).
Proof. unfold Calibrate.slice_last. now rewrite length_map, skipn_map. Qed.

Lemma slice_last_length {A} (k : nat) (l : list A) :
  List.length (Calibrate.slice_last k l) = Nat.min k (List.length l).
Proof. unfold Calibrate.slice_last. rewrite length_skipn. lia. Qed.

Lemma slice_last_suffix {A} (k : nat) (l : list A) :
  exists older, l = older ++ Calibrate.slice_last k l.
Proof.
  exists (firstn (List.length l - k) l).
  unfold Calibrate.slice_last. now rewrite firstn_skipn.
Qed.

Lemma scores_cases (m sigma : R) :
  let b := bull_score m sigma in
  b = 0.8 \/ b = 0.6 \/ b = 0.4.
Proof.
  unfold bull_score. destruct (Rltb 0 m), (Rltb sigma 0.02); lra.
Qed.

(** The classifier in exact arithmetic: the formula of the scores, on
    the mean and the deviation as real numbers. *)
Lemma detectRegime_exact (returns : list R) :
  let recent := Calibrate.slice_last 20 returns in
  let bull := bull_score (mean_R recent) (stddev_R recent) in
  let bear := bear_score (mean_R recent) (stddev_R recent) in
  (exists current,
     argmax_regime bull bear = Some current
     /\ Calibrate.detectRegime (map Fin returns)
        = if (List.length returns <? 10)%nat
          then regime_object BULL 0.5 0.5
          else regime_object current bull bear)
  /\ bull + bear = 1
  /\ 0 <= bull <= 1 /\ 0 <= bear <= 1.
Proof.
  intros recent bull bear.
  assert (Hc := scores_cases (mean_R recent) (stddev_R recent)).
  fold bull in Hc. cbv zeta in Hc.
  assert (Hbear : bear = 1 - bull) by reflexivity.
  split; [| repeat split; lra].
  exists (if Rltb bear bull then BULL else BEAR).
  split.
  - unfold argmax_regime.
    destruct (Rltb bear bull) eqn:H1; [reflexivity |].
    rewrite Rltb_true; [reflexivity |].
    unfold Rltb in H1. destruct (Rlt_dec bear bull); [discriminate | lra].
  - unfold Calibrate.detectRegime. rewrite length_map.
    destruct (List.length returns <? 10)%nat eqn:Hlen; [reflexivity |].
    apply Nat.ltb_ge in Hlen.
    cbv zeta. rewrite slice_last_map. fold recent.
    assert (Hne : recent <> []).
    { intros E. apply (f_equal (@List.length R)) in E.
      unfold recent in E. rewrite slice_last_length in E.
      cbn [List.length] in E. lia. }
    rewrite mean_Fin by assumption.
    rewrite realizedVolatility_Fin.
    unfold ngt, nlt.
    replace ((if Rltb 0 (mean_R recent) then Fin 0.6 else Fin 0.4)
             + (if Rltb (stddev_R recent) 0.02 then Fin 0.2 else Fin 0))%num
      with (Fin bull)
      by (unfold bull, bull_score; now destruct (Rltb 0 _), (Rltb _ 0.02)).
    rewrite nsub_Fin. fold bear_score. rewrite <- Hbear.
    unfold regime_object. now destruct (Rltb bear bull).
Qed.

(** ** The regime classifier in binary64 *)




(** ** Jump estimation *)

Lemma filter_outliers_Fin (threshold sd m : R) (l : list R) :
  filter (fun r => (nabs (r - Fin m) >? Fin threshold * Fin sd)%num) (map Fin l)
  = map Fin (filter (fun r => Rltb (threshold * sd) (Rabs (r - m))) l).
Proof.
  induction l as [| x l IH]; [reflexivity |].
  cbn [map filter]. rewrite IH.
  change ((nabs (Fin x - Fin m) >? Fin threshold * Fin sd)%num)
    with (Rltb (threshold * sd) (Rabs (x - m))).
  now destruct (Rltb (threshold * sd) (Rabs (x - m))).
Qed.

(** A return is flagged exactly when it lies more than [threshold]
    standard deviations from the mean. *)
Lemma detectJumps_Fin (l : list R) (threshold : R) :
  l <> [] ->
  detectJumps (map Fin l) (Fin threshold)
  = map Fin (filter (fun r => Rltb (threshold * stddev_R l) (Rabs (r - mean_R l))) l).
Proof.
  intros Hl. unfold detectJumps; cbv zeta.
  rewrite realizedVolatility_Fin, mean_Fin by assumption.
  apply filter_outliers_Fin.
Qed.

(** With no flagged return the constant [DEFAULT_JUMP_PARAMS] is
    returned as it is. *)
Lemma estimateJumpParams_no_jump (returns : list num) (threshold : num) :
  detectJumps returns threshold = [] ->
  Calibrate.estimateJumpParams returns threshold = DEFAULT_JUMP_PARAMS.
Proof. intros H. unfold Calibrate.estimateJumpParams. now rewrite H. Qed.

(** The constant has no [mu_j] and no [sigma_j]: its values sit under
    [muJ] and [sigmaJ]. *)
Lemma DEFAULT_JUMP_PARAMS_keys :
  field "lambda" DEFAULT_JUMP_PARAMS = Some (JNum (Fin 0.1))
  /\ field "kind" DEFAULT_JUMP_PARAMS = Some (JStr "merton")
  /\ field "muJ" DEFAULT_JUMP_PARAMS = Some (JNum (Fin 0))
  /\ field "sigmaJ" DEFAULT_JUMP_PARAMS = Some (JNum (Fin 0.02))
  /\ field "mu_j" DEFAULT_JUMP_PARAMS = None
  /\ field "sigma_j" DEFAULT_JUMP_PARAMS = None.
Proof. repeat split. Qed.

(** With a flagged return, lambda is the share of flagged returns
    clamped to [0.01, 1], mu_j is 0 and the kind is merton. *)
Lemma estimateJumpParams_lambda (l : list R) (threshold : R) :
  let flagged :=
    filter (fun r => Rltb (threshold * stddev_R l) (Rabs (r - mean_R l))) l in
  flagged <> [] ->
  let params := Calibrate.estimateJumpParams (map Fin l) (Fin threshold) in
  field "lambda" params
  = Some (JNum (Fin (clampR 0.01 1
                       (INR (List.length flagged) / INR (List.length l)))))
  /\ field "mu_j" params = Some (JNum (Fin 0))
  /\ field "kind" params = Some (JStr "merton").
Proof.
  intros flagged Hflagged params.
  assert (Hl : l <> []) by (intros ->; now apply Hflagged).
  unfold params, Calibrate.estimateJumpParams.
  rewrite detectJumps_Fin by assumption. fold flagged.
  rewrite length_map.
  destruct flagged as [| j J] eqn:E; [contradiction |].
  cbn [List.length Nat.eqb]. cbv zeta.
  rewrite !length_num_Fin.
  rewrite ndiv_Fin
    by (apply not_0_INR; destruct l; [contradiction | discriminate]).
  rewrite nmin_Fin, nmax_Fin.
  repeat split.
Qed.

(** The deviation of a single value from itself, divided by [1 - 1]. *)
Lemma single_deviation_nan (x : num) :
  let mu_j := (sum_by (fun j => j) [x] / length_num [x])%num in
  nsqrt (sum_by (fun j => npow2 (j - mu_j)) [x] / (length_num [x] - #1))%num = NaN.
Proof.
  cbv zeta. unfold sum_by, length_num; cbn [fold_left List.length INR].
  destruct x as [v | | |]; try reflexivity.
  - rewrite nadd_Fin, ndiv_Fin by lra.
    rewrite nsub_Fin, npow2_Fin, nadd_Fin, nsub_Fin.
    unfold ndiv. rewrite Reqb_true by lra.
    rewrite Reqb_true; [reflexivity |].
    replace ((0 + v) / 1) with v by field. ring.
  - cbn [nadd ndiv]. rewrite Rltb_false by lra. reflexivity.
  - cbn [nadd ndiv]. rewrite Rltb_false by lra. reflexivity.
Qed.

(** Whenever exactly one return is flagged, the emitted [sigma_j] is
    [NaN]: both clamps pass it on. *)
Lemma estimateJumpParams_single_jump (returns : list num) (threshold j : num) :
  detectJumps returns threshold = [j] ->
  field "sigma_j" (Calibrate.estimateJumpParams returns threshold)
  = Some (JNum NaN).
Proof.
  intros H. unfold Calibrate.estimateJumpParams. rewrite H.
  cbn [List.length Nat.eqb map]. cbv zeta.
  rewrite (single_deviation_nan (nlog (nabs j))).
  reflexivity.
Qed.

Lemma one_outlier_mean : mean_R one_outlier = 0.001.
Proof.
  unfold mean_R, sum_R, one_outlier.
  cbn [repeat app fold_left List.length].
  rewrite INR_IZR_INZ. cbn [Z.of_nat Pos.of_succ_nat Pos.succ]. lra.
Qed.

Lemma one_outlier_stddev : stddev_R one_outlier = 0.004.
Proof.
  unfold stddev_R. rewrite one_outlier_mean.
  unfold sum_R, one_outlier.
  cbn [repeat app fold_left List.length Nat.ltb Nat.leb].
  rewrite INR_IZR_INZ. cbn [Z.of_nat Pos.of_succ_nat Pos.succ].
  match goal with |- sqrt ?e = _ => replace e with (0.004 * 0.004) by lra end.
  apply sqrt_square. lra.
Qed.

Lemma one_outlier_jumps :
  detectJumps (map Fin one_outlier) (Fin 3) = [Fin 0.016].
Proof.
  rewrite detectJumps_Fin by discriminate.
  rewrite one_outlier_mean, one_outlier_stddev.
  unfold one_outlier. cbn [repeat app filter].
  rewrite (Rltb_false (3 * 0.004) (Rabs (0 - 0.001)))
    by (rewrite Rabs_left by lra; lra).
  rewrite (Rltb_true (3 * 0.004) (Rabs (0.016 - 0.001)))
    by (rewrite Rabs_pos_eq by lra; lra).
  reflexivity.
Qed.

(** C4, at sixteen returns of which one is flagged: lambda is 1/16, and
    [sigma_j] is [NaN], not a value of [0.01, 0.1]. *)
Theorem estimateJumpParams_one_outlier :
  Calibrate.estimateJumpParams (map Fin one_outlier) (Fin 3)
  = JObj [ ("lambda", JNum (Fin 0.0625));
           ("mu_j", JNum (Fin 0));
           ("sigma_j", JNum NaN);
           ("kind", JStr "merton") ]%string.
Proof.
  unfold Calibrate.estimateJumpParams.
  rewrite one_outlier_jumps.
  cbn [List.length Nat.eqb map]. cbv zeta.
  rewrite (single_deviation_nan (nlog (nabs (Fin 0.016)))).
  unfold length_num. rewrite length_map.
  unfold one_outlier; cbn [repeat app List.length].
  rewrite !INR_IZR_INZ. cbn [Z.of_nat Pos.of_succ_nat Pos.succ].
  rewrite ndiv_Fin by lra. rewrite nmin_Fin, nmax_Fin.
  replace (Rmax 0.01 (Rmin 1 (1 / 16))) with 0.0625 by minmax.
  reflexivity.
Qed.

(** ** The calibration route on a failed fetch *)

Lemma sqrt_default_theta : nsqrt (theta DEFAULT_HESTON_PARAMS) = Fin 0.2.
Proof.
  cbn [theta DEFAULT_HESTON_PARAMS]. rewrite nsqrt_Fin by lra.
  f_equal. replace 0.04 with (0.2 * 0.2) by lra. apply sqrt_square. lra.
Qed.

Lemma GET_on_failure (cache : Calibrate.CalibrationCache) (now0 now1 now2 : Z) :
  Calibrate.fresh cache now0 = None ->
  Calibrate.GET cache None now0 now1 now2 = (default_bundle now1, cache).
Proof.
  intros Hstale. unfold Calibrate.GET. rewrite Hstale.
  now rewrite sqrt_default_theta.
Qed.

(** C5, with the bundle that the code returns: when the candle fetch
    fails and no fresh cached calibration answers the request, the
    route returns dailyRV =
    weeklyRV = intradayRV = 0.2, the square root of the default theta
    0.04, with the constant [DEFAULT_JUMP_PARAMS] (lambda = 0.1, kind =
    merton) as jumps, regime BULL with probabilities [0.5, 0.5] and the
    current time as timestamp; the cache is left as it was, and the
    bundle has no [degraded] key and no Heston parameters. *)
Theorem GET_fetch_failure_defaults
    (cache : Calibrate.CalibrationCache) (now0 now1 now2 : Z) :
  Calibrate.fresh cache now0 = None ->
  let response := fst (Calibrate.GET cache None now0 now1 now2) in
  Calibrate.GET cache None now0 now1 now2 = (default_bundle now1, cache)
  /\ field "degraded" response = None
  /\ field "theta" response = None /\ field "xi" response = None
  /\ field "kappa" response = None /\ field "rho" response = None.
Proof.
  intros Hstale response. unfold response.
  rewrite GET_on_failure by assumption.
  repeat split.
Qed.

Lemma GET_fetch_failure_defaults_witness :
  Calibrate.GET Calibrate.initial_cache None 0 0 0
    = (default_bundle 0, Calibrate.initial_cache)
  /\ field "degraded" (fst (Calibrate.GET Calibrate.initial_cache None 0 0 0)) = None
  /\ field "theta" (fst (Calibrate.GET Calibrate.initial_cache None 0 0 0)) = None
  /\ field "xi" (fst (Calibrate.GET Calibrate.initial_cache None 0 0 0)) = None
  /\ field "kappa" (fst (Calibrate.GET Calibrate.initial_cache None 0 0 0)) = None
  /\ field "rho" (fst (Calibrate.GET Calibrate.initial_cache None 0 0 0)) = None.
Proof.
  apply (GET_fetch_failure_defaults Calibrate.initial_cache 0 0 0). reflexivity.
Defined.

(** On the first request, with the fetch failing, the body has no
    [degraded] flag. *)
Lemma GET_fetch_failure_not_flagged :
  ~ exists flag,
      field "degraded" (fst (Calibrate.GET Calibrate.initial_cache None 0 0 0))
      = Some flag.
Proof.
  rewrite GET_on_failure by reflexivity.
  intros [flag H]. discriminate H.
Qed.

(** ** The cache fingerprint *)

(** The fingerprint of a key with finite spot and time, spelled out. *)
Lemma generateKey_Fin (k : SimCache.CacheKey) (s tc : R) :
  SimCache.s0 k = Fin s -> SimCache.timeToClose k = Fin tc ->
  SimCache.generateKey k
  = JObj [ ("ticker", JStr (SimCache.marketTicker k));
           ("s0", JNum (Fin (IZR (round_R s))));
           ("t", JNum (Fin (IZR (round_R (tc * 10)) / 10)));
           ("vol", SimCache.json_number (volatilityMultiplier (SimCache.sensitivity k)));
           ("jump", SimCache.json_number
                      (jumpIntensityMultiplier (SimCache.sensitivity k)));
           ("size", SimCache.json_number
                      (jumpSizeMultiplier (SimCache.sensitivity k))) ]%string.
Proof.
  intros Hs Ht. unfold SimCache.generateKey. rewrite Hs, Ht.
  cbn [Math_round]. rewrite nmul_Fin. cbn [Math_round].
  rewrite ndiv_Fin by lra. reflexivity.
Qed.

Lemma round_R_stable (x y : R) :
  IZR (round_R x) - / 2 <= y < IZR (round_R x) + / 2 -> round_R y = round_R x.
Proof. intros H. unfold round_R at 1. apply Zfloor_eq. lra. Qed.



Lemma scaled_round_inj (a b : Z) : IZR a / 10 = IZR b / 10 -> a = b.
Proof. intros H. apply eq_IZR. lra. Qed.

(** Two keys with finite spot and time have the same fingerprint exactly
    when ticker, rounded spot, rounded tenth of an hour and the three
    multipliers agree. *)
Lemma generateKey_canonical (k k' : SimCache.CacheKey) (s tc s' tc' : R) :
  SimCache.s0 k = Fin s -> SimCache.timeToClose k = Fin tc ->
  SimCache.s0 k' = Fin s' -> SimCache.timeToClose k' = Fin tc' ->
  SimCache.generateKey k = SimCache.generateKey k'
  <-> SimCache.marketTicker k = SimCache.marketTicker k'
      /\ round_R s = round_R s'
      /\ round_R (tc * 10) = round_R (tc' * 10)
      /\ SimCache.json_number (volatilityMultiplier (SimCache.sensitivity k))
         = SimCache.json_number (volatilityMultiplier (SimCache.sensitivity k'))
      /\ SimCache.json_number (jumpIntensityMultiplier (SimCache.sensitivity k))
         = SimCache.json_number (jumpIntensityMultiplier (SimCache.sensitivity k'))
      /\ SimCache.json_number (jumpSizeMultiplier (SimCache.sensitivity k))
         = SimCache.json_number (jumpSizeMultiplier (SimCache.sensitivity k')).
Proof.
  intros Hs Ht Hs' Ht'.
  rewrite (generateKey_Fin k s tc), (generateKey_Fin k' s' tc') by assumption.
  split.
  - intros H. injection H as Hk H0 H1 Hv Hj Hz.
    repeat split; try assumption.
    + now apply eq_IZR.
    + now apply scaled_round_inj.
  - intros (Hk & H0 & H1 & Hv & Hj & Hz).
    now rewrite Hk, H0, H1, Hv, Hj, Hz.
Qed.


Lemma with_spot_key (k : SimCache.CacheKey) (x s tc : R) :
  SimCache.s0 k = Fin s -> SimCache.timeToClose k = Fin tc ->
  SimCache.generateKey (with_spot k x) = SimCache.generateKey k
  <-> round_R x = round_R s.
Proof.
  intros Hs Ht.
  rewrite (generateKey_canonical (with_spot k x) k x tc s tc)
    by (assumption || reflexivity).
  cbn [with_spot SimCache.marketTicker SimCache.sensitivity]. tauto.
Qed.



Lemma round_R_of_Z (z : Z) : round_R (IZR z) = z.
Proof. unfold round_R. apply Zfloor_eq. lra. Qed.



(** ** The result cache *)

Lemma num_same_eq (a b : num) : SimCache.num_same a b = true <-> a = b.
Proof.
  destruct a, b; cbn [SimCache.num_same]; try (split; [discriminate | discriminate]);
    try (split; reflexivity).
  rewrite Reqb_eq. split; [now intros -> | now intros [= ->]].
Qed.

(** [key_eqb] decides equality of fingerprints. *)
Lemma key_eqb_eq (a b : jsval) : SimCache.key_eqb a b = true <-> a = b.
Proof.
  revert b. induction a as [| x | s | items IH | fields IH] using jsval_nested_ind;
    intros b; destruct b as [| y | s' | items' | fields'];
    cbn [SimCache.key_eqb]; try (split; [discriminate | discriminate]).
  - split; reflexivity.
  - rewrite num_same_eq. split; [now intros -> | now intros [= ->]].
  - rewrite String.eqb_eq. split; [now intros -> | now intros [= ->]].
  - revert items'. induction IH as [| x r Hx _ IHr]; intros [| y r'];
      try (split; [discriminate | discriminate]).
    + split; reflexivity.
    + rewrite andb_true_iff, Hx. specialize (IHr r').
      split.
      * intros [-> H]. apply IHr in H. now injection H as ->.
      * intros [= -> ->]. split; [reflexivity |]. now apply IHr.
  - revert fields'. induction IH as [| [k x] r Hx _ IHr]; intros [| [k' y] r'];
      try (split; [discriminate | discriminate]).
    + split; reflexivity.
    + rewrite !andb_true_iff, String.eqb_eq. cbn [snd] in Hx. rewrite Hx.
      specialize (IHr r').
      split.
      * intros [[-> ->] H]. apply IHr in H. now injection H as ->.
      * intros [= -> -> ->]. repeat split. now apply IHr.
Qed.

Lemma key_eqb_refl (k : jsval) : SimCache.key_eqb k k = true.
Proof. now apply key_eqb_eq. Qed.

Lemma key_eqb_neq (k k' : jsval) : k <> k' -> SimCache.key_eqb k k' = false.
Proof.
  intros H. destruct (SimCache.key_eqb k k') eqn:E; [| reflexivity].
  now apply key_eqb_eq in E.
Qed.

Section CacheProperties.

Import SimCache.

Variable SimResult : Type.

Lemma Map_delete_size (k : jsval) (m : JSMap SimResult) :
  (Map_size (Map_delete k m) <= Map_size m)%nat.
Proof.
  unfold Map_size.
  induction m as [| [k' e] m IH]; cbn [Map_delete List.length]; [lia |].
  destruct (key_eqb k k'); cbn [List.length]; lia.
Qed.

Lemma Map_delete_first (k : jsval) (e : CacheEntry SimResult) (m : JSMap SimResult) :
  Map_delete k ((k, e) :: m) = Map_delete k m.
Proof. cbn [Map_delete]. now rewrite key_eqb_refl. Qed.

Lemma Map_delete_absent (k : jsval) (m : JSMap SimResult) :
  ~ In k (keys m) -> Map_delete k m = m.
Proof.
  induction m as [| [k' e] m IH]; intros Hk; cbn [Map_delete];
    [reflexivity |].
  cbn [keys map fst In] in Hk.
  rewrite key_eqb_neq by (intros ->; apply Hk; now left).
  f_equal. apply IH. intros H. apply Hk. now right.
Qed.

Lemma Map_delete_keys (k k' : jsval) (m : JSMap SimResult) :
  In k' (keys (Map_delete k m)) -> In k' (keys m).
Proof.
  induction m as [| [k0 e] m IH]; cbn [Map_delete]; [easy |].
  destruct (key_eqb k k0); cbn [keys map fst In]; intuition.
Qed.

Lemma Map_delete_well_formed (k : jsval) (m : JSMap SimResult) :
  well_formed m -> well_formed (Map_delete k m).
Proof.
  unfold well_formed.
  induction m as [| [k0 e] m IH]; cbn [Map_delete keys map fst];
    [easy |].
  intros H. inversion H as [| ? ? Hnotin Hrest]; subst.
  destruct (key_eqb k k0); [now apply IH |].
  cbn [keys map fst]. constructor; [| now apply IH].
  intros Hin. apply Hnotin. now apply Map_delete_keys in Hin.
Qed.

Lemma Map_get_delete (k : jsval) (m : JSMap SimResult) :
  Map_get k (Map_delete k m) = None.
Proof.
  induction m as [| [k' e] m IH]; cbn [Map_delete]; [reflexivity |].
  destruct (key_eqb k k') eqn:E; [assumption |].
  cbn [Map_get]. now rewrite E.
Qed.

Lemma Map_set_size (k : jsval) (e : CacheEntry SimResult) (m : JSMap SimResult) :
  (Map_size (Map_set k e m) <= S (Map_size m))%nat.
Proof.
  unfold Map_size.
  induction m as [| [k' e'] m IH]; cbn [Map_set List.length]; [lia |].
  destruct (key_eqb k k'); cbn [List.length]; lia.
Qed.

Lemma Map_set_keys (k k' : jsval) (e : CacheEntry SimResult) (m : JSMap SimResult) :
  In k' (keys (Map_set k e m)) -> k' = k \/ In k' (keys m).
Proof.
  induction m as [| [k0 e0] m IH]; cbn [Map_set keys map fst In].
  - intuition.
  - destruct (key_eqb k k0); cbn [keys map fst In]; intuition.
Qed.

Lemma Map_set_well_formed (k : jsval) (e : CacheEntry SimResult) (m : JSMap SimResult) :
  well_formed m -> well_formed (Map_set k e m).
Proof.
  unfold well_formed.
  induction m as [| [k0 e0] m IH]; cbn [Map_set keys map fst].
  - intros _. constructor; [easy | constructor].
  - intros H. inversion H as [| ? ? Hnotin Hrest]; subst.
    destruct (key_eqb k k0) eqn:E; cbn [keys map fst].
    + now constructor.
    + constructor; [| now apply IH].
      intros Hin. apply Map_set_keys in Hin as [-> | Hin]; [| now apply Hnotin].
      now rewrite key_eqb_refl in E.
Qed.

Lemma Map_set_get (k : jsval) (e : CacheEntry SimResult) (m : JSMap SimResult) :
  Map_get k (Map_set k e m) = Some e.
Proof.
  induction m as [| [k' e'] m IH]; cbn [Map_set Map_get].
  - now rewrite key_eqb_refl.
  - destruct (key_eqb k k') eqn:E; cbn [Map_get]; now rewrite E.
Qed.

Lemma evicted_size (m : JSMap SimResult) :
  (Map_size m <= maxSize)%nat ->
  (Map_size (evicted m) < maxSize)%nat.
Proof.
  intros Hm. unfold evicted.
  destruct (maxSize <=? Map_size m)%nat eqn:Hfull.
  - apply Nat.leb_le in Hfull.
    destruct m as [| [k0 e0] m];
      [unfold maxSize, Map_size in Hfull; cbn [List.length] in Hfull; lia |].
    cbn [Map_first_key]. rewrite Map_delete_first.
    generalize (Map_delete_size k0 m).
    unfold Map_size in *; cbn [List.length] in *. lia.
  - apply Nat.leb_gt in Hfull. assumption.
Qed.

Lemma evicted_well_formed (m : JSMap SimResult) :
  well_formed m -> well_formed (evicted m).
Proof.
  intros H. unfold evicted.
  destruct (maxSize <=? Map_size m)%nat; [| assumption].
  destruct (Map_first_key m); [| assumption].
  now apply Map_delete_well_formed.
Qed.

Lemma set_evicted (m : JSMap SimResult) (key : CacheKey) (r : SimResult) (now : Z) :
  set m key r now
  = Map_set (generateKey key)
      {| result := r; timestamp := now |} (evicted m).
Proof. reflexivity. Qed.

Lemma set_bounded (m : JSMap SimResult) (key : CacheKey) (r : SimResult) (now : Z) :
  (Map_size m <= maxSize)%nat ->
  (Map_size (set m key r now) <= maxSize)%nat.
Proof.
  intros Hm. rewrite set_evicted.
  generalize (evicted_size m Hm).
  generalize (Map_set_size (generateKey key)
                {| result := r; timestamp := now |} (evicted m)).
  lia.
Qed.

Lemma get_cache (m : JSMap SimResult) (key : CacheKey) (now : Z) :
  snd (get m key now) = m
  \/ snd (get m key now) = Map_delete (generateKey key) m.
Proof.
  unfold get.
  destruct (Map_get (generateKey key) m) as [e |]; [| now left].
  destruct (now - timestamp e >? maxAge)%Z; [now right | now left].
Qed.

(** Every call keeps the cache a [Map] of at most [maxSize] entries. *)
Lemma step_invariant (m : JSMap SimResult) (op : Op SimResult) :
  well_formed m -> (Map_size m <= maxSize)%nat ->
  well_formed (step m op)
  /\ (Map_size (step m op) <= maxSize)%nat.
Proof.
  intros Hwf Hm. destruct op as [key now | key r now | |]; cbn [step].
  - destruct (get_cache m key now) as [-> | ->]; [now split |].
    split; [now apply Map_delete_well_formed |].
    generalize (Map_delete_size (generateKey key) m). lia.
  - split; [| now apply set_bounded].
    rewrite set_evicted. apply Map_set_well_formed. now apply evicted_well_formed.
  - split; [constructor | unfold clear, Map_size, maxSize; cbn [List.length]; lia].
  - now split.
Qed.

Lemma run_invariant (ops : list (Op SimResult)) (m : JSMap SimResult) :
  well_formed m -> (Map_size m <= maxSize)%nat ->
  well_formed (run ops m)
  /\ (Map_size (run ops m) <= maxSize)%nat.
Proof.
  revert m. unfold run.
  induction ops as [| op ops IH]; intros m Hwf Hm; cbn [fold_left]; [now split |].
  destruct (step_invariant m op Hwf Hm) as [Hwf' Hm']. now apply IH.
Qed.

(** On a full cache [set] drops the oldest entry and then inserts. *)
Lemma set_full (k0 : jsval) (e0 : CacheEntry SimResult) (rest : JSMap SimResult)
    (key : CacheKey) (r : SimResult) (now : Z) :
  well_formed ((k0, e0) :: rest) ->
  (maxSize <= Map_size ((k0, e0) :: rest))%nat ->
  set ((k0, e0) :: rest) key r now
  = Map_set (generateKey key)
      {| result := r; timestamp := now |} rest.
Proof.
  intros Hwf Hfull. rewrite set_evicted. unfold evicted.
  apply Nat.leb_le in Hfull. rewrite Hfull.
  cbn [Map_first_key]. rewrite Map_delete_first.
  rewrite Map_delete_absent; [reflexivity |].
  now inversion Hwf.
Qed.

Lemma get_absent (m : JSMap SimResult) (key : CacheKey) (now : Z) :
  Map_get (generateKey key) m = None ->
  get m key now = (None, m).
Proof. intros H. unfold get. now rewrite H. Qed.

Lemma get_expired (m : JSMap SimResult) (key : CacheKey) (now : Z)
    (e : CacheEntry SimResult) :
  Map_get (generateKey key) m = Some e ->
  (now - timestamp e > 60000)%Z ->
  get m key now = (None, Map_delete (generateKey key) m).
Proof.
  intros H Hold. unfold get. rewrite H.
  replace (now - timestamp e >? maxAge)%Z with true; [reflexivity |].
  symmetry. apply Z.gtb_lt. unfold maxAge. lia.
Qed.

Lemma get_live (m : JSMap SimResult) (key : CacheKey) (now : Z)
    (e : CacheEntry SimResult) :
  Map_get (generateKey key) m = Some e ->
  (now - timestamp e <= 60000)%Z ->
  get m key now = (Some (result e), m).
Proof.
  intros H Hlive. unfold get. rewrite H.
  replace (now - timestamp e >? maxAge)%Z with false; [reflexivity |].
  symmetry. rewrite Z.gtb_ltb. apply Z.ltb_ge. unfold maxAge. lia.
Qed.

End CacheProperties.

(** C7: every sequence of cache operations keeps the cache at no more
    than 50 entries; on a full cache [set] drops the oldest-inserted
    entry before it inserts; [get] returns nothing for an absent key and
    for an entry older than 60 seconds, which that read removes, and it
    returns the stored result otherwise. *)
Theorem SimulationCache_bounded_and_expiring {SimResult : Type}
    (ops : list (SimCache.Op SimResult)) (cache : SimCache.JSMap SimResult) :
  well_formed cache ->
  (SimCache.Map_size cache <= 50)%nat ->
  let cache' := SimCache.run ops cache in
  well_formed cache'
  /\ (SimCache.Map_size cache' <= 50)%nat
  /\ (forall k0 e0 rest key r now,
        cache' = (k0, e0) :: rest ->
        (50 <= SimCache.Map_size cache')%nat ->
        SimCache.set cache' key r now
        = SimCache.Map_set (SimCache.generateKey key)
            {| SimCache.result := r; SimCache.timestamp := now |} rest)
  /\ (forall key now,
        SimCache.Map_get (SimCache.generateKey key) cache' = None ->
        SimCache.get cache' key now = (None, cache'))
  /\ (forall key now e,
        SimCache.Map_get (SimCache.generateKey key) cache' = Some e ->
        (now - SimCache.timestamp e > 60000)%Z ->
        SimCache.get cache' key now
        = (None, SimCache.Map_delete (SimCache.generateKey key) cache')
        /\ SimCache.Map_get (SimCache.generateKey key)
             (SimCache.Map_delete (SimCache.generateKey key) cache') = None)
  /\ (forall key now e,
        SimCache.Map_get (SimCache.generateKey key) cache' = Some e ->
        (now - SimCache.timestamp e <= 60000)%Z ->
        SimCache.get cache' key now = (Some (SimCache.result e), cache')).
Proof.
  intros Hwf Hsize cache'.
  destruct (run_invariant SimResult ops cache Hwf Hsize) as [Hwf' Hsize'].
  fold cache' in Hwf', Hsize'.
  split; [exact Hwf' |]. split; [exact Hsize' |].
  split; [| split; [| split]].
  - intros k0 e0 rest key r now E Hfull. rewrite E in *.
    now apply set_full.
  - intros key now. apply get_absent.
  - intros key now e Hget Hold. split.
    + now apply (get_expired SimResult cache' key now e).
    + apply Map_get_delete.
  - intros key now e. apply get_live.
Qed.

Lemma SimulationCache_bounded_and_expiring_witness :
  well_formed (SimCache.run sample_ops [])
  /\ (SimCache.Map_size (SimCache.run sample_ops []) <= 50)%nat.
Proof.
  destruct (SimulationCache_bounded_and_expiring sample_ops [])
    as (Hwf & Hsize & _).
  - constructor.
  - apply Nat.le_0_l.
  - split; assumption.
Defined.

(** A result stored at time 0 is served at 60000 ms and gone at 60001 ms. *)
Lemma SimulationCache_expiry_example :
  let cache := SimCache.set [] whole_dollar_key 7%nat 0%Z in
  SimCache.get cache whole_dollar_key 60000%Z = (Some 7%nat, cache)
  /\ SimCache.get cache whole_dollar_key 60001%Z = (None, []).
Proof.
  intros cache.
  assert (Hget : SimCache.Map_get (SimCache.generateKey whole_dollar_key) cache
                 = Some {| SimCache.result := 7%nat; SimCache.timestamp := 0%Z |}).
  { unfold cache. rewrite set_evicted. apply Map_set_get. }
  split.
  - rewrite (get_live nat cache whole_dollar_key 60000 _ Hget); [reflexivity |].
    cbn [SimCache.timestamp]. lia.
  - rewrite (get_expired nat cache whole_dollar_key 60001 _ Hget)
      by (cbn [SimCache.timestamp]; lia).
    unfold cache, SimCache.set. cbn [SimCache.Map_size List.length Nat.leb
      SimCache.maxSize SimCache.Map_set SimCache.Map_delete].
    now rewrite key_eqb_refl.
Qed.

(** * Further properties of the code *)

(** ** The Wilson interval at the boundary and under exchange of hits
    and misses *)

Lemma wilson_interval_no_hit (z n : R) :
  0 <= z -> 0 < n ->
  wilson_interval z 0 n = (0, z ^ 2 / (n + z ^ 2)).
Proof.
  intros Hz Hn. unfold wilson_interval, wilson_center, wilson_margin. cbv zeta.
  replace (0 / n * (1 - 0 / n) / n + z ^ 2 / (4 * n ^ 2))
    with (z / (2 * n) * (z / (2 * n))) by (field; lra).
  rewrite sqrt_square
    by (apply Rmult_le_pos; [lra | left; apply Rinv_0_lt_compat; lra]).
  assert (Hd : 0 < n + z ^ 2) by nra.
  replace ((0 / n + z ^ 2 / (2 * n)) / (1 + z ^ 2 / n)
           - z * (z / (2 * n)) / (1 + z ^ 2 / n)) with 0 by (field; lra).
  replace ((0 / n + z ^ 2 / (2 * n)) / (1 + z ^ 2 / n)
           + z * (z / (2 * n)) / (1 + z ^ 2 / n))
    with (z ^ 2 / (n + z ^ 2)) by (field; lra).
  f_equal.
  - apply Rmax_left. lra.
  - apply Rmin_right. apply (Rmult_le_reg_r (n + z ^ 2)); [lra |].
    unfold Rdiv. rewrite Rmult_assoc, Rinv_l by lra. nra.
Qed.

Lemma wilson_interval_all_hit (z n : R) :
  0 <= z -> 0 < n ->
  wilson_interval z n n = (n / (n + z ^ 2), 1).
Proof.
  intros Hz Hn. unfold wilson_interval, wilson_center, wilson_margin. cbv zeta.
  replace (n / n * (1 - n / n) / n + z ^ 2 / (4 * n ^ 2))
    with (z / (2 * n) * (z / (2 * n))) by (field; lra).
  rewrite sqrt_square
    by (apply Rmult_le_pos; [lra | left; apply Rinv_0_lt_compat; lra]).
  assert (Hd : 0 < n + z ^ 2) by nra.
  replace ((n / n + z ^ 2 / (2 * n)) / (1 + z ^ 2 / n)
           - z * (z / (2 * n)) / (1 + z ^ 2 / n))
    with (n / (n + z ^ 2)) by (field; lra).
  replace ((n / n + z ^ 2 / (2 * n)) / (1 + z ^ 2 / n)
           + z * (z / (2 * n)) / (1 + z ^ 2 / n)) with 1 by (field; lra).
  f_equal.
  - apply Rmax_right. apply Rmult_le_pos; [lra | left; now apply Rinv_0_lt_compat].
  - apply Rmin_left. lra.
Qed.

(** X1: with no hit among n >= 1 paths the default interval is
    [0, z^2 / (n + z^2)], and with n hits it is [n / (n + z^2), 1], for
    z = 1.96: the interval never shrinks to a point. *)
Theorem wilsonCI_boundary (n : nat) :
  (1 <= n)%nat ->
  wilsonCI (Fin 0) (Fin (INR n)) (Fin 0.95)
    = (Fin 0, Fin (1.96 ^ 2 / (INR n + 1.96 ^ 2)))
  /\ wilsonCI (Fin (INR n)) (Fin (INR n)) (Fin 0.95)
    = (Fin (INR n / (INR n + 1.96 ^ 2)), Fin 1)
  /\ INR n / (INR n + 1.96 ^ 2) < 1
  /\ 0 < 1.96 ^ 2 / (INR n + 1.96 ^ 2).
Proof.
  intros Hn.
  assert (Hpos : 0 < INR n) by (apply lt_0_INR; lia).
  assert (Hd : 0 < INR n + 1.96 ^ 2) by nra.
  split; [| split; [| split]].
  - rewrite wilsonCI_real by lra. rewrite Reqb_true by reflexivity.
    rewrite wilson_interval_no_hit by lra. reflexivity.
  - rewrite wilsonCI_real by lra. rewrite Reqb_true by reflexivity.
    rewrite wilson_interval_all_hit by lra. reflexivity.
  - apply (Rmult_lt_reg_r (INR n + 1.96 ^ 2)); [lra |].
    unfold Rdiv. rewrite Rmult_assoc, Rinv_l by lra. nra.
  - apply Rdiv_lt_0_compat; nra.
Qed.

Lemma wilsonCI_boundary_witness :
  wilsonCI (Fin 0) (Fin (INR 50)) (Fin 0.95)
    = (Fin 0, Fin (1.96 ^ 2 / (INR 50 + 1.96 ^ 2)))
  /\ wilsonCI (Fin (INR 50)) (Fin (INR 50)) (Fin 0.95)
    = (Fin (INR 50 / (INR 50 + 1.96 ^ 2)), Fin 1)
  /\ INR 50 / (INR 50 + 1.96 ^ 2) < 1
  /\ 0 < 1.96 ^ 2 / (INR 50 + 1.96 ^ 2).
Proof. apply (wilsonCI_boundary 50); lia. Defined.

Lemma wilson_mirror (z h n : R) :
  0 < n ->
  wilson_center z ((n - h) / n) n = 1 - wilson_center z (h / n) n
  /\ wilson_margin z ((n - h) / n) n = wilson_margin z (h / n) n.
Proof.
  intros Hn.
  assert (Hd : 1 + z ^ 2 / n <> 0).
  { assert (0 <= z ^ 2 / n)
      by (apply Rmult_le_pos; [nra | left; now apply Rinv_0_lt_compat]).
    lra. }
  unfold wilson_center, wilson_margin. split.
  - field. split; [lra |]. intros E. apply Hd.
    replace (1 + z ^ 2 / n) with ((n + z ^ 2) / n) by (field; lra).
    rewrite E. unfold Rdiv. ring.
  - f_equal. f_equal. f_equal. f_equal. field. lra.
Qed.

(** X2: the interval of the misses mirrors the interval of the hits:
    if [wilsonCI(h, n)] is [lo, hi] then [wilsonCI(n - h, n)] is
    [1 - hi, 1 - lo]. *)
Theorem wilsonCI_mirror (h n : nat) :
  (h <= n)%nat -> (1 <= n)%nat ->
  exists lo hi : R,
    wilsonCI (Fin (INR h)) (Fin (INR n)) (Fin 0.95) = (Fin lo, Fin hi)
    /\ wilsonCI (Fin (INR (n - h))) (Fin (INR n)) (Fin 0.95)
       = (Fin (1 - hi), Fin (1 - lo)).
Proof.
  intros Hh Hn.
  destruct (count_bounds h n Hh Hn) as [Hb Hpos].
  destruct (count_bounds (n - h) n) as [Hb' _]; [lia | assumption |].
  rewrite !wilsonCI_real by assumption.
  rewrite Reqb_true by reflexivity.
  eexists _, _. split; [reflexivity |].
  unfold interval_num, wilson_interval; cbn [fst snd].
  rewrite minus_INR by assumption.
  destruct (wilson_mirror 1.96 (INR h) (INR n) Hpos) as [-> ->].
  set (c := wilson_center 1.96 (INR h / INR n) (INR n)).
  set (m := wilson_margin 1.96 (INR h / INR n) (INR n)).
  f_equal; f_equal; minmax.
Qed.

Lemma wilsonCI_mirror_witness :
  exists lo hi : R,
    wilsonCI (Fin (INR 3)) (Fin (INR 10)) (Fin 0.95) = (Fin lo, Fin hi)
    /\ wilsonCI (Fin (INR (10 - 3))) (Fin (INR 10)) (Fin 0.95)
       = (Fin (1 - hi), Fin (1 - lo)).
Proof. apply (wilsonCI_mirror 3 10); lia. Defined.

(** ** The edge tables *)

Lemma Rltb_spec (x y : R) : Rltb x y = true <-> x < y.
Proof.
  unfold Rltb. destruct (Rlt_dec x y); split; intros; try easy.
Qed.





(** X4: without a result, without a quote, or with a quote of 0 (or
    NaN), there is no edge table and no recommendation. *)
Theorem edges_need_result_and_quotes
    (yes_bid yes_ask : option num) (result : option SimResult.t) :
  result = None \/ Edges.missing yes_bid = true \/ Edges.missing yes_ask = true ->
  Edges.EdgeCalculator_edges yes_bid yes_ask result = None
  /\ Edges.getEdgeRecommendation yes_bid yes_ask result = None.
Proof.
  intros H.
  unfold Edges.EdgeCalculator_edges, Edges.getEdgeRecommendation.
  destruct result as [r |]; [| now split].
  destruct yes_bid as [bid |]; [| now split].
  destruct yes_ask as [ask |]; [| now split].
  destruct H as [H | [H | H]]; [discriminate | |]; rewrite H;
    rewrite ?orb_true_r; now split.
Qed.

Lemma edges_need_result_and_quotes_witness :
  Edges.EdgeCalculator_edges (Some (Fin 0)) (Some (Fin 57)) (Some sample_result)
  = None
  /\ Edges.getEdgeRecommendation (Some (Fin 0)) (Some (Fin 57)) (Some sample_result)
     = None.
Proof.
  apply (edges_need_result_and_quotes (Some (Fin 0)) (Some (Fin 57))
           (Some sample_result)).
  right; left. unfold Edges.missing, truthy.
  rewrite Reqb_true by reflexivity. reflexivity.
Defined.




(** ** Sums of finite series, continued *)

Lemma fold_sum_shift (g : R -> R) (l : list R) (acc : R) :
  fold_left (fun sum x => sum + g x) l acc = acc + sum_R g l.
Proof.
  unfold sum_R. revert acc.
  induction l as [| x l IH]; intros acc; cbn [fold_left]; [lra |].
  rewrite IH, (IH (0 + g x)). lra.
Qed.

Lemma sum_R_nil (g : R -> R) : sum_R g [] = 0.
Proof. reflexivity. Qed.

Lemma sum_R_cons (g : R -> R) (x : R) (l : list R) :
  sum_R g (x :: l) = g x + sum_R g l.
Proof. unfold sum_R at 1. cbn [fold_left]. rewrite fold_sum_shift. lra. Qed.

Lemma sum_R_app (g : R -> R) (l l' : list R) :
  sum_R g (l ++ l') = sum_R g l + sum_R g l'.
Proof.
  induction l as [| x l IH]; cbn [app].
  - rewrite sum_R_nil. lra.
  - rewrite !sum_R_cons, IH. lra.
Qed.

Lemma sum_R_ext (g g' : R -> R) (l : list R) :
  (forall x, In x l -> g x = g' x) -> sum_R g l = sum_R g' l.
Proof.
  induction l as [| x l IH]; intros H; [reflexivity |].
  rewrite !sum_R_cons, IH, (H x) by (intros; apply H; now right) || now left.
  reflexivity.
Qed.

Lemma sum_R_zero (g : R -> R) (l : list R) :
  (forall x, 0 <= g x) -> sum_R g l = 0 -> forall x, In x l -> g x = 0.
Proof.
  intros Hg. induction l as [| y l IH]; intros Hsum x Hin; [contradiction |].
  rewrite sum_R_cons in Hsum.
  assert (H0 := sum_R_nonneg g l Hg). assert (Hy := Hg y).
  destruct Hin as [-> | Hin]; [lra |].
  apply IH; [lra | assumption].
Qed.

Lemma sum_R_filter_le (g : R -> R) (f : R -> bool) (l : list R) :
  (forall x, 0 <= g x) -> sum_R g (filter f l) <= sum_R g l.
Proof.
  intros Hg. induction l as [| x l IH]; cbn [filter]; [lra |].
  assert (Hx := Hg x).
  destruct (f x); rewrite !sum_R_cons; lra.
Qed.

Lemma sum_R_above (g : R -> R) (c : R) (l : list R) :
  (forall x, In x l -> c < g x) -> l <> [] ->
  c * INR (List.length l) < sum_R g l.
Proof.
  induction l as [| x l IH]; intros H Hne; [contradiction |].
  rewrite sum_R_cons. change (List.length (x :: l)) with (S (List.length l)).
  rewrite S_INR.
  assert (Hx : c < g x) by (apply H; now left).
  destruct l as [| y l'].
  - rewrite sum_R_nil. cbn [List.length INR]. lra.
  - assert (c * INR (List.length (y :: l')) < sum_R g (y :: l')).
    { apply IH; [intros; apply H; now right | discriminate]. }
    lra.
Qed.

Lemma sum_R_constant (c : R) (l : list R) :
  (forall x, In x l -> x = c) -> sum_R (fun r => r) l = INR (List.length l) * c.
Proof.
  induction l as [| x l IH]; intros H.
  - rewrite sum_R_nil. cbn [List.length INR]. lra.
  - rewrite sum_R_cons, IH by (intros; apply H; now right).
    change (List.length (x :: l)) with (S (List.length l)). rewrite S_INR.
    rewrite (H x) by now left. lra.
Qed.

Lemma sq_dev_nonneg (m x : R) : 0 <= (x - m) * (x - m).
Proof. change (0 <= Rsqr (x - m)). apply Rle_0_sqr. Qed.

(** The squared deviations add up to (n - 1) times the variance. *)
Lemma stddev_R_square (l : list R) :
  (2 <= List.length l)%nat ->
  stddev_R l * stddev_R l * (INR (List.length l) - 1)
  = sum_R (fun r => (r - mean_R l) * (r - mean_R l)) l.
Proof.
  intros Hlen. unfold stddev_R.
  destruct (List.length l <? 2)%nat eqn:E; [apply Nat.ltb_lt in E; lia |].
  assert (Hn : 2 <= INR (List.length l)) by (apply (le_INR 2); assumption).
  rewrite sqrt_sqrt.
  - field. lra.
  - apply Rmult_le_pos.
    + apply sum_R_nonneg. intros x. apply sq_dev_nonneg.
    + left. apply Rinv_0_lt_compat. lra.
Qed.

(** ** Realized volatility *)

Lemma stddev_R_zero_iff (l : list R) :
  stddev_R l = 0 <-> (forall x y, In x l -> In y l -> x = y).
Proof.
  destruct (le_lt_dec 2 (List.length l)) as [Hlen | Hlen].
  - assert (Hn : 2 <= INR (List.length l)) by (apply (le_INR 2); assumption).
    assert (Hsq := stddev_R_square l Hlen).
    split.
    + intros H0. rewrite H0 in Hsq.
      assert (Hall : forall x, In x l -> x = mean_R l).
      { intros x Hin.
        assert (Hx : (x - mean_R l) * (x - mean_R l) = 0).
        { apply (sum_R_zero (fun r => (r - mean_R l) * (r - mean_R l)) l);
            [intros; apply sq_dev_nonneg | lra | assumption]. }
        nra. }
      intros x y Hx Hy. now rewrite (Hall x Hx), (Hall y Hy).
    + intros Hconst.
      destruct l as [| c l']; [cbn in Hlen; lia |].
      assert (Hall : forall x, In x (c :: l') -> x = c)
        by (intros x Hin; apply Hconst; [assumption | now left]).
      assert (Hmean : mean_R (c :: l') = c).
      { unfold mean_R. rewrite (sum_R_constant c) by assumption. field. lra. }
      assert (Hsum : sum_R (fun r => (r - mean_R (c :: l')) * (r - mean_R (c :: l')))
                       (c :: l') = 0).
      { rewrite (sum_R_ext _ (fun _ => 0)).
        - clear. induction (c :: l') as [| x l IH]; [reflexivity |].
          rewrite sum_R_cons, IH. lra.
        - intros x Hin. rewrite Hmean, (Hall x Hin). ring. }
      rewrite Hsum in Hsq.
      assert (Hs := stddev_R_nonneg (c :: l')). nra.
  - split.
    + intros _ x y Hx Hy.
      destruct l as [| a [| b l']]; [contradiction | | cbn in Hlen; lia].
      destruct Hx as [<- | []], Hy as [<- | []]. reflexivity.
    + intros _. unfold stddev_R.
      destruct (List.length l <? 2)%nat eqn:E; [reflexivity |].
      apply Nat.ltb_ge in E. lia.
Qed.

(** X6: on finite returns [realizedVolatility] is a finite non-negative
    number, and it is 0 exactly when all returns are equal (as they are
    when there are fewer than two). *)
Theorem realizedVolatility_zero_iff_constant (returns : list R) :
  exists sigma : R,
    realizedVolatility (map Fin returns) = Fin sigma
    /\ 0 <= sigma
    /\ (sigma = 0 <-> forall x y, In x returns -> In y returns -> x = y).
Proof.
  exists (stddev_R returns). split; [apply realizedVolatility_Fin |].
  split; [apply stddev_R_nonneg | apply stddev_R_zero_iff].
Qed.

(** ** How many returns can be flagged *)

Lemma mean_R_single (x : R) : mean_R [x] = x.
Proof. unfold mean_R. rewrite sum_R_cons, sum_R_nil. cbn [List.length INR]. field. Qed.

Lemma outliers_need_two (t : R) (l : list R) :
  0 <= t -> flagged_returns t l <> [] -> (2 <= List.length l)%nat.
Proof.
  intros Ht Hne.
  destruct l as [| x [| y l']]; [now contradiction Hne | | cbn; lia].
  exfalso. apply Hne. unfold flagged_returns. cbn [filter].
  rewrite mean_R_single. unfold stddev_R. cbn [List.length Nat.ltb Nat.leb].
  rewrite Rltb_false; [reflexivity |].
  replace (x - x) with 0 by ring. rewrite Rabs_R0. lra.
Qed.

(** Chebyshev's bound on the number of flagged returns. *)
Lemma outliers_bound (t : R) (l : list R) :
  0 <= t -> flagged_returns t l <> [] ->
  INR (List.length (flagged_returns t l)) * (t * t) < INR (List.length l) - 1.
Proof.
  intros Ht Hne.
  assert (Hlen := outliers_need_two t l Ht Hne).
  assert (Hn : 2 <= INR (List.length l)) by (apply (le_INR 2); assumption).
  assert (Hsq := stddev_R_square l Hlen).
  assert (Hsd := stddev_R_nonneg l).
  set (sd := stddev_R l) in *. set (m := mean_R l) in *.
  set (g := fun r => (r - m) * (r - m)) in *.
  assert (Habove : (t * sd) * (t * sd) * INR (List.length (flagged_returns t l))
                   < sum_R g (flagged_returns t l)).
  { apply sum_R_above; [| assumption].
    intros x Hin. unfold flagged_returns in Hin.
    apply filter_In in Hin as [_ Hx]. apply Rltb_spec in Hx.
    fold sd m in Hx. unfold g.
    assert (0 <= t * sd) by (apply Rmult_le_pos; assumption).
    assert (Hsqr : Rabs (x - m) * Rabs (x - m) = (x - m) * (x - m)).
    { unfold Rabs. destruct (Rcase_abs (x - m)); ring. }
    rewrite <- Hsqr. nra. }
  assert (Hle : sum_R g (flagged_returns t l) <= sum_R g l).
  { unfold flagged_returns. apply sum_R_filter_le. intros x. apply sq_dev_nonneg. }
  set (k := INR (List.length (flagged_returns t l))) in *.
  assert (Hk : 0 <= k) by apply pos_INR.
  assert (Hmain : sd * sd * (k * (t * t)) < sd * sd * (INR (List.length l) - 1)).
  { rewrite Hsq. replace (sd * sd * (k * (t * t))) with (t * sd * (t * sd) * k) by ring.
    lra. }
  assert (Hpos : 0 < sd * sd).
  { destruct (Req_dec_T sd 0) as [E | E]; [| nra].
    rewrite E in Hmain. lra. }
  apply (Rmult_lt_reg_l (sd * sd)); assumption.
Qed.

(** X7: in exact arithmetic, on finite returns, [detectJumps] with a
    threshold t >= 0 flags k returns among n only if k t^2 < n - 1: with
    the threshold 3, fewer than a ninth of the returns, and none among
    ten or fewer.  In binary64 the bound can fail where it is tight and
    where squares underflow ([detectJumps_binary64_at_equality],
    [detectJumps_binary64_underflow]). *)
Theorem detectJumps_count_bound (returns : list R) (threshold : R) :
  0 <= threshold ->
  exists jumps : list R,
    detectJumps (map Fin returns) (Fin threshold) = map Fin jumps
    /\ (jumps = []
        \/ INR (List.length jumps) * (threshold * threshold)
           < INR (List.length returns) - 1).
Proof.
  intros Ht.
  destruct returns as [| x l].
  - exists []. split; [reflexivity | now left].
  - exists (flagged_returns threshold (x :: l)). split.
    + apply detectJumps_Fin. discriminate.
    + destruct (flagged_returns threshold (x :: l)) eqn:E; [now left | right].
      rewrite <- E. apply outliers_bound; [assumption |]. now rewrite E.
Qed.

Lemma detectJumps_count_bound_witness :
  exists jumps : list R,
    detectJumps (map Fin one_outlier) (Fin 3) = map Fin jumps
    /\ (jumps = []
        \/ INR (List.length jumps) * (3 * 3) < INR (List.length one_outlier) - 1).
Proof. apply (detectJumps_count_bound one_outlier 3). lra. Defined.

Lemma few_returns_no_outlier (l : list R) :
  (List.length l <= 10)%nat -> flagged_returns 3 l = [].
Proof.
  intros Hlen.
  destruct (flagged_returns 3 l) eqn:E; [reflexivity | exfalso].
  assert (Hne : flagged_returns 3 l <> []) by (rewrite E; discriminate).
  assert (Hb := outliers_bound 3 l ltac:(lra) Hne).
  rewrite E in Hb. change (List.length (r :: l0)) with (S (List.length l0)) in Hb.
  rewrite S_INR in Hb.
  assert (0 <= INR (List.length l0)) by apply pos_INR.
  assert (H10 : INR (List.length l) <= INR 10) by (apply le_INR; assumption).
  rewrite (INR_IZR_INZ 10) in H10. cbn [Z.of_nat Pos.of_succ_nat Pos.succ] in H10.
  lra.
Qed.

(** X8: in exact arithmetic, from ten or fewer finite returns (none
    included) [estimateJumpParams] returns the constant
    [DEFAULT_JUMP_PARAMS].  In binary64 the deviation of returns below
    1e-154 underflows to 0 and such returns are flagged
    ([detectJumps_binary64_underflow]). *)
Theorem estimateJumpParams_few_returns (returns : list R) :
  (List.length returns <= 10)%nat ->
  Calibrate.estimateJumpParams (map Fin returns) (Fin 3) = DEFAULT_JUMP_PARAMS.
Proof.
  intros Hlen. apply estimateJumpParams_no_jump.
  destruct returns as [| x l]; [reflexivity |].
  rewrite detectJumps_Fin by discriminate.
  fold (flagged_returns 3 (x :: l)).
  now rewrite few_returns_no_outlier.
Qed.

Lemma estimateJumpParams_few_returns_witness :
  Calibrate.estimateJumpParams (map Fin [0.001; -0.002; 0.05]) (Fin 3)
  = DEFAULT_JUMP_PARAMS.
Proof.
  apply (estimateJumpParams_few_returns [0.001; -0.002; 0.05]).
  cbn [List.length]. lia.
Defined.

(** ** The jump bundle with at least two jumps *)

Lemma log_jumps_Fin (jumps : list R) :
  (forall j, In j jumps -> j <> 0) ->
  map (fun j => nlog (nabs j)) (map Fin jumps)
  = map Fin (map (fun j => ln (Rabs j)) jumps).
Proof.
  induction jumps as [| j l IH]; intros H; [reflexivity |].
  cbn [map]. rewrite IH by (intros; apply H; now right).
  f_equal. rewrite nabs_Fin. unfold nlog.
  assert (Hj : 0 < Rabs j) by (apply Rabs_pos_lt; apply H; now left).
  rewrite Rltb_false by lra. now rewrite Reqb_false by lra.
Qed.

(** The sample deviation written out in [estimateJumpParams] is that of
    [realizedVolatility] once there are two values. *)
Lemma sample_deviation_Fin (xs : list R) :
  (2 <= List.length xs)%nat ->
  let mu := (sum_by (fun j => j) (map Fin xs) / length_num (map Fin xs))%num in
  nsqrt (sum_by (fun j => npow2 (j - mu)) (map Fin xs)
         / (length_num (map Fin xs) - #1))%num
  = Fin (stddev_R xs).
Proof.
  intros Hlen. cbv zeta.
  rewrite <- realizedVolatility_Fin. unfold realizedVolatility.
  rewrite length_map.
  destruct (List.length xs <? 2)%nat eqn:E; [apply Nat.ltb_lt in E; lia |].
  reflexivity.
Qed.

(** X9: in exact arithmetic, when at least two of the finite returns
    are flagged and none of the flagged ones is 0, the bundle has
    lambda = max(0.01, k/n) with k/n < 1/9 (the upper clamp at 1 is not
    reached), mu_j = 0, sigma_j = the sample standard deviation of
    ln|jump| clamped to [0.01, 0.1], and kind merton.  In binary64 the
    share k/n can reach 1 after an underflow
    ([detectJumps_binary64_underflow]). *)
Theorem estimateJumpParams_two_jumps (returns jumps : list R) :
  detectJumps (map Fin returns) (Fin 3) = map Fin jumps ->
  (2 <= List.length jumps)%nat ->
  (forall j, In j jumps -> j <> 0) ->
  let share := INR (List.length jumps) / INR (List.length returns) in
  Calibrate.estimateJumpParams (map Fin returns) (Fin 3)
  = JObj [ ("lambda", JNum (Fin (Rmax 0.01 share)));
           ("mu_j", JNum (Fin 0));
           ("sigma_j",
            JNum (Fin (clampR 0.01 0.1
                         (stddev_R (map (fun j => ln (Rabs j)) jumps)))));
           ("kind", JStr "merton") ]%string
  /\ share < 1 / 9.
Proof.
  intros Hjumps Hlen Hnz share.
  assert (Hret : returns <> []).
  { intros ->. cbn in Hjumps. destruct jumps; [cbn in Hlen; lia | discriminate]. }
  assert (Hflag : jumps = flagged_returns 3 returns).
  { rewrite detectJumps_Fin in Hjumps by assumption.
    fold (flagged_returns 3 returns) in Hjumps.
    clear - Hjumps. revert Hjumps. generalize (flagged_returns 3 returns).
    induction jumps as [| j l IH]; intros [| j' l'] H; try discriminate;
      [reflexivity |].
    cbn [map] in H. injection H as -> H. f_equal. now apply IH. }
  assert (Hn : 0 < INR (List.length returns)).
  { apply lt_0_INR. destruct returns; [contradiction | cbn; lia]. }
  assert (Hshare : share < 1 / 9).
  { assert (Hb : INR (List.length jumps) * (3 * 3) < INR (List.length returns) - 1).
    { rewrite Hflag. apply outliers_bound; [lra |].
      rewrite <- Hflag. destruct jumps; [cbn in Hlen; lia | discriminate]. }
    unfold share. apply (Rmult_lt_reg_r (INR (List.length returns))); [assumption |].
    unfold Rdiv. rewrite Rmult_assoc, Rinv_l by lra. lra. }
  split; [| assumption].
  unfold Calibrate.estimateJumpParams. rewrite Hjumps.
  rewrite !length_map.
  destruct (List.length jumps =? 0)%nat eqn:E; [apply Nat.eqb_eq in E; lia |].
  cbv zeta.
  rewrite log_jumps_Fin by assumption.
  rewrite sample_deviation_Fin by (now rewrite length_map).
  rewrite !length_num_Fin, ndiv_Fin by lra.
  fin_arith ltac:(lra). fold share.
  replace (Rmax 0.01 (Rmin 1 share)) with (Rmax 0.01 share)
    by (rewrite (Rmin_right 1 share) by lra; reflexivity).
  reflexivity.
Qed.

Lemma two_outliers_mean : mean_R two_outliers = 0.
Proof.
  unfold mean_R, sum_R, two_outliers.
  cbn [repeat app fold_left List.length].
  rewrite INR_IZR_INZ. cbn [Z.of_nat Pos.of_succ_nat Pos.succ]. lra.
Qed.

Lemma two_outliers_stddev : stddev_R two_outliers = 0.005.
Proof.
  unfold stddev_R. rewrite two_outliers_mean.
  unfold sum_R, two_outliers.
  cbn [repeat app fold_left List.length Nat.ltb Nat.leb].
  rewrite INR_IZR_INZ. cbn [Z.of_nat Pos.of_succ_nat Pos.succ].
  match goal with |- sqrt ?e = _ => replace e with (0.005 * 0.005) by lra end.
  apply sqrt_square. lra.
Qed.

Lemma filter_repeat_none {A} (f : A -> bool) (x : A) (n : nat) :
  f x = false -> filter f (repeat x n) = [].
Proof.
  intros H. induction n as [| n IH]; [reflexivity |].
  cbn [repeat filter]. now rewrite H.
Qed.

Lemma two_outliers_jumps :
  detectJumps (map Fin two_outliers) (Fin 3) = map Fin [0.02; - 0.02].
Proof.
  rewrite detectJumps_Fin by discriminate.
  rewrite two_outliers_mean, two_outliers_stddev.
  unfold two_outliers. rewrite filter_app.
  rewrite filter_repeat_none.
  2:{ apply Rltb_false. replace (0 - 0) with 0 by ring. rewrite Rabs_R0. lra. }
  cbn [app filter].
  rewrite (Rltb_true (3 * 0.005) (Rabs (0.02 - 0)))
    by (rewrite Rabs_pos_eq by lra; lra).
  rewrite (Rltb_true (3 * 0.005) (Rabs (- 0.02 - 0)))
    by (rewrite Rabs_left by lra; lra).
  reflexivity.
Qed.

Lemma estimateJumpParams_two_jumps_witness :
  Calibrate.estimateJumpParams (map Fin two_outliers) (Fin 3)
  = JObj [ ("lambda",
            JNum (Fin (Rmax 0.01
                         (INR (List.length [0.02; - 0.02])
                          / INR (List.length two_outliers)))));
           ("mu_j", JNum (Fin 0));
           ("sigma_j",
            JNum (Fin (clampR 0.01 0.1
                         (stddev_R (map (fun j => ln (Rabs j)) [0.02; - 0.02])))));
           ("kind", JStr "merton") ]%string
  /\ INR (List.length [0.02; - 0.02]) / INR (List.length two_outliers) < 1 / 9.
Proof.
  apply (estimateJumpParams_two_jumps two_outliers [0.02; - 0.02]).
  - exact two_outliers_jumps.
  - cbn [List.length]. lia.
  - intros j [<- | [<- | []]]; lra.
Defined.

(** ** The EWMA volatility *)

Lemma ewma_loop_bounds (lambda lo hi : R) (rest : list R) (i : nat) (v : R) :
  0 <= lambda <= 1 -> lo <= v <= hi ->
  (forall r, In r rest -> lo <= r * r <= hi) ->
  exists v',
    ewma_loop (Fin lambda) (map Fin rest) (S i) (Fin v) = Fin v'
    /\ lo <= v' <= hi.
Proof.
  intros Hl. revert i v.
  induction rest as [| r rest IH]; intros i v Hv Hrest; cbn [map ewma_loop].
  - now exists v.
  - fin_arith ltac:(lra).
    apply IH; [| intros; apply Hrest; now right].
    assert (Hr : lo <= r * r <= hi) by (apply Hrest; now left).
    replace (lambda * v + (1 - lambda) * r * r)
      with (lambda * v + (1 - lambda) * (r * r)) by ring.
    split; nra.
Qed.

(** X10: in exact arithmetic, for finite returns, not none, and a decay
    between 0 and 1, [ewmaVolatility] lies between the smallest and the
    largest absolute return; of a single return it is the absolute
    value.  In binary64 the result can fall outside by a rounding error
    ([ewmaVolatility_binary64_below_returns]). *)
Theorem ewmaVolatility_between_extremes (returns : list R) (lambda lo hi : R) :
  returns <> [] -> 0 <= lambda <= 1 -> 0 <= lo ->
  (forall r, In r returns -> lo <= Rabs r <= hi) ->
  exists sigma : R,
    ewmaVolatility (map Fin returns) (Fin lambda) = Fin sigma
    /\ lo <= sigma <= hi.
Proof.
  intros Hne Hl Hlo Hall.
  destruct returns as [| x rest]; [contradiction |].
  assert (Hsq : forall r, In r (x :: rest) -> lo * lo <= r * r <= hi * hi).
  { intros r Hin. destruct (Hall r Hin) as [H1 H2].
    assert (Habs : Rabs r * Rabs r = r * r)
      by (unfold Rabs; destruct (Rcase_abs r); ring).
    rewrite <- Habs. split; nra. }
  unfold ewmaVolatility. cbn [map ewma_loop]. rewrite nmul_Fin.
  destruct (ewma_loop_bounds lambda (lo * lo) (hi * hi) rest 0 (x * x))
    as (v & Hv & Hb); [assumption | apply Hsq; now left | |].
  { intros r Hin. apply Hsq. now right. }
  rewrite Hv.
  assert (Hhi : 0 <= hi) by (destruct (Hall x (or_introl eq_refl)); lra).
  assert (H0 : 0 <= v) by nra.
  rewrite nsqrt_Fin by assumption.
  exists (sqrt v). split; [reflexivity |].
  split.
  - rewrite <- (sqrt_square lo) by assumption. apply sqrt_le_1; nra.
  - rewrite <- (sqrt_square hi) by assumption. apply sqrt_le_1; nra.
Qed.

Lemma ewmaVolatility_between_extremes_witness :
  exists sigma : R,
    ewmaVolatility (map Fin [0.01; - 0.02]) (Fin 0.94) = Fin sigma
    /\ 0.01 <= sigma <= 0.02.
Proof.
  apply (ewmaVolatility_between_extremes [0.01; - 0.02] 0.94 0.01 0.02).
  - discriminate.
  - lra.
  - lra.
  - intros r [<- | [<- | []]].
    + rewrite Rabs_pos_eq by lra. lra.
    + rewrite Rabs_left by lra. lra.
Defined.

(** ** Log returns *)

Lemma calculateReturns_step (prev cur : BTCCandle) (rest : list BTCCandle) :
  Calibrate.calculateReturns (prev :: cur :: rest)
  = nlog (close cur / close prev)%num :: Calibrate.calculateReturns (cur :: rest).
Proof. reflexivity. Qed.

Lemma log_returns_step (prev cur : R) (rest : list R) :
  log_returns (prev :: cur :: rest)
  = ln (cur / prev) :: log_returns (cur :: rest).
Proof. reflexivity. Qed.

Lemma calculateReturns_Fin (candles : list BTCCandle) (closes : list R) :
  map close candles = map Fin closes ->
  (forall c, In c closes -> 0 < c) ->
  Calibrate.calculateReturns candles = map Fin (log_returns closes).
Proof.
  revert closes.
  induction candles as [| prev rest IH]; intros closes Hc Hpos.
  - destruct closes; [reflexivity | discriminate].
  - destruct closes as [| a closes']; [discriminate |].
    cbn [map] in Hc. injection Hc as Ha Hrest.
    destruct rest as [| cur rest'].
    + destruct closes'; [reflexivity | discriminate].
    + destruct closes' as [| b closes'']; [discriminate |].
      assert (Hb : close cur = Fin b) by (cbn [map] in Hrest; now injection Hrest).
      rewrite calculateReturns_step, log_returns_step. cbn [map].
      rewrite (IH (b :: closes'')) by (assumption || (intros; apply Hpos; now right)).
      f_equal. rewrite Ha, Hb.
      assert (0 < a) by (apply Hpos; now left).
      assert (0 < b) by (apply Hpos; right; now left).
      rewrite ndiv_Fin by lra. unfold nlog.
      assert (0 < b / a) by (apply Rdiv_lt_0_compat; assumption).
      rewrite Rltb_false by lra. now rewrite Reqb_false by lra.
Qed.

Lemma log_returns_length (closes : list R) :
  List.length (log_returns closes) = (List.length closes - 1)%nat.
Proof.
  induction closes as [| a [| b l] IH]; [reflexivity | reflexivity |].
  rewrite log_returns_step. cbn [List.length] in *. lia.
Qed.

Lemma log_returns_sum (closes : list R) :
  (forall c, In c closes -> 0 < c) ->
  sum_R (fun r => r) (log_returns closes) = ln (last closes 1) - ln (hd 1 closes).
Proof.
  induction closes as [| a [| b l] IH]; intros Hpos.
  - cbn [log_returns last hd]. rewrite sum_R_nil. lra.
  - cbn [log_returns last hd]. rewrite sum_R_nil. lra.
  - rewrite log_returns_step, sum_R_cons.
    rewrite IH by (intros; apply Hpos; now right).
    assert (0 < a) by (apply Hpos; now left).
    assert (0 < b) by (apply Hpos; right; now left).
    unfold Rdiv. rewrite ln_mult by (try apply Rinv_0_lt_compat; assumption).
    rewrite ln_Rinv by assumption.
    change (last (a :: b :: l) 1) with (last (b :: l) 1).
    cbn [hd]. lra.
Qed.

(** X11: from candles with positive finite closes [calculateReturns]
    makes one finite return per consecutive pair (none from fewer than
    two candles), and the returns add up to the logarithm of the last
    close over the first. *)
Theorem calculateReturns_telescopes (candles : list BTCCandle) (closes : list R) :
  map close candles = map Fin closes ->
  (forall c, In c closes -> 0 < c) ->
  exists returns : list R,
    Calibrate.calculateReturns candles = map Fin returns
    /\ List.length returns = (List.length candles - 1)%nat
    /\ sum_R (fun r => r) returns = ln (last closes 1) - ln (hd 1 closes).
Proof.
  intros Hc Hpos. exists (log_returns closes).
  split; [now apply calculateReturns_Fin |].
  split; [| now apply log_returns_sum].
  rewrite log_returns_length.
  apply (f_equal (@List.length num)) in Hc. rewrite !length_map in Hc. lia.
Qed.

Lemma calculateReturns_telescopes_witness :
  exists returns : list R,
    Calibrate.calculateReturns sample_candles = map Fin returns
    /\ List.length returns = (List.length sample_candles - 1)%nat
    /\ sum_R (fun r => r) returns
       = ln (last [60000; 60300; 60150] 1) - ln (hd 1 [60000; 60300; 60150]).
Proof.
  apply (calculateReturns_telescopes sample_candles [60000; 60300; 60150]).
  - reflexivity.
  - intros c [<- | [<- | [<- | []]]]; lra.
Defined.

(** Quoting every price in another unit. *)
Lemma ndiv_scale (k : R) (a b : num) :
  0 < k -> ((Fin k * a) / (Fin k * b))%num = (a / b)%num.
Proof.
  intros Hk.
  assert (Hk0 : Reqb k 0 = false) by (apply Reqb_false; lra).
  assert (Hkp : Rltb 0 k = true) by (now apply Rltb_true).
  assert (Hkn : Rltb k 0 = false) by (apply Rltb_false; lra).
  destruct a as [x | | |], b as [y | | |];
    cbn [nmul ndiv signed_inf]; rewrite ?Hk0, ?Hkp, ?Hkn;
    cbn [nmul ndiv signed_inf]; try reflexivity.
  - destruct (Req_dec_T y 0) as [-> | Hy].
    + rewrite Rmult_0_r. rewrite (Reqb_true 0 0) by reflexivity.
      destruct (Req_dec_T x 0) as [-> | Hx].
      * rewrite Rmult_0_r. now rewrite (Reqb_true 0 0).
      * rewrite (Reqb_false x 0), (Reqb_false (k * x) 0) by nra.
        f_equal. unfold Rltb.
        destruct (Rlt_dec 0 (k * x)), (Rlt_dec 0 x); try reflexivity; nra.
    + rewrite (Reqb_false y 0), (Reqb_false (k * y) 0) by nra.
      f_equal. field. lra.
  - f_equal. f_equal. unfold Rltb.
    destruct (Rlt_dec (k * y) 0), (Rlt_dec y 0); try reflexivity; nra.
  - f_equal. unfold Rltb.
    destruct (Rlt_dec (k * y) 0), (Rlt_dec y 0); try reflexivity; nra.
Qed.

Lemma calculateReturns_scale (k : R) (candles : list BTCCandle) :
  0 < k ->
  Calibrate.calculateReturns (map (scale_candle k) candles)
  = Calibrate.calculateReturns candles.
Proof.
  intros Hk.
  induction candles as [| prev [| cur rest] IH]; [reflexivity | reflexivity |].
  change (map (scale_candle k) (prev :: cur :: rest))
    with (scale_candle k prev :: scale_candle k cur :: map (scale_candle k) rest).
  rewrite !calculateReturns_step.
  change (scale_candle k cur :: map (scale_candle k) rest)
    with (map (scale_candle k) (cur :: rest)).
  rewrite IH. cbn [scale_candle close]. now rewrite ndiv_scale.
Qed.

Lemma fold_sum_by_ext {A} (f g : A -> num) (l : list A) (acc : num) :
  (forall x, f x = g x) ->
  fold_left (fun sum x => (sum + f x)%num) l acc
  = fold_left (fun sum x => (sum + g x)%num) l acc.
Proof.
  intros H. revert acc.
  induction l as [| x l IH]; intros acc; cbn [fold_left]; [reflexivity |].
  now rewrite H, IH.
Qed.

Lemma fold_sum_by_map {A B} (h : A -> B) (f : B -> num) (l : list A) (acc : num) :
  fold_left (fun sum x => (sum + f x)%num) (map h l) acc
  = fold_left (fun sum x => (sum + f (h x))%num) l acc.
Proof.
  revert acc. induction l as [| x l IH]; intros acc; cbn [map fold_left];
    [reflexivity | apply IH].
Qed.

(** X12: quoting all prices in another unit changes neither the log
    returns nor the Parkinson volatility: for every positive finite
    factor, whatever the candles hold. *)
Theorem volatility_inputs_scale_free (k : R) (candles : list BTCCandle) :
  0 < k ->
  Calibrate.calculateReturns (map (scale_candle k) candles)
    = Calibrate.calculateReturns candles
  /\ Calibrate.parkinsonVolatility (map (scale_candle k) candles)
    = Calibrate.parkinsonVolatility candles.
Proof.
  intros Hk. split; [now apply calculateReturns_scale |].
  unfold Calibrate.parkinsonVolatility.
  destruct candles as [| c rest]; [reflexivity |].
  change (map (scale_candle k) (c :: rest))
    with (scale_candle k c :: map (scale_candle k) rest) at 1.
  cbv iota beta.
  unfold length_num. rewrite length_map.
  unfold sum_by. rewrite fold_sum_by_map.
  rewrite (fold_sum_by_ext
             (fun x => npow2 (nlog (high (scale_candle k x) / low (scale_candle k x))%num))
             (fun x => npow2 (nlog (high x / low x)%num)));
    [reflexivity |].
  intros x. cbn [scale_candle high low]. now rewrite ndiv_scale.
Qed.

Lemma volatility_inputs_scale_free_witness :
  Calibrate.calculateReturns (map (scale_candle 100) sample_candles)
    = Calibrate.calculateReturns sample_candles
  /\ Calibrate.parkinsonVolatility (map (scale_candle 100) sample_candles)
    = Calibrate.parkinsonVolatility sample_candles.
Proof. apply (volatility_inputs_scale_free 100 sample_candles). lra. Defined.

(** ** Heston calibration on every finite input *)

Lemma clamp_cases (lo hi x : R) : lo <= hi -> lo <= clampR lo hi x <= hi.
Proof. intros H. unfold clampR. minmax. Qed.

(** X13: on finite inputs [calibrateHestonParams] returns kappa 2 or
    3, theta in [1e-4, 0.25] and rho = -0.5; xi is in [0.1, 0.5], except
    that it is NaN when dailyRV and intradayRV are both 0. *)
Theorem calibrateHestonParams_range (dailyRV weeklyRV intradayRV : R) :
  let params :=
    Calibrate.calibrateHestonParams (Fin dailyRV) (Fin weeklyRV) (Fin intradayRV) in
  (kappa params = Fin 2 \/ kappa params = Fin 3)
  /\ (exists th, theta params = Fin th /\ 0.0001 <= th <= 0.25)
  /\ rho params = Fin (- 0.5)
  /\ (dailyRV = 0 /\ intradayRV = 0 -> xi params = NaN)
  /\ (dailyRV <> 0 \/ intradayRV <> 0 ->
      exists x, xi params = Fin x /\ 0.1 <= x <= 0.5).
Proof.
  intros params. unfold params, Calibrate.calibrateHestonParams. cbv zeta.
  cbn [kappa theta xi rho].
  split; [| split; [| split; [| split]]].
  - rewrite nsub_Fin, nabs_Fin. unfold ngt, nlt.
    destruct (Rltb 0.01 (Rabs (intradayRV - dailyRV)));
      rewrite nmin_Fin, nmax_Fin; [right | left]; f_equal; minmax.
  - fin_arith ltac:(lra). eexists. split; [reflexivity |].
    apply (clamp_cases 0.0001 0.25). lra.
  - rewrite nmin_Fin, nmax_Fin. f_equal. minmax.
  - intros [-> ->]. rewrite nsub_Fin, nabs_Fin.
    replace (0 - 0) with 0 by ring. rewrite Rabs_R0.
    unfold ndiv. rewrite !(Reqb_true 0 0) by reflexivity. reflexivity.
  - intros Hnz. rewrite nsub_Fin, nabs_Fin.
    destruct (Req_dec_T dailyRV 0) as [Hd | Hd].
    + subst dailyRV. destruct Hnz as [Hnz | Hnz]; [contradiction |].
      assert (Hi : 0 < Rabs (intradayRV - 0)).
      { apply Rabs_pos_lt. lra. }
      unfold ndiv. rewrite (Reqb_true 0 0) by reflexivity.
      rewrite Reqb_false by lra. rewrite Rltb_true by assumption.
      change (nmin (Fin 0.5) (signed_inf true)) with (Fin 0.5).
      rewrite nmin_Fin, nmax_Fin.
      eexists. split; [reflexivity |]. minmax.
    + rewrite ndiv_Fin by assumption. fin_arith ltac:(lra).
      eexists. split; [reflexivity |].
      generalize (Rabs (intradayRV - dailyRV) / dailyRV); intros q. minmax.
Qed.

Lemma calibrateHestonParams_range_witness :
  xi (Calibrate.calibrateHestonParams (Fin 0) (Fin 0.2) (Fin 0)) = NaN
  /\ exists x,
       xi (Calibrate.calibrateHestonParams (Fin 0.2) (Fin 0.2) (Fin 0.25)) = Fin x
       /\ 0.1 <= x <= 0.5.
Proof.
  split.
  - destruct (calibrateHestonParams_range 0 0.2 0) as (_ & _ & _ & H & _).
    apply H. split; reflexivity.
  - destruct (calibrateHestonParams_range 0.2 0.2 0.25) as (_ & _ & _ & _ & H).
    apply H. left. lra.
Defined.

(** ** The regime classifier reads the last twenty returns *)

Lemma slice_last_all {A} (k : nat) (l : list A) :
  (List.length l <= k)%nat -> Calibrate.slice_last k l = l.
Proof.
  intros H. unfold Calibrate.slice_last.
  replace (List.length l - k)%nat with 0%nat by lia. reflexivity.
Qed.

Lemma slice_last_app {A} (older recent : list A) :
  Calibrate.slice_last (List.length recent) (older ++ recent) = recent.
Proof.
  unfold Calibrate.slice_last. rewrite length_app.
  replace (List.length older + List.length recent - List.length recent)%nat
    with (List.length older + 0)%nat by lia.
  rewrite skipn_app, Nat.add_0_r, skipn_all.
  replace (List.length older - List.length older)%nat with 0%nat by lia.
  reflexivity.
Qed.

(** X14: [detectRegime] depends on the last twenty returns alone:
    older returns in front of them change nothing. *)
Theorem detectRegime_last_twenty (older recent : list num) :
  List.length recent = 20%nat ->
  Calibrate.detectRegime (older ++ recent) = Calibrate.detectRegime recent.
Proof.
  intros Hlen. unfold Calibrate.detectRegime.
  rewrite length_app, Hlen.
  replace (List.length older + 20 <? 10)%nat with false
    by (symmetry; apply Nat.ltb_ge; lia).
  change (20 <? 10)%nat with false. cbv iota.
  assert (H : Calibrate.slice_last 20 (older ++ recent) = recent).
  { generalize (slice_last_app older recent). now rewrite Hlen. }
  rewrite H, (slice_last_all 20 recent) by lia.
  reflexivity.
Qed.

Lemma detectRegime_last_twenty_witness :
  Calibrate.detectRegime ([Fin 0.05; Fin (- 0.05)] ++ repeat (Fin 0.001) 20)
  = Calibrate.detectRegime (repeat (Fin 0.001) 20).
Proof.
  apply (detectRegime_last_twenty [Fin 0.05; Fin (- 0.05)] (repeat (Fin 0.001) 20)).
  reflexivity.
Defined.

(** ** The calibration route: caching and empty series *)

Lemma GET_on_success (cache : Calibrate.CalibrationCache)
    (candles : list BTCCandle * list BTCCandle * list BTCCandle)
    (now0 now1 now2 : Z) :
  Calibrate.fresh cache now0 = None ->
  snd (Calibrate.GET cache (Some candles) now0 now1 now2)
  = {| Calibrate.data := Some (fst (Calibrate.GET cache (Some candles) now0 now1 now2));
       Calibrate.timestamp := now2 |}.
Proof.
  intros Hstale. unfold Calibrate.GET. rewrite Hstale.
  destruct candles as [[minute hourly] daily]. reflexivity.
Qed.

(** X15: a calibration that succeeded is cached with the time of its
    completion; every request less than 120000 ms after it gets the
    same body and leaves the cache alone, whether the exchange answers
    or not; from 120000 ms on a failing fetch gets the default bundle,
    not the cached one. *)
Theorem GET_cache_lifetime (cache : Calibrate.CalibrationCache)
    (candles : list BTCCandle * list BTCCandle * list BTCCandle)
    (now0 now1 now2 : Z) :
  Calibrate.fresh cache now0 = None ->
  let body := fst (Calibrate.GET cache (Some candles) now0 now1 now2) in
  let cache' := snd (Calibrate.GET cache (Some candles) now0 now1 now2) in
  (forall fetched t0 t1 t2,
     (t0 - now2 < 120000)%Z ->
     Calibrate.GET cache' fetched t0 t1 t2 = (body, cache'))
  /\ (forall t0 t1 t2,
        (120000 <= t0 - now2)%Z ->
        Calibrate.GET cache' None t0 t1 t2 = (default_bundle t1, cache')).
Proof.
  intros Hstale body cache'.
  assert (Hc : cache' = {| Calibrate.data := Some body; Calibrate.timestamp := now2 |})
    by (now apply GET_on_success).
  split.
  - intros fetched t0 t1 t2 Hage.
    unfold Calibrate.GET, Calibrate.fresh. rewrite Hc.
    cbn [Calibrate.data Calibrate.timestamp].
    replace (t0 - now2 <? Calibrate.CACHE_TTL)%Z with true; [reflexivity |].
    symmetry. apply Z.ltb_lt. unfold Calibrate.CACHE_TTL. lia.
  - intros t0 t1 t2 Hage. apply GET_on_failure.
    unfold Calibrate.fresh. rewrite Hc.
    cbn [Calibrate.data Calibrate.timestamp].
    replace (t0 - now2 <? Calibrate.CACHE_TTL)%Z with false; [reflexivity |].
    symmetry. apply Z.ltb_ge. unfold Calibrate.CACHE_TTL. lia.
Qed.

Lemma GET_cache_lifetime_witness :
  (forall fetched t0 t1 t2,
     (t0 - 5 < 120000)%Z ->
     Calibrate.GET
       (snd (Calibrate.GET Calibrate.initial_cache
               (Some (sample_candles, sample_candles, sample_candles)) 0 3 5))
       fetched t0 t1 t2
     = (fst (Calibrate.GET Calibrate.initial_cache
               (Some (sample_candles, sample_candles, sample_candles)) 0 3 5),
        snd (Calibrate.GET Calibrate.initial_cache
               (Some (sample_candles, sample_candles, sample_candles)) 0 3 5)))
  /\ (forall t0 t1 t2,
        (120000 <= t0 - 5)%Z ->
        Calibrate.GET
          (snd (Calibrate.GET Calibrate.initial_cache
                  (Some (sample_candles, sample_candles, sample_candles)) 0 3 5))
          None t0 t1 t2
        = (default_bundle t1,
           snd (Calibrate.GET Calibrate.initial_cache
                  (Some (sample_candles, sample_candles, sample_candles)) 0 3 5))).
Proof.
  apply (GET_cache_lifetime Calibrate.initial_cache
           (sample_candles, sample_candles, sample_candles) 0 3 5).
  reflexivity.
Defined.

Lemma calculateReturns_short (candles : list BTCCandle) :
  (List.length candles <= 1)%nat -> Calibrate.calculateReturns candles = [].
Proof.
  destruct candles as [| a [| b l]]; [reflexivity | reflexivity |].
  cbn [List.length]. lia.
Qed.

(** X16: when the exchange answers with no hourly candle and at most
    one minute and one daily candle, the route reports all three
    volatilities as 0, with the default jumps and regime, and caches
    that bundle. *)
Theorem GET_without_candles (cache : Calibrate.CalibrationCache)
    (minute daily : list BTCCandle) (now0 now1 now2 : Z) :
  Calibrate.fresh cache now0 = None ->
  (List.length minute <= 1)%nat -> (List.length daily <= 1)%nat ->
  Calibrate.GET cache (Some (minute, [], daily)) now0 now1 now2
  = (zero_bundle now1,
     {| Calibrate.data := Some (zero_bundle now1); Calibrate.timestamp := now2 |}).
Proof.
  intros Hstale Hm Hd. unfold Calibrate.GET. rewrite Hstale.
  rewrite (calculateReturns_short minute), (calculateReturns_short daily)
    by assumption.
  cbn [Calibrate.calculateReturns]. cbv zeta.
  change (ewmaVolatility [] (Fin 0.94)) with (Fin 0).
  change (realizedVolatility []) with (Fin 0).
  change (Calibrate.parkinsonVolatility []) with (Fin 0).
  fin_arith ltac:(lra).
  replace (0.7 * 0 + 0.3 * 0) with 0 by ring.
  reflexivity.
Qed.

Lemma GET_without_candles_witness :
  Calibrate.GET Calibrate.initial_cache (Some ([], [], [])) 0 3 5
  = (zero_bundle 3,
     {| Calibrate.data := Some (zero_bundle 3); Calibrate.timestamp := 5 |}).
Proof.
  apply (GET_without_candles Calibrate.initial_cache [] [] 0 3 5);
    [reflexivity | cbn [List.length]; lia | cbn [List.length]; lia].
Defined.

(** ** The result cache: storing, reading back and updating *)

Section CacheRoundTrip.

Import SimCache.

Variable SimResult : Type.

Lemma Map_set_other (k k' : jsval) (e : CacheEntry SimResult) (m : JSMap SimResult) :
  k' <> k -> Map_get k' (Map_set k e m) = Map_get k' m.
Proof.
  intros Hne.
  induction m as [| [k0 e0] m IH]; cbn [Map_set Map_get].
  - now rewrite key_eqb_neq.
  - destruct (key_eqb k k0) eqn:E; cbn [Map_get].
    + apply key_eqb_eq in E. subst k0. now rewrite key_eqb_neq.
    + now rewrite IH.
Qed.

Lemma Map_get_keys (k : jsval) (e : CacheEntry SimResult) (m : JSMap SimResult) :
  Map_get k m = Some e -> In k (keys m).
Proof.
  induction m as [| [k0 e0] m IH]; cbn [Map_get keys map fst In]; [discriminate |].
  destruct (key_eqb k k0) eqn:E.
  - intros _. left. symmetry. now apply key_eqb_eq.
  - intros H. right. now apply IH.
Qed.

Lemma Map_get_absent (k : jsval) (m : JSMap SimResult) :
  ~ In k (keys m) -> Map_get k m = None.
Proof.
  intros H. destruct (Map_get k m) eqn:E; [| reflexivity].
  exfalso. apply H. now apply Map_get_keys in E.
Qed.

Lemma Map_get_In (k : jsval) (e : CacheEntry SimResult) (m : JSMap SimResult) :
  well_formed m -> In (k, e) m -> Map_get k m = Some e.
Proof.
  unfold well_formed.
  induction m as [| [k0 e0] m IH]; intros Hwf Hin; [contradiction |].
  cbn [keys map fst] in Hwf. inversion Hwf as [| ? ? Hnotin Hrest]; subst.
  cbn [Map_get]. destruct Hin as [Heq | Hin].
  - injection Heq as -> ->. now rewrite key_eqb_refl.
  - rewrite key_eqb_neq; [now apply IH |].
    intros ->. apply Hnotin. change (In k0 (map fst m)).
    apply (in_map fst) in Hin. exact Hin.
Qed.

Lemma Map_set_present_size (k : jsval) (e e' : CacheEntry SimResult) (m : JSMap SimResult) :
  Map_get k m = Some e' -> Map_size (Map_set k e m) = Map_size m.
Proof.
  unfold Map_size.
  induction m as [| [k0 e0] m IH]; cbn [Map_get Map_set]; [discriminate |].
  destruct (key_eqb k k0); cbn [List.length]; [reflexivity |].
  intros H. now rewrite IH.
Qed.

Lemma evicted_not_full (m : JSMap SimResult) :
  (Map_size m < maxSize)%nat -> evicted m = m.
Proof.
  intros H. unfold evicted.
  replace (maxSize <=? Map_size m)%nat with false; [reflexivity |].
  symmetry. apply Nat.leb_gt. assumption.
Qed.

Lemma set_get_same (cache : JSMap SimResult) (key key' : CacheKey)
    (r : SimResult) (now now' : Z) :
  generateKey key' = generateKey key ->
  (now' - now <= 60000)%Z ->
  get (set cache key r now) key' now' = (Some r, set cache key r now).
Proof.
  intros Hkey Hage.
  rewrite (get_live SimResult _ key' now' {| result := r; timestamp := now |});
    [reflexivity | | cbn [timestamp]; assumption].
  rewrite Hkey, set_evicted. apply Map_set_get.
Qed.

Lemma set_get_other (cache : JSMap SimResult) (key key' : CacheKey)
    (r : SimResult) (now now' : Z) :
  (Map_size cache < 50)%nat ->
  generateKey key' <> generateKey key ->
  fst (get (set cache key r now) key' now') = fst (get cache key' now').
Proof.
  intros Hroom Hne. unfold get.
  rewrite set_evicted, evicted_not_full by assumption.
  rewrite Map_set_other by assumption.
  destruct (Map_get (generateKey key') cache) as [e |]; [| reflexivity].
  now destruct (now' - timestamp e >? maxAge)%Z.
Qed.

Lemma set_full_present (k0 : jsval) (e0 e : CacheEntry SimResult)
    (rest : JSMap SimResult) (key : CacheKey) (r : SimResult) (now : Z) :
  well_formed ((k0, e0) :: rest) ->
  Map_size ((k0, e0) :: rest) = 50%nat ->
  Map_get (generateKey key) rest = Some e ->
  Map_size (set ((k0, e0) :: rest) key r now) = 49%nat
  /\ Map_get k0 (set ((k0, e0) :: rest) key r now) = None
  /\ Map_get (generateKey key) (set ((k0, e0) :: rest) key r now)
     = Some {| result := r; timestamp := now |}.
Proof.
  intros Hwf Hsize Hpresent.
  rewrite (set_full SimResult k0 e0 rest key r now Hwf)
    by (rewrite Hsize; unfold maxSize; lia).
  split; [| split].
  - rewrite (Map_set_present_size _ _ e) by assumption.
    unfold Map_size in *. cbn [List.length] in Hsize. lia.
  - assert (Hnotin : ~ In k0 (keys rest)) by (now inversion Hwf).
    rewrite Map_set_other.
    + now apply Map_get_absent.
    + intros ->. apply Hnotin. now apply Map_get_keys in Hpresent.
  - apply Map_set_get.
Qed.

End CacheRoundTrip.

(** X17: a result that was stored is read back, for 60000 ms, by every
    key with the same fingerprint, and the read leaves the cache as it
    is. *)
Theorem SimulationCache_set_then_get {SimResult : Type}
    (cache : SimCache.JSMap SimResult) (key key' : SimCache.CacheKey)
    (r : SimResult) (now now' : Z) :
  SimCache.generateKey key' = SimCache.generateKey key ->
  (now' - now <= 60000)%Z ->
  SimCache.get (SimCache.set cache key r now) key' now'
  = (Some r, SimCache.set cache key r now).
Proof. apply set_get_same. Qed.

Lemma SimulationCache_set_then_get_witness :
  SimCache.get (SimCache.set [] whole_dollar_key 7%nat 1000%Z)
    (with_spot whole_dollar_key (60000 + 0.49)) 61000%Z
  = (Some 7%nat, SimCache.set [] whole_dollar_key 7%nat 1000%Z).
Proof.
  apply (SimulationCache_set_then_get [] whole_dollar_key
           (with_spot whole_dollar_key (60000 + 0.49)) 7%nat 1000 61000).
  - apply (with_spot_key whole_dollar_key _ 60000 1); [reflexivity | reflexivity |].
    apply round_R_stable. rewrite round_R_of_Z. lra.
  - lia.
Defined.

(** X18: while the cache has room, storing under one fingerprint does
    not change what a key with another fingerprint reads. *)
Theorem SimulationCache_set_leaves_others {SimResult : Type}
    (cache : SimCache.JSMap SimResult) (key key' : SimCache.CacheKey)
    (r : SimResult) (now now' : Z) :
  (SimCache.Map_size cache < 50)%nat ->
  SimCache.generateKey key' <> SimCache.generateKey key ->
  fst (SimCache.get (SimCache.set cache key r now) key' now')
  = fst (SimCache.get cache key' now').
Proof. apply set_get_other. Qed.

Lemma SimulationCache_set_leaves_others_witness :
  fst (SimCache.get (SimCache.set [] whole_dollar_key 7%nat 0%Z) off_centre_key 5%Z)
  = fst (SimCache.get (@nil (jsval * SimCache.CacheEntry nat)) off_centre_key 5%Z).
Proof.
  apply (SimulationCache_set_leaves_others [] whole_dollar_key off_centre_key
           7%nat 0 5).
  - cbn. lia.
  - intros H.
    apply (generateKey_canonical off_centre_key whole_dollar_key 100.3 1 60000 1)
      in H; try reflexivity.
    destruct H as (_ & H & _).
    assert (H1 : round_R 100.3 = 100%Z) by (unfold round_R; apply Zfloor_eq; lra).
    rewrite H1, round_R_of_Z in H. discriminate H.
Defined.

(** X19: on a full cache, storing under a fingerprint that is already
    there (and is not the oldest) still drops the oldest entry: the
    cache goes from 50 entries to 49. *)
Theorem SimulationCache_update_when_full {SimResult : Type}
    (k0 : jsval) (e0 e : SimCache.CacheEntry SimResult)
    (rest : SimCache.JSMap SimResult)
    (key : SimCache.CacheKey) (r : SimResult) (now : Z) :
  well_formed ((k0, e0) :: rest) ->
  SimCache.Map_size ((k0, e0) :: rest) = 50%nat ->
  SimCache.Map_get (SimCache.generateKey key) rest = Some e ->
  SimCache.Map_size (SimCache.set ((k0, e0) :: rest) key r now) = 49%nat
  /\ SimCache.Map_get k0 (SimCache.set ((k0, e0) :: rest) key r now) = None
  /\ SimCache.Map_get (SimCache.generateKey key)
       (SimCache.set ((k0, e0) :: rest) key r now)
     = Some {| SimCache.result := r; SimCache.timestamp := now |}.
Proof. apply set_full_present. Qed.

Lemma ticker_key_inj (i j : nat) :
  (i < 256)%nat -> (j < 256)%nat ->
  SimCache.generateKey (ticker_key i) = SimCache.generateKey (ticker_key j) -> i = j.
Proof.
  intros Hi Hj H. unfold SimCache.generateKey, ticker_key in H.
  cbn [SimCache.marketTicker] in H.
  injection H as H.
  rewrite <- (Ascii.nat_ascii_embedding i Hi), <- (Ascii.nat_ascii_embedding j Hj).
  now rewrite H.
Qed.

Lemma ticker_entries_well_formed (start len : nat) :
  (start + len <= 256)%nat -> well_formed (ticker_entries start len).
Proof.
  intros Hb. unfold well_formed, keys, ticker_entries. rewrite map_map. cbn [fst].
  apply NoDup_map_NoDup_ForallPairs; [| apply seq_NoDup].
  intros i j Hi Hj. apply in_seq in Hi, Hj.
  apply ticker_key_inj; lia.
Qed.

Lemma SimulationCache_update_when_full_witness :
  SimCache.Map_size
    (SimCache.set (ticker_entry 0 :: ticker_entries 1 49) (ticker_key 7) 9%nat 5%Z)
  = 49%nat
  /\ SimCache.Map_get (SimCache.generateKey (ticker_key 0))
       (SimCache.set (ticker_entry 0 :: ticker_entries 1 49) (ticker_key 7) 9%nat 5%Z)
     = None
  /\ SimCache.Map_get (SimCache.generateKey (ticker_key 7))
       (SimCache.set (ticker_entry 0 :: ticker_entries 1 49) (ticker_key 7) 9%nat 5%Z)
     = Some {| SimCache.result := 9%nat; SimCache.timestamp := 5%Z |}.
Proof.
  apply (SimulationCache_update_when_full
           (SimCache.generateKey (ticker_key 0))
           {| SimCache.result := 0%nat; SimCache.timestamp := 0%Z |}
           {| SimCache.result := 0%nat; SimCache.timestamp := 0%Z |}
           (ticker_entries 1 49) (ticker_key 7) 9%nat 5%Z).
  - apply (ticker_entries_well_formed 0 50). lia.
  - unfold SimCache.Map_size, ticker_entries. cbn [List.length].
    now rewrite length_map, length_seq.
  - apply Map_get_In.
    + apply ticker_entries_well_formed. lia.
    + unfold ticker_entries.
      apply (in_map ticker_entry (seq 1 49) 7%nat). apply in_seq. lia.
Defined.

(** ** The performance monitor *)

Lemma endTimer_metrics (m : Performance.PerformanceMonitor) (paths now : num)
    (heap : option num) :
  let metric := fst (Performance.endTimer m paths now heap) in
  Performance.metrics (snd (Performance.endTimer m paths now heap))
  = (if (100 <=? List.length (Performance.metrics m))%nat
     then tl (Performance.metrics m)
     else Performance.metrics m) ++ [metric]
  /\ Performance.cacheHitRate metric = Fin 0.
Proof.
  unfold Performance.endTimer. cbv zeta. cbn [fst snd Performance.metrics].
  split; [| reflexivity].
  rewrite length_app. cbn [List.length].
  destruct (Performance.metrics m) as [| x l] eqn:E.
  - reflexivity.
  - cbn [List.length app tl].
    replace (100 <? S (List.length l) + 1)%nat with (100 <=? S (List.length l))%nat.
    + now destruct (100 <=? S (List.length l))%nat.
    + destruct (100 <=? S (List.length l))%nat eqn:H;
        [apply Nat.leb_le in H; symmetry; apply Nat.ltb_lt; lia
        | apply Nat.leb_gt in H; symmetry; apply Nat.ltb_ge; lia].
Qed.

Lemma monitor_step_invariant (m : Performance.PerformanceMonitor) (op : Performance.Op) :
  monitor_invariant m -> monitor_invariant (Performance.step m op).
Proof.
  intros [Hlen Hrate]. destruct op as [now | paths now heap | |];
    cbn [Performance.step].
  - now split.
  - destruct (endTimer_metrics m paths now heap) as [Hm Hzero].
    unfold monitor_invariant. rewrite Hm. rewrite length_app. cbn [List.length].
    split.
    + destruct (100 <=? List.length (Performance.metrics m))%nat eqn:E.
      * destruct (Performance.metrics m); cbn [tl List.length] in *; lia.
      * apply Nat.leb_gt in E. lia.
    + apply Forall_app. split; [| now constructor].
      destruct (100 <=? List.length (Performance.metrics m))%nat; [| assumption].
      destruct (Performance.metrics m); [assumption |].
      now inversion Hrate.
  - now split.
  - split; [cbn; lia | constructor].
Qed.

Lemma monitor_run_invariant (ops : list Performance.Op)
    (m : Performance.PerformanceMonitor) :
  monitor_invariant m -> monitor_invariant (Performance.run ops m).
Proof.
  revert m. unfold Performance.run.
  induction ops as [| op ops IH]; intros m H; cbn [fold_left]; [assumption |].
  apply IH. now apply monitor_step_invariant.
Qed.

(** X20: whatever is called on a monitor, it never holds more than 100
    metrics; [endTimer] appends its metric to the history, dropping the
    oldest one when there were already 100. *)
Theorem PerformanceMonitor_history (ops : list Performance.Op)
    (paths now : num) (heap : option num) :
  let m := Performance.run ops Performance.initial in
  let metric := fst (Performance.endTimer m paths now heap) in
  (List.length (Performance.metrics m) <= 100)%nat
  /\ Performance.metrics (snd (Performance.endTimer m paths now heap))
     = (if (100 <=? List.length (Performance.metrics m))%nat
        then tl (Performance.metrics m)
        else Performance.metrics m) ++ [metric].
Proof.
  intros m metric. split.
  - apply (monitor_run_invariant ops Performance.initial).
    split; [cbn; lia | constructor].
  - apply endTimer_metrics.
Qed.

Lemma zero_rates_sum (first : Performance.PerformanceMetrics)
    (rest : list Performance.PerformanceMetrics) :
  Performance.cacheHitRate first = Fin 0 ->
  Forall (fun x => Performance.cacheHitRate x = Fin 0) rest ->
  exists c,
    Performance.cacheHitRate
      (fold_left
         (fun acc x =>
            {| Performance.simulationTime :=
                 (Performance.simulationTime acc + Performance.simulationTime x)%num;
               Performance.pathsPerSecond :=
                 (Performance.pathsPerSecond acc + Performance.pathsPerSecond x)%num;
               Performance.memoryUsed :=
                 (Performance.memoryUsed acc + Performance.memoryUsed x)%num;
               Performance.cacheHitRate :=
                 (Performance.cacheHitRate acc + Performance.cacheHitRate x)%num |})
         rest first) = Fin c
    /\ c = 0.
Proof.
  intros Hfirst Hrest. revert first Hfirst.
  induction Hrest as [| x l Hx _ IH]; intros first Hfirst; cbn [fold_left].
  - now exists 0.
  - apply IH. cbn [Performance.cacheHitRate]. rewrite Hfirst, Hx, nadd_Fin.
    f_equal. lra.
Qed.

(** X21: the average cache hit rate that the monitor reports is 0 after
    every sequence of calls: no call records a hit rate. *)
Theorem PerformanceMonitor_hit_rate_zero (ops : list Performance.Op) :
  Performance.cacheHitRate
    (Performance.getAverageMetrics (Performance.run ops Performance.initial))
  = Fin 0.
Proof.
  destruct (monitor_run_invariant ops Performance.initial) as [_ Hrate];
    [split; [cbn; lia | constructor] |].
  unfold Performance.getAverageMetrics.
  destruct (Performance.metrics (Performance.run ops Performance.initial))
    as [| first rest] eqn:E; [reflexivity |].
  inversion Hrate as [| ? ? Hfirst Hrest]; subst.
  destruct (zero_rates_sum first rest Hfirst Hrest) as (c & Hc & ->).
  cbv zeta. cbn [Performance.cacheHitRate]. rewrite Hc.
  unfold length_num. rewrite ndiv_Fin.
  - f_equal. unfold Rdiv. ring.
  - apply not_0_INR. discriminate.
Qed.

(** ** The simulation inputs: absent multipliers *)

Lemma or_default_falsy (v : num) :
  truthy v = false -> UseSimulation.or_default (Some v) (Fin 1) = Fin 1.
Proof. intros H. unfold UseSimulation.or_default. now rewrite H. Qed.

Lemma or_default_one : UseSimulation.or_default (Some (Fin 1)) (Fin 1) = Fin 1.
Proof. unfold UseSimulation.or_default. now destruct (truthy (Fin 1)). Qed.

(** X22: a multiplier of 0 (or NaN) counts as absent: an override whose
    three multipliers are 0 or NaN gives the inputs of no override, which
    are those of the override 1, 1, 1. *)
Theorem prepareSimInputs_falsy_multipliers (close_time now currentPrice : num)
    (calibration : CalibrationData.t) (sensitivity : SensitivityParams) :
  truthy (volatilityMultiplier sensitivity) = false ->
  truthy (jumpIntensityMultiplier sensitivity) = false ->
  truthy (jumpSizeMultiplier sensitivity) = false ->
  UseSimulation.prepareSimInputs close_time now calibration currentPrice
    (Some sensitivity)
  = UseSimulation.prepareSimInputs close_time now calibration currentPrice None
  /\ UseSimulation.prepareSimInputs close_time now calibration currentPrice None
     = UseSimulation.prepareSimInputs close_time now calibration currentPrice
         (Some {| volatilityMultiplier := Fin 1;
                  jumpIntensityMultiplier := Fin 1;
                  jumpSizeMultiplier := Fin 1 |}).
Proof.
  intros Hv Hi Hs. unfold UseSimulation.prepareSimInputs.
  cbn [option_map volatilityMultiplier jumpIntensityMultiplier jumpSizeMultiplier].
  rewrite !or_default_falsy by assumption.
  rewrite !or_default_one.
  split; reflexivity.
Qed.

Lemma prepareSimInputs_falsy_multipliers_witness :
  UseSimulation.prepareSimInputs (Fin 3600000) (Fin 0) sample_calibration (Fin 60000)
    (Some {| volatilityMultiplier := Fin 0;
             jumpIntensityMultiplier := Fin 0;
             jumpSizeMultiplier := NaN |})
  = UseSimulation.prepareSimInputs (Fin 3600000) (Fin 0) sample_calibration
      (Fin 60000) None
  /\ UseSimulation.prepareSimInputs (Fin 3600000) (Fin 0) sample_calibration
       (Fin 60000) None
     = UseSimulation.prepareSimInputs (Fin 3600000) (Fin 0) sample_calibration
         (Fin 60000)
         (Some {| volatilityMultiplier := Fin 1;
                  jumpIntensityMultiplier := Fin 1;
                  jumpSizeMultiplier := Fin 1 |}).
Proof.
  apply (prepareSimInputs_falsy_multipliers (Fin 3600000) (Fin 0) (Fin 60000)
           sample_calibration
           {| volatilityMultiplier := Fin 0;
              jumpIntensityMultiplier := Fin 0;
              jumpSizeMultiplier := NaN |});
    cbn [volatilityMultiplier jumpIntensityMultiplier jumpSizeMultiplier truthy];
    try reflexivity; now rewrite Reqb_true.
Defined.

(** ** The messages of the worker *)

Lemma post_progress_shape (results : list (option Worker.BatchResult)) (i total : nat) :
  Forall is_progress (fst (Worker.post_progress results i total)).
Proof.
  revert i. induction results as [| [r |] rest IH]; intros i;
    cbn [Worker.post_progress]; try constructor.
  specialize (IH (S i)).
  destruct (Worker.post_progress rest (S i) total) as [posted finished].
  cbn [fst] in *. constructor; [exact I | assumption].
Qed.

(** X23: every run of the worker posts progress messages and then
    exactly one closing message, complete or error, which is the last. *)
Theorem runSimulation_one_closing_message (isInitialized : bool)
    (engine : Worker.EngineRun) (target : jsval) (paths : num)
    (cacheKey : option jsval) :
  exists progress closing,
    Worker.runSimulation isInitialized engine target paths cacheKey
    = progress ++ [closing]
    /\ Forall is_progress progress
    /\ ~ is_progress closing.
Proof.
  unfold Worker.runSimulation.
  destruct isInitialized; cbn [negb].
  2:{ exists [], (Worker.Error Worker.NotInitialized).
      split; [reflexivity | split; [constructor | intros []]]. }
  destruct engine as [results |].
  2:{ exists [], (Worker.Error Worker.SimulationFailed).
      split; [reflexivity | split; [constructor | intros []]]. }
  assert (Hshape := post_progress_shape results 0 (List.length results)).
  destruct (Worker.post_progress results 0 (List.length results))
    as [posted finished].
  cbn [fst] in Hshape.
  destruct finished; cbn [negb].
  - destruct (last results None) as [finalResult |];
      eexists posted, _;
      (split; [reflexivity | split; [assumption | intros []]]).
  - eexists posted, _.
    split; [reflexivity | split; [assumption | intros []]].
Qed.

Lemma post_progress_all (results : list Worker.BatchResult) (i total : nat) :
  Worker.post_progress (map Some results) i total
  = (progress_messages results i total, true).
Proof.
  revert i. induction results as [| r rest IH]; intros i;
    cbn [map Worker.post_progress progress_messages]; [reflexivity |].
  now rewrite IH.
Qed.

Lemma progress_messages_length (results : list Worker.BatchResult) (i total : nat) :
  List.length (progress_messages results i total) = List.length results.
Proof.
  revert i. induction results as [| r rest IH]; intros i;
    cbn [progress_messages List.length]; [reflexivity | now rewrite IH].
Qed.

Lemma progress_messages_last (results : list Worker.BatchResult) (final : Worker.BatchResult)
    (i total : nat) (d : Worker.Message) :
  last (progress_messages (results ++ [final]) i total) d
  = Worker.Progress final
      (Fin (INR (i + List.length results + 1)) / Fin (INR total) * #100)%num.
Proof.
  revert i. induction results as [| r rest IH]; intros i.
  - cbn [app progress_messages last List.length]. now rewrite Nat.add_0_r.
  - change ((r :: rest) ++ [final]) with (r :: (rest ++ [final])).
    cbn [progress_messages].
    replace (i + List.length (r :: rest) + 1)%nat
      with (S i + List.length rest + 1)%nat by (cbn [List.length]; lia).
    rewrite <- (IH (S i)).
    destruct (progress_messages (rest ++ [final]) (S i) total) eqn:E;
      [| reflexivity].
    apply (f_equal (@List.length Worker.Message)) in E.
    rewrite progress_messages_length, length_app in E.
    cbn [List.length] in E. lia.
Qed.

(** X24: when the engine returns results that all parse, the worker
    posts one progress message per result, the last of them at 100
    percent, and then a complete message with the values of the last
    result, n = paths, stderr = sqrt(p (1 - p) / paths) and the cache
    key it was given. *)
Theorem runSimulation_success (results : list Worker.BatchResult)
    (final : Worker.BatchResult) (target : jsval) (paths : num)
    (cacheKey : option jsval) :
  let all := results ++ [final] in
  let total := List.length all in
  Worker.runSimulation true (Some (map Some all)) target paths cacheKey
  = progress_messages all 0 total
    ++ [ Worker.Complete
           {| Worker.c_target := target;
              Worker.c_p := Worker.p final;
              Worker.c_ci := Worker.ci final;
              Worker.c_fair := Worker.fair final;
              Worker.c_stderr :=
                nsqrt (Worker.p final * (#1 - Worker.p final) / paths)%num;
              Worker.c_n := paths |}
           cacheKey ]
  /\ List.length (progress_messages all 0 total) = total
  /\ last (progress_messages all 0 total) (Worker.Error Worker.SimulationFailed)
     = Worker.Progress final (Fin 100).
Proof.
  intros all total. unfold Worker.runSimulation. cbn [negb].
  rewrite length_map. fold total. rewrite post_progress_all. cbn [negb].
  assert (Hlast : last (map Some all) None = Some final).
  { unfold all. rewrite map_app. cbn [map]. apply last_last. }
  rewrite Hlast.
  split; [reflexivity |]. split; [apply progress_messages_length |].
  unfold all at 1. rewrite progress_messages_last.
  f_equal. unfold total, all. rewrite length_app. cbn [List.length Nat.add].
  assert (Hn : INR (List.length results + 1) <> 0)
    by (apply not_0_INR; lia).
  rewrite ndiv_Fin, nmul_Fin by assumption.
  f_equal. field. assumption.
Qed.

(** ** The time to the close *)

Lemma padStart2_length (s : Z) :
  (0 <= s < 60)%Z -> String.length (Format.padStart2 (Format.decimal s)) = 2%nat.
Proof.
  intros Hs.
  assert (Hn : exists n, s = Z.of_nat n /\ (n < 60)%nat).
  { exists (Z.to_nat s). split; lia. }
  destruct Hn as (n & -> & Hn).
  do 60 (destruct n as [| n]; [reflexivity |]).
  lia.
Qed.

(** X25: for a whole number of seconds that is not negative,
    [formatTimeRemaining] writes the minutes, a colon and the seconds on
    exactly two characters, where 60 minutes + seconds is the input and
    the seconds are below 60. *)
Theorem formatTimeRemaining_minutes_seconds (seconds : Z) :
  (0 <= seconds)%Z ->
  exists minutes secs : Z,
    Format.formatTimeRemaining seconds
    = (Format.decimal minutes ++ ":" ++ Format.padStart2 (Format.decimal secs))%string
    /\ (60 * minutes + secs = seconds)%Z
    /\ (0 <= minutes)%Z /\ (0 <= secs < 60)%Z
    /\ String.length (Format.padStart2 (Format.decimal secs)) = 2%nat.
Proof.
  intros Hs. exists (seconds / 60)%Z, (Z.rem seconds 60).
  assert (Hrem : Z.rem seconds 60 = (seconds mod 60)%Z)
    by (apply Z.rem_mod_nonneg; lia).
  split; [reflexivity |].
  rewrite Hrem.
  assert (Hmod := Z.mod_pos_bound seconds 60 ltac:(lia)).
  assert (Hdiv := Z.div_mod seconds 60 ltac:(lia)).
  assert (Hpos := Z.div_pos seconds 60 Hs ltac:(lia)).
  repeat split; try lia.
  now apply padStart2_length.
Qed.

Lemma formatTimeRemaining_minutes_seconds_witness :
  exists minutes secs : Z,
    Format.formatTimeRemaining 125
    = (Format.decimal minutes ++ ":" ++ Format.padStart2 (Format.decimal secs))%string
    /\ (60 * minutes + secs = 125)%Z
    /\ (0 <= minutes)%Z /\ (0 <= secs < 60)%Z
    /\ String.length (Format.padStart2 (Format.decimal secs)) = 2%nat.
Proof. apply (formatTimeRemaining_minutes_seconds 125). lia. Defined.

(** X26: for a negative number of seconds that is not a multiple of 60
    (a market that has closed), the minutes are rounded down and the
    seconds keep the sign of the input: what is written is one minute
    off, 60 minutes + seconds = input - 60, with negative seconds. *)
Theorem formatTimeRemaining_after_close (seconds : Z) :
  (seconds < 0)%Z -> (seconds mod 60 <> 0)%Z ->
  exists minutes secs : Z,
    Format.formatTimeRemaining seconds
    = (Format.decimal minutes ++ ":" ++ Format.padStart2 (Format.decimal secs))%string
    /\ (60 * minutes + secs = seconds - 60)%Z
    /\ (minutes < 0)%Z /\ (- 60 < secs < 0)%Z.
Proof.
  intros Hneg Hmultiple. exists (seconds / 60)%Z, (Z.rem seconds 60).
  split; [reflexivity |].
  assert (Hmod := Z.mod_pos_bound seconds 60 ltac:(lia)).
  assert (Hdiv := Z.div_mod seconds 60 ltac:(lia)).
  assert (Hrem : Z.rem seconds 60 = (seconds mod 60 - 60)%Z).
  { assert (Hq := Z.quot_rem' seconds 60).
    pose proof (Z.rem_bound_pos_neg seconds 60) as Hb.
    lia. }
  rewrite Hrem. repeat split; lia.
Qed.

Lemma formatTimeRemaining_after_close_witness :
  exists minutes secs : Z,
    Format.formatTimeRemaining (- 65)
    = (Format.decimal minutes ++ ":" ++ Format.padStart2 (Format.decimal secs))%string
    /\ (60 * minutes + secs = - 65 - 60)%Z
    /\ (minutes < 0)%Z /\ (- 60 < secs < 0)%Z.
Proof.
  apply (formatTimeRemaining_after_close (- 65)); [lia |].
  vm_compute. discriminate.
Defined.

(** ** The price history keeps the latest prices *)

Lemma addPrice_slice (maxLength : nat) (prev : list PriceHistory.BTCPrice)
    (p : PriceHistory.BTCPrice) :
  PriceHistory.addPrice maxLength prev p
  = PriceHistory.slice_neg maxLength (prev ++ [p]).
Proof.
  unfold PriceHistory.addPrice. cbv zeta.
  destruct (maxLength <? List.length (prev ++ [p]))%nat eqn:E; [reflexivity |].
  apply Nat.ltb_ge in E. unfold PriceHistory.slice_neg.
  destruct maxLength as [| k]; [reflexivity |].
  replace (List.length (prev ++ [p]) - S k)%nat with 0%nat by lia. reflexivity.
Qed.

Lemma slice_neg_app_slice {A} (n : nat) (a b : list A) :
  PriceHistory.slice_neg n (PriceHistory.slice_neg n a ++ b)
  = PriceHistory.slice_neg n (a ++ b).
Proof.
  unfold PriceHistory.slice_neg. destruct n as [| k]; [reflexivity |].
  destruct (Nat.le_gt_cases (List.length a) (S k)) as [Hle | Hgt].
  - replace (List.length a - S k)%nat with 0%nat by lia. reflexivity.
  - rewrite length_app, length_skipn.
    replace (List.length a - (List.length a - S k) + List.length b - S k)%nat
      with (List.length b) by lia.
    rewrite length_app.
    replace (List.length a + List.length b - S k)%nat
      with (List.length b + (List.length a - S k))%nat by lia.
    rewrite <- skipn_skipn. f_equal.
    rewrite skipn_app.
    replace (List.length a - S k - List.length a)%nat with 0%nat by lia.
    reflexivity.
Qed.

Lemma addPrice_fold (maxLength : nat) (prices prev : list PriceHistory.BTCPrice) :
  PriceHistory.slice_neg maxLength prev = prev ->
  fold_left (PriceHistory.addPrice maxLength) prices prev
  = PriceHistory.slice_neg maxLength (prev ++ prices).
Proof.
  revert prev. induction prices as [| p prices IH]; intros prev Hprev.
  - cbn [fold_left]. now rewrite app_nil_r.
  - cbn [fold_left]. rewrite addPrice_slice, IH.
    + rewrite slice_neg_app_slice, <- app_assoc. reflexivity.
    + rewrite <- (app_nil_r (PriceHistory.slice_neg maxLength (prev ++ [p]))) at 1.
      rewrite slice_neg_app_slice, app_nil_r. reflexivity.
Qed.

(** X27: after any sequence of [addPrice] calls the history is
    [prices.slice(-maxLength)] of the prices added, in their order: the
    latest [maxLength] of them, and all of them when [maxLength] is 0, so
    that a limit of 0 is no limit. *)
Theorem addPrice_keeps_latest (maxLength : nat) (prices : list PriceHistory.BTCPrice) :
  let history := fold_left (PriceHistory.addPrice maxLength) prices [] in
  history = PriceHistory.slice_neg maxLength prices
  /\ List.length history
     = (if (maxLength =? 0)%nat then List.length prices
        else Nat.min maxLength (List.length prices)).
Proof.
  intros history. unfold history.
  rewrite addPrice_fold by now destruct maxLength.
  cbn [app]. split; [reflexivity |].
  unfold PriceHistory.slice_neg. destruct maxLength as [| k]; [reflexivity |].
  cbn [Nat.eqb]. rewrite length_skipn. lia.
Qed.

(** ** Candles of the price history *)

Lemma summarises_single (t : num) (r : R) :
  summarises
    {| PriceHistory.time := t; PriceHistory.open := Fin r;
       PriceHistory.high := Fin r; PriceHistory.low := Fin r;
       PriceHistory.close := Fin r |} [r].
Proof. cbn. repeat split. Qed.

Lemma summarises_extend (c : PriceHistory.Candle) (run : list R) (r : R) :
  summarises c run ->
  summarises
    {| PriceHistory.time := PriceHistory.time c;
       PriceHistory.open := PriceHistory.open c;
       PriceHistory.high := nmax (PriceHistory.high c) (Fin r);
       PriceHistory.low := nmin (PriceHistory.low c) (Fin r);
       PriceHistory.close := Fin r |} (run ++ [r]).
Proof.
  destruct run as [| first rest]; [intros [] |].
  intros (Ho & Hc & Hh & Hl).
  cbn [app summarises PriceHistory.open PriceHistory.close PriceHistory.high
       PriceHistory.low].
  rewrite Hh, Hl, nmax_Fin, nmin_Fin, last_last, !fold_left_app.
  repeat split. exact Ho.
Qed.

Lemma candle_step_covers (intervalMs : num)
    (state : list PriceHistory.Candle * option PriceHistory.Candle)
    (done : list R) (p : PriceHistory.BTCPrice) (r : R) :
  covers state done -> PriceHistory.price p = Fin r ->
  covers (PriceHistory.candle_step intervalMs state p) (done ++ [r]).
Proof.
  destruct state as [candles [c |]]; intros (runs & Hruns & Hcur) Hp;
    cbn [fst snd] in *; unfold PriceHistory.candle_step; rewrite Hp.
  - destruct Hcur as (run & Hrun & Hdone).
    destruct (negb _).
    + exists (runs ++ [run]). cbn [fst snd]. split.
      * apply Forall2_app; [exact Hruns | now constructor].
      * exists [r]. split; [apply summarises_single |].
        rewrite concat_app. cbn [List.concat]. rewrite app_nil_r, Hdone.
        reflexivity.
    + exists runs. cbn [fst snd]. split; [exact Hruns |].
      exists (run ++ [r]). split; [now apply summarises_extend |].
      now rewrite app_assoc, Hdone.
  - destruct Hcur as [-> ->]. exists []. cbn [fst snd]. split; [exact Hruns |].
    exists [r]. split; [apply summarises_single | reflexivity].
Qed.

Lemma candle_fold_covers (intervalMs : num) (history : list PriceHistory.BTCPrice) :
  forall (prices : list R),
    map PriceHistory.price history = map Fin prices ->
    forall state done,
      covers state done ->
      covers (fold_left (PriceHistory.candle_step intervalMs) history state)
        (done ++ prices).
Proof.
  induction history as [| p history IH]; intros [| r prices] Hmap state done Hst;
    try discriminate Hmap.
  - now rewrite app_nil_r.
  - cbn [map] in Hmap. injection Hmap as Hp Hmap. cbn [fold_left].
    replace (done ++ r :: prices) with ((done ++ [r]) ++ prices)
      by now rewrite <- app_assoc.
    apply IH; [exact Hmap |]. now apply candle_step_covers.
Qed.

Lemma summarises_count (candles : list PriceHistory.Candle) (runs : list (list R)) :
  Forall2 summarises candles runs ->
  (List.length candles <= List.length (List.concat runs))%nat.
Proof.
  induction 1 as [| c run candles runs Hc _ IH]; [apply Nat.le_refl |].
  cbn [List.length List.concat]. rewrite length_app.
  destruct run as [| first rest]; [destruct Hc |]. cbn [List.length]. lia.
Qed.

(** X28: for finite prices, whatever the time stamps and the interval,
    [getCandles] cuts the history into consecutive runs, none of them
    empty, and returns one candle per run, in order: the candle opens at
    the first price of its run, closes at the last, and its high and low
    are the largest and the smallest price of the run.  No price is left
    out or counted twice, and there are at most as many candles as
    prices. *)
Theorem getCandles_partition (history : list PriceHistory.BTCPrice)
    (prices : list R) (intervalMinutes : num) :
  map PriceHistory.price history = map Fin prices ->
  exists runs : list (list R),
    List.concat runs = prices
    /\ Forall2 summarises (PriceHistory.getCandles history intervalMinutes) runs
    /\ (List.length (PriceHistory.getCandles history intervalMinutes)
        <= List.length history)%nat.
Proof.
  intros Hmap.
  assert (Hlen : List.length history = List.length prices).
  { rewrite <- (length_map PriceHistory.price), Hmap. apply length_map. }
  assert (Hgoal : exists runs : list (list R),
             List.concat runs = prices
             /\ Forall2 summarises
                  (PriceHistory.getCandles history intervalMinutes) runs).
  { unfold PriceHistory.getCandles.
    destruct history as [| p0 history0] eqn:Hh.
    - destruct prices; [| discriminate Hmap]. exists []. now split.
    - rewrite <- Hh in *. cbv zeta.
      pose proof (candle_fold_covers
                    (intervalMinutes * #60 * #1000)%num history prices Hmap
                    ([], None) []) as Hc.
      destruct (fold_left _ history ([], None)) as [candles cur].
      destruct Hc as (runs & Hruns & Hcur).
      { exists []. cbn [fst snd]. now split. }
      cbn [fst snd app] in *.
      destruct cur as [c |].
      + destruct Hcur as (run & Hrun & Hdone). exists (runs ++ [run]). split.
        * rewrite concat_app. cbn [List.concat]. now rewrite app_nil_r.
        * apply Forall2_app; [exact Hruns | now constructor].
      + destruct Hcur as [-> Hdone]. exists []. split; [now rewrite Hdone |].
        exact Hruns. }
  destruct Hgoal as (runs & Hconcat & Hruns).
  exists runs. repeat split; try assumption.
  rewrite Hlen, <- Hconcat. now apply summarises_count.
Qed.

Lemma getCandles_partition_witness :
  exists runs : list (list R),
    List.concat runs = [100; 102; 99]
    /\ Forall2 summarises (PriceHistory.getCandles sample_history (Fin 1)) runs
    /\ (List.length (PriceHistory.getCandles sample_history (Fin 1))
        <= List.length sample_history)%nat.
Proof.
  apply (getCandles_partition sample_history [100; 102; 99] (Fin 1)).
  reflexivity.
Defined.

Lemma candleTime_bucket (k : Z) (intervalMs t : R) :
  0 < intervalMs ->
  IZR k * intervalMs <= t < (IZR k + 1) * intervalMs ->
  (PriceHistory.Math_floor (Fin t / Fin intervalMs) * Fin intervalMs)%num
  = Fin (IZR k * intervalMs).
Proof.
  intros HI [Hlo Hhi].
  rewrite ndiv_Fin by lra. cbn [PriceHistory.Math_floor]. rewrite nmul_Fin.
  rewrite (Zfloor_eq k); [reflexivity |].
  split.
  - apply (Rmult_le_reg_r intervalMs); [exact HI |].
    unfold Rdiv. rewrite Rmult_assoc, Rinv_l by lra. lra.
  - apply (Rmult_lt_reg_r intervalMs); [exact HI |].
    unfold Rdiv. rewrite Rmult_assoc, Rinv_l by lra. lra.
Qed.

Lemma last_cons_default {A} (l : list A) (a d : A) :
  last (a :: l) d = last l a.
Proof.
  revert a d. induction l as [| b l IH]; intros a d; [reflexivity |].
  change (last (a :: b :: l) d) with (last (b :: l) d).
  now rewrite !IH.
Qed.

Lemma candle_fold_bucket (k : Z) (intervalMs : R)
    (rest : list PriceHistory.BTCPrice) :
  0 < intervalMs ->
  (forall p, In p rest ->
     exists t, PriceHistory.timestamp p = Fin t
               /\ IZR k * intervalMs <= t < (IZR k + 1) * intervalMs) ->
  forall c,
    PriceHistory.time c = Fin (IZR k * intervalMs) ->
    fold_left (PriceHistory.candle_step (Fin intervalMs)) rest ([], Some c)
    = ([], Some
         {| PriceHistory.time := PriceHistory.time c;
            PriceHistory.open := PriceHistory.open c;
            PriceHistory.high :=
              fold_left nmax (map PriceHistory.price rest) (PriceHistory.high c);
            PriceHistory.low :=
              fold_left nmin (map PriceHistory.price rest) (PriceHistory.low c);
            PriceHistory.close :=
              last (map PriceHistory.price rest) (PriceHistory.close c) |}).
Proof.
  intros HI. induction rest as [| p rest IH]; intros Hts c Hc.
  - cbn [fold_left map last]. now destruct c.
  - destruct (Hts p (or_introl eq_refl)) as (t & Ht & Hb).
    cbn [fold_left]. unfold PriceHistory.candle_step at 2.
    rewrite Ht, (candleTime_bucket k intervalMs t HI Hb), Hc.
    cbn [nseq]. rewrite Reqb_true by reflexivity. cbn [negb].
    rewrite IH.
    + cbn [PriceHistory.time PriceHistory.open PriceHistory.high
           PriceHistory.low PriceHistory.close map fold_left].
      do 3 f_equal. symmetry. apply last_cons_default.
    + intros q Hq. apply Hts. now right.
    + first [exact Hc | reflexivity].
Qed.

(** X29: when the time stamps of all prices fall into one interval of
    the grid, from k I up to but not including (k + 1) I, where I > 0 is
    60000 times [intervalMinutes], the history makes one candle, stamped
    k I: it opens at the first price, closes at the last, and its high
    and low are [Math.max] and [Math.min] over all of them. *)
Theorem getCandles_one_bucket (first : PriceHistory.BTCPrice)
    (rest : list PriceHistory.BTCPrice) (intervalMinutes : R) (k : Z) :
  0 < intervalMinutes ->
  (forall p, In p (first :: rest) ->
     exists t, PriceHistory.timestamp p = Fin t
               /\ IZR k * (intervalMinutes * 60 * 1000) <= t
                  < (IZR k + 1) * (intervalMinutes * 60 * 1000)) ->
  PriceHistory.getCandles (first :: rest) (Fin intervalMinutes)
  = [ {| PriceHistory.time := Fin (IZR k * (intervalMinutes * 60 * 1000));
         PriceHistory.open := PriceHistory.price first;
         PriceHistory.high :=
           fold_left nmax (map PriceHistory.price rest) (PriceHistory.price first);
         PriceHistory.low :=
           fold_left nmin (map PriceHistory.price rest) (PriceHistory.price first);
         PriceHistory.close :=
           last (map PriceHistory.price rest) (PriceHistory.price first) |} ].
Proof.
  intros Hm Hts.
  assert (HI : 0 < intervalMinutes * 60 * 1000) by lra.
  unfold PriceHistory.getCandles. cbv zeta. rewrite !nmul_Fin.
  cbn [fold_left]. unfold PriceHistory.candle_step at 2.
  destruct (Hts first (or_introl eq_refl)) as (t & Ht & Hb).
  rewrite Ht, (candleTime_bucket k _ t HI Hb).
  rewrite (candle_fold_bucket k _ rest HI).
  - reflexivity.
  - intros q Hq. apply Hts. now right.
  - reflexivity.
Qed.

Lemma getCandles_one_bucket_witness :
  PriceHistory.getCandles [tick 100 1000; tick 102 2000] (Fin 1)
  = [ {| PriceHistory.time := Fin (IZR 0 * (1 * 60 * 1000));
         PriceHistory.open := Fin 100;
         PriceHistory.high := fold_left nmax [Fin 102] (Fin 100);
         PriceHistory.low := fold_left nmin [Fin 102] (Fin 100);
         PriceHistory.close := Fin 102 |} ].
Proof.
  apply (getCandles_one_bucket (tick 100 1000) [tick 102 2000] 1 0); [lra |].
  intros p [<- | [<- | []]]; eexists; (split; [reflexivity | lra]).
Defined.

(** ** The charts stay inside their view boxes *)

Lemma fold_nmax_finite (values : list num) :
  Forall finite values ->
  forall a : R,
    exists M : R,
      fold_left nmax values (Fin a) = Fin M
      /\ a <= M
      /\ forall r, In (Fin r) values -> r <= M.
Proof.
  induction 1 as [| v values [r0 ->] _ IH]; intros a.
  - exists a. cbn [fold_left]. repeat split; [lra | intros r []].
  - cbn [fold_left]. rewrite nmax_Fin.
    destruct (IH (Rmax a r0)) as (M & HM & Ha & Hall).
    exists M. split; [exact HM |].
    pose proof (Rmax_l a r0). pose proof (Rmax_r a r0).
    split; [lra |].
    intros r [Hr | Hr]; [injection Hr as <-; lra | now apply Hall].
Qed.

Lemma Math_max_finite (values : list num) (c : R) :
  Forall finite values ->
  exists M : R,
    Charts.Math_max (values ++ [Fin c]) = Fin M
    /\ c <= M
    /\ forall r, In (Fin r) values -> r <= M.
Proof.
  intros Hfin. unfold Charts.Math_max.
  destruct Hfin as [| v values [r0 ->] Hfin].
  - exists c. cbn. repeat split; [lra | intros r []].
  - cbn [app fold_left].
    change (nmax NInf (Fin r0)) with (Fin r0).
    destruct (fold_nmax_finite (values ++ [Fin c])) with (a := r0)
      as (M & HM & Ha & Hall).
    { apply Forall_app. split; [exact Hfin |].
      constructor; [now exists c | constructor]. }
    exists M. split; [exact HM |]. split.
    + apply Hall, in_or_app. right. now left.
    + intros r [Hr | Hr]; [injection Hr as <-; exact Ha |].
      apply Hall, in_or_app. now left.
Qed.

Lemma fraction_bounds (q M : R) : 0 <= q <= M -> 0 < M -> 0 <= q / M <= 1.
Proof.
  intros Hq HM. split.
  - apply Rmult_le_pos; [lra |]. left. now apply Rinv_0_lt_compat.
  - apply (Rmult_le_reg_r M); [exact HM |].
    unfold Rdiv. rewrite Rmult_assoc, Rinv_l by lra. lra.
Qed.

Lemma bars_inside (distribution : Charts.SimulationDistribution) (probs : list R) :
  map Charts.probability (Charts.histogram distribution) = map Fin probs ->
  Forall (fun q => 0 <= q) probs ->
  Forall
    (rect_inside (INR (List.length (Charts.histogram distribution)) * (6 + 2) + 2) 100)
    (Charts.bars distribution).
Proof.
  intros Hmap Hpos.
  destruct (Math_max_finite
              (map Charts.probability (Charts.histogram distribution)) 0.0001)
    as (M & HM & Hc & Hall).
  { rewrite Hmap. apply Forall_forall. intros v Hv.
    apply in_map_iff in Hv as (r & <- & _). now exists r. }
  apply Forall_forall. intros rect Hrect.
  unfold Charts.bars in Hrect.
  apply in_map_iff in Hrect as ([index bin] & <- & Hin).
  pose proof (in_combine_l _ _ _ _ Hin) as Hindex.
  pose proof (in_combine_r _ _ _ _ Hin) as Hbin.
  apply in_seq in Hindex.
  assert (Hq : exists q, Charts.probability bin = Fin q /\ 0 <= q <= M).
  { pose proof (in_map Charts.probability _ _ Hbin) as Hp.
    pose proof Hp as Hp'. rewrite Hmap in Hp'.
    apply in_map_iff in Hp' as (q & Hq & Hqin).
    exists q. split; [now symmetry |]. split.
    - rewrite Forall_forall in Hpos. now apply Hpos.
    - apply Hall. now rewrite Hq. }
  destruct Hq as (q & Hq & Hqb).
  assert (Hfrac : 0 <= q / M <= 1) by (apply fraction_bounds; lra).
  assert (Hi : INR index + 1 <= INR (List.length (Charts.histogram distribution))).
  { rewrite <- S_INR. apply le_INR. lia. }
  pose proof (pos_INR index) as Hi0.
  unfold Charts.bar, Charts.maxProbability. cbv zeta.
  rewrite HM, Hq.
  unfold Charts.HISTOGRAM_HEIGHT, Charts.BAR_WIDTH, Charts.BAR_GAP.
  fin_arith ltac:(lra).
  unfold rect_inside.
  cbn [Charts.x Charts.y Charts.width Charts.height].
  eexists _, _, _, _.
  split; [reflexivity |]. split; [reflexivity |].
  split; [reflexivity |]. split; [reflexivity |].
  repeat split; lra.
Qed.

Lemma paths_inside (distribution : Charts.SimulationDistribution) (lo hi : R) :
  Charts.min distribution = Fin lo -> Charts.max distribution = Fin hi ->
  (forall path point,
     In path (Charts.samplePaths distribution) ->
     In point (Charts.points path) -> point_in_range lo hi point) ->
  Forall (Forall (point_inside 260 140)) (Charts.paths distribution).
Proof.
  intros Hmin Hmax Hpoints.
  destruct (Math_max_finite
              (flat_map (fun path => map Charts.t (Charts.points path))
                 (Charts.samplePaths distribution)) 1)
    as (M & HM & Hc & Hall).
  { apply Forall_forall. intros v Hv.
    apply in_flat_map in Hv as (path & Hpath & Hv).
    apply in_map_iff in Hv as (point & <- & Hpoint).
    destruct (Hpoints path point Hpath Hpoint) as (t & _ & Ht & _).
    now exists t. }
  apply Forall_forall. intros drawn Hdrawn.
  unfold Charts.paths in Hdrawn.
  apply in_map_iff in Hdrawn as (path & <- & Hpath).
  apply Forall_forall. intros pt Hpt.
  apply in_map_iff in Hpt as (point & <- & Hpoint).
  destruct (Hpoints path point Hpath Hpoint) as (t & price & Ht & Hprice & Ht0 & Hb).
  assert (HtM : t <= M).
  { apply Hall. rewrite <- Ht. apply in_flat_map. exists path.
    split; [exact Hpath |]. now apply in_map. }
  assert (Hx : 0 <= t / M <= 1) by (apply fraction_bounds; lra).
  unfold Charts.toX, Charts.toY, Charts.maxTime, Charts.priceRange. cbv zeta.
  rewrite HM, Ht, Hprice, Hmin, Hmax.
  unfold Charts.PATH_CHART_WIDTH, Charts.PATH_CHART_HEIGHT.
  rewrite (nsub_Fin hi lo). unfold truthy.
  destruct (Req_dec_T (hi - lo) 0) as [Hflat | Hwide].
  - rewrite (Reqb_true _ _ Hflat). cbn [negb].
    fin_arith ltac:(lra).
    eexists _, _. split; [reflexivity |].
    replace (price - lo) with 0 by lra. lra.
  - rewrite (Reqb_false _ _ Hwide). cbn [negb].
    assert (Hy : 0 <= (price - lo) / (hi - lo) <= 1)
      by (apply fraction_bounds; lra).
    fin_arith ltac:(lra).
    eexists _, _. split; [reflexivity |]. lra.
Qed.

(** X30: for a histogram of finite probabilities that are not negative,
    every bar lies inside the view box of the histogram, whose width is
    8 per bin plus 2 and whose height is 100; and when the points of the
    first fifteen sample paths have times that are not negative and
    prices between [distribution.min] and [distribution.max], every
    point drawn lies inside the view box of 260 by 140, also when
    [min] = [max]. *)
Theorem SimulationCharts_inside_viewBox
    (distribution : Charts.SimulationDistribution) (probs : list R) (lo hi : R) :
  map Charts.probability (Charts.histogram distribution) = map Fin probs ->
  Forall (fun q => 0 <= q) probs ->
  Charts.min distribution = Fin lo -> Charts.max distribution = Fin hi ->
  (forall path point,
     In path (Charts.samplePaths distribution) ->
     In point (Charts.points path) -> point_in_range lo hi point) ->
  exists W : R,
    Charts.histogramWidth distribution = Fin W
    /\ W = 8 * INR (List.length probs) + 2
    /\ Forall (rect_inside W 100) (Charts.bars distribution)
    /\ Forall (Forall (point_inside 260 140)) (Charts.paths distribution).
Proof.
  intros Hmap Hpos Hmin Hmax Hpoints.
  exists (INR (List.length (Charts.histogram distribution)) * (6 + 2) + 2).
  split; [| split; [| split]].
  - unfold Charts.histogramWidth, length_num, Charts.BAR_WIDTH, Charts.BAR_GAP.
    now fin_arith ltac:(lra).
  - rewrite <- (length_map Charts.probability), Hmap, length_map. lra.
  - now apply (bars_inside distribution probs).
  - now apply (paths_inside distribution lo hi).
Qed.

Lemma SimulationCharts_inside_viewBox_witness :
  exists W : R,
    Charts.histogramWidth sample_distribution = Fin W
    /\ W = 8 * INR (List.length [0.25; 0.75]) + 2
    /\ Forall (rect_inside W 100) (Charts.bars sample_distribution)
    /\ Forall (Forall (point_inside 260 140)) (Charts.paths sample_distribution).
Proof.
  apply (SimulationCharts_inside_viewBox sample_distribution [0.25; 0.75] 90 110).
  - reflexivity.
  - repeat constructor; lra.
  - reflexivity.
  - reflexivity.
  - intros path point [<- | []] [<- | [<- | []]];
      eexists _, _; (split; [reflexivity |]); (split; [reflexivity |]); lra.
Defined.

(** * Where binary64 departs from exact arithmetic *)

(** ** The sign of a mean *)

Lemma absorbed_returns_mean : 0 < mean_R absorbed_returns.
Proof.
  unfold mean_R, sum_R, absorbed_returns.
  cbn [repeat app fold_left List.length].
  rewrite INR_IZR_INZ. cbn [Z.of_nat Pos.of_succ_nat Pos.succ].
  lra.
Qed.

Lemma absorbed_returns_stddev : 0.02 <= stddev_R absorbed_returns.
Proof.
  unfold stddev_R.
  generalize (mean_R absorbed_returns). intros m.
  unfold sum_R, absorbed_returns.
  cbn [repeat app fold_left List.length Nat.ltb Nat.leb].
  rewrite INR_IZR_INZ. cbn [Z.of_nat Pos.of_succ_nat Pos.succ].
  replace 0.02 with (sqrt (0.02 * 0.02)) at 1 by (apply sqrt_square; lra).
  apply sqrt_le_1_alt.
  pose proof (Rle_0_sqr (1 / 2 ^ 58 - m)) as Hs. unfold Rsqr in Hs.
  pose proof (Rle_0_sqr m) as Hm. unfold Rsqr in Hm.
  lra.
Qed.

(** On ten returns whose sum is 8 * 2^-58 the program adds the small
    returns to -1/16 one at a time, where each is rounded away, and ends
    with the sum 0: it finds no positive mean and emits BEAR with
    [0.4, 0.6], where the mean of the same ten numbers is positive and
    the formula on the real numbers gives BULL with [0.6, 0.4]. *)
Lemma detectRegime_mean_sign_in_binary64 :
  Binary64.detectRegime absorbed_returns_b64
  = {| Binary64.current := BEAR; Binary64.probabilities := (0.4, 0.6)%float |}
  /\ Calibrate.detectRegime (map Fin absorbed_returns)
     = regime_object BULL 0.6 0.4.
Proof.
  split; [vm_compute; reflexivity |].
  destruct (detectRegime_exact absorbed_returns) as [(current & Hmax & Heq) _].
  rewrite Heq. clear Heq.
  change (List.length absorbed_returns <? 10)%nat with false.
  cbv iota.
  change (Calibrate.slice_last 20 absorbed_returns) with absorbed_returns in *.
  assert (Hbull : bull_score (mean_R absorbed_returns) (stddev_R absorbed_returns)
                  = 0.6).
  { unfold bull_score.
    rewrite (Rltb_true _ _ absorbed_returns_mean).
    rewrite (Rltb_false _ _ absorbed_returns_stddev). lra. }
  unfold bear_score in *. rewrite Hbull in *.
  replace (1 - 0.6) with 0.4 in * by lra.
  unfold argmax_regime in Hmax.
  rewrite (Rltb_true 0.4 0.6) in Hmax by lra.
  injection Hmax as <-. reflexivity.
Qed.

(** ** Jumps flagged at equality and after underflow *)

(** Seventeen returns of 0 and the two returns 0.0285 and -0.0285 lie
    at three deviations exactly; in binary64 three times the deviation
    is rounded below them and both are flagged: two among nineteen,
    where exact arithmetic flags none. *)
Lemma detectJumps_binary64_at_equality :
  Binary64.detectJumps (repeat 0 17 ++ [0.0285; - 0.0285])%float 3%float
  = [0.0285; - 0.0285]%float.
Proof. vm_compute. reflexivity. Qed.

(** Below 1e-154 the squares underflow: the deviation of [0, 1e-200] is
    computed as 0, and every return off the mean is flagged. *)
Lemma detectJumps_binary64_underflow :
  Binary64.realizedVolatility [0; 1e-200]%float = 0%float
  /\ Binary64.detectJumps [0; 1e-200]%float 3%float = [0; 1e-200]%float
  /\ Binary64.detectJumps [1e-200; - 1e-200]%float 3%float
     = [1e-200; - 1e-200]%float.
Proof. repeat split; vm_compute; reflexivity. Qed.

(** ** The EWMA volatility of equal returns *)

(** Of two returns of 0.005996 with the decay 0.94 the program computes
    0.0059959999999999987, below both. *)
Lemma ewmaVolatility_binary64_below_returns :
  (Binary64.ewmaVolatility [0.005996; 0.005996] 0.94 <? 0.005996)%float = true.
Proof. vm_compute. reflexivity. Qed.
